(** * LongForm AI: chapter orchestration engine, embedded in Rocq

    A shallow embedding of the chapter generation engine of the
    [longform-ai] repository (TypeScript): the refusal classifier
    ([utils/refusal-detection.ts]), the token budget assembler
    ([context/token-budget.ts]), the outline editor and the session
    controller ([book-session.ts]) and the graph nodes
    ([graph/nodes/*.ts], [graph/edges.ts]).

    JavaScript strings are sequences of UTF-16 code units: they are
    modelled as [list N].  Calls to the language model are calls to an
    external collaborator: they are modelled as an oracle, a function from
    the index of the call to its reply, over which every theorem
    quantifies. *)

From Stdlib Require Import List NArith ZArith Lia Bool Ascii String Permutation.
From stdpp Require Import gmap.
Import ListNotations.

Local Open Scope N_scope.

(** ** JavaScript strings *)

Module Text.

(** A string is the list of its UTF-16 code units. *)
Abbreviation jstr := (list N).

(** A literal with ASCII characters only. *)
Fixpoint js (s : string) : jstr :=
  match s with
  | EmptyString => []
  | String c s' => N_of_ascii c :: js s'
  end.

Definition LF : N := 10.

(** [WhiteSpace] and [LineTerminator] of ECMAScript: what [\s] matches and
    what [String.prototype.trim] strips. *)
Definition isSpace (c : N) : bool :=
  ((9 <=? c) && (c <=? 13)) || (c =? 32) || (c =? 160) || (c =? 5760)
  || ((8192 <=? c) && (c <=? 8202)) || (c =? 8232) || (c =? 8233)
  || (c =? 8239) || (c =? 8287) || (c =? 12288) || (c =? 65279).

Definition isNL (c : N) : bool := c =? LF.

Fixpoint ltrim (s : jstr) : jstr :=
  match s with
  | [] => []
  | c :: s' => if isSpace c then ltrim s' else s
  end.

Definition rtrim (s : jstr) : jstr := rev (ltrim (rev s)).

(** [s.trim()] *)
Definition trim (s : jstr) : jstr := rtrim (ltrim s).

(** [!s]: the empty string is the only falsy string. *)
Definition isEmpty (s : jstr) : bool :=
  match s with [] => true | _ => false end.

(** [parts.join(sep)] *)
Fixpoint join (sep : jstr) (parts : list jstr) : jstr :=
  match parts with
  | [] => []
  | [p] => p
  | p :: rest => p ++ sep ++ join sep rest
  end.

(** Adds a character in front of the first piece of a split. *)
Definition consFirst (c : N) (parts : list jstr) : list jstr :=
  match parts with
  | [] => [[c]]
  | p :: ps => (c :: p) :: ps
  end.

Definition startsNL (s : jstr) : bool :=
  match s with
  | c :: _ => isNL c
  | [] => false
  end.

(** [s.split(/\n\n+/)]: the separators are the maximal runs of two or more
    line feeds.  [skip] says that the scan is inside a separator. *)
Fixpoint splitParaGo (skip : bool) (s : jstr) : list jstr :=
  match s with
  | [] => [[]]
  | c :: s' =>
      if isNL c then
        if skip then splitParaGo true s'
        else if startsNL s' then [] :: splitParaGo true s'
        else consFirst c (splitParaGo false s')
      else consFirst c (splitParaGo false s')
  end.

Definition splitPara (s : jstr) : list jstr := splitParaGo false s.

(** [s.split(/\s+/)]: the separators are the maximal runs of white space. *)
Fixpoint splitWsGo (skip : bool) (s : jstr) : list jstr :=
  match s with
  | [] => [[]]
  | c :: s' =>
      if isSpace c then
        if skip then splitWsGo true s' else [] :: splitWsGo true s'
      else consFirst c (splitWsGo false s')
  end.

Definition splitWs (s : jstr) : list jstr := splitWsGo false s.

(** [s.split('\n')] *)
Fixpoint splitLines (s : jstr) : list jstr :=
  match s with
  | [] => [[]]
  | c :: s' => if isNL c then [] :: splitLines s' else consFirst c (splitLines s')
  end.

Definition isSentenceEnd (c : N) : bool := (c =? 46) || (c =? 33) || (c =? 63).

(** [s.split(/(?<=[.!?])\s+/)]: the separators are the maximal runs of
    white space that directly follow one of [.], [!], [?].  [prev] is the
    code unit before the scan position. *)
Fixpoint splitSentGo (prev : option N) (skip : bool) (s : jstr) : list jstr :=
  match s with
  | [] => [[]]
  | c :: s' =>
      if isSpace c then
        if skip then splitSentGo (Some c) true s'
        else if match prev with Some p => isSentenceEnd p | None => false end
             then [] :: splitSentGo (Some c) true s'
             else consFirst c (splitSentGo (Some c) false s')
      else consFirst c (splitSentGo (Some c) false s')
  end.

Definition splitSentences (s : jstr) : list jstr := splitSentGo None false s.

(** [countWords] of [graph/nodes/writer.ts] (and of [continuity.ts]):
    [text.split(/\s+/).filter(w => w.length > 0).length]. *)
Definition countWords (text : jstr) : nat :=
  List.length (List.filter (fun w => negb (isEmpty w)) (splitWs text)).

(** [s.slice(0, n)] for [0 <= n] and [s.slice(-n)] for [0 < n]. *)
Definition sliceTo (n : nat) (s : jstr) : jstr := firstn n s.
Definition sliceLast (n : nat) (s : jstr) : jstr :=
  skipn (List.length s - n) s.

End Text.

(** ** Regular expressions

    The fragment of ECMAScript regular expressions that the repository
    uses: literals, classes, [\d], [\s], [\b], [^], [$], groups [(?:...)],
    alternation and the quantifiers [?], [*], [+] and [{n,}].  Only
    [RegExp.prototype.test] is used on them, without the [g] flag, so what
    matters is whether some match exists. *)

Module Regex.
Import Text.

Inductive re : Type :=
| Chr (c : N)
| Cls (cs : list N)
| Digit
| Space
| WordB
| Bol
| Eol
| Eps
| Seq (r1 r2 : re)
| Alt (r1 r2 : re)
| Opt (r : re)
| Star (r : re).

Definition Plus (r : re) : re := Seq r (Star r).

Fixpoint AtLeast (n : nat) (r : re) : re :=
  match n with
  | O => Star r
  | S n' => Seq r (AtLeast n' r)
  end.

(** Canonicalize of the [i] flag (no [u] flag): ASCII letters fold to
    upper case, and no code unit above 127 folds onto an ASCII one. *)
Definition upper (c : N) : N :=
  if (97 <=? c) && (c <=? 122) then c - 32 else c.

Definition eqChar (ci : bool) (a b : N) : bool :=
  if ci then upper a =? upper b else a =? b.

Definition isDigit (c : N) : bool := (48 <=? c) && (c <=? 57).

(** A word character of [\b]: [A-Za-z0-9_]. *)
Definition isWord (c : N) : bool :=
  ((65 <=? c) && (c <=? 90)) || ((97 <=? c) && (c <=? 122)) || isDigit c || (c =? 95).

Definition isWordAt (o : option N) : bool :=
  match o with Some c => isWord c | None => false end.

(** [matchRe ci r prev s k]: [r] matches a prefix of [s] ([prev] is the
    code unit before [s]) and the continuation [k] accepts what is left. *)
Fixpoint matchRe (ci : bool) (r : re) (prev : option N) (s : jstr)
    (k : option N -> jstr -> bool) {struct r} : bool :=
  match r with
  | Chr c =>
      match s with
      | x :: s' => if eqChar ci c x then k (Some x) s' else false
      | [] => false
      end
  | Cls cs =>
      match s with
      | x :: s' => if existsb (fun c => eqChar ci c x) cs then k (Some x) s' else false
      | [] => false
      end
  | Digit =>
      match s with
      | x :: s' => if isDigit x then k (Some x) s' else false
      | [] => false
      end
  | Space =>
      match s with
      | x :: s' => if isSpace x then k (Some x) s' else false
      | [] => false
      end
  | WordB => if xorb (isWordAt prev) (isWordAt (head s)) then k prev s else false
  | Bol => match prev with None => k prev s | Some _ => false end
  | Eol => match s with [] => k prev s | _ :: _ => false end
  | Eps => k prev s
  | Seq r1 r2 => matchRe ci r1 prev s (fun p t => matchRe ci r2 p t k)
  | Alt r1 r2 => if matchRe ci r1 prev s k then true else matchRe ci r2 prev s k
  | Opt r1 => if matchRe ci r1 prev s k then true else k prev s
  | Star r1 =>
      (fix star (fuel : nat) (p : option N) (t : jstr) {struct fuel} : bool :=
         if k p t then true
         else
           match fuel with
           | O => false
           | S fuel' =>
               matchRe ci r1 p t
                 (fun p' t' =>
                    if (List.length t' <? List.length t)%nat then star fuel' p' t' else false)
           end) (List.length s) prev s
  end.

(** Some match starts at the scan position or later. *)
Fixpoint searchRe (ci : bool) (r : re) (prev : option N) (s : jstr) : bool :=
  if matchRe ci r prev s (fun _ _ => true) then true
  else
    match s with
    | [] => false
    | x :: s' => searchRe ci r (Some x) s'
    end.

(** [re.test(s)] *)
Definition test (ci : bool) (r : re) (s : jstr) : bool := searchRe ci r None s.

(** *** Reading a pattern

    The patterns are kept as the source writes them and parsed. *)

Definition seqOf (rs : list re) : re := fold_right Seq Eps rs.

Fixpoint parseClass (s : jstr) : option (list N * jstr) :=
  match s with
  | [] => None
  | c :: s' =>
      if c =? 93 then Some ([], s')
      else match parseClass s' with
           | Some (cs, rest) => Some (c :: cs, rest)
           | None => None
           end
  end.

Fixpoint parseNat (acc : nat) (s : jstr) : nat * jstr :=
  match s with
  | c :: s' => if isDigit c then parseNat (10 * acc + N.to_nat (c - 48)) s' else (acc, s)
  | [] => (acc, s)
  end.

(** A quantifier after the atom [r]. *)
Definition parseQuant (r : re) (s : jstr) : option (re * jstr) :=
  match s with
  | 63 :: s' => Some (Opt r, s')
  | 42 :: s' => Some (Star r, s')
  | 43 :: s' => Some (Plus r, s')
  | 123 :: s' =>
      match parseNat 0 s' with
      | (n, 44 :: 125 :: rest) => Some (AtLeast n r, rest)
      | _ => None
      end
  | _ => Some (r, s)
  end.

(** [parseAlt fuel s]: an alternation, up to a closing parenthesis or the
    end of the pattern. *)
Fixpoint parseAlt (fuel : nat) (s : jstr) : option (re * jstr) :=
  match fuel with
  | O => None
  | S fuel' =>
      let atom (s : jstr) : option (re * jstr) :=
        match s with
        | 40 :: 63 :: 58 :: s' =>
            match parseAlt fuel' s' with
            | Some (r, 41 :: rest) => Some (r, rest)
            | _ => None
            end
        | 91 :: s' =>
            match parseClass s' with
            | Some (cs, rest) => Some (Cls cs, rest)
            | None => None
            end
        | 92 :: c :: s' =>
            Some (if c =? 98 then WordB
                  else if c =? 100 then Digit
                  else if c =? 115 then Space
                  else Chr c, s')
        | 94 :: s' => Some (Bol, s')
        | 36 :: s' => Some (Eol, s')
        | c :: s' => Some (Chr c, s')
        | [] => None
        end in
      let seq :=
        (fix seq (n : nat) (s : jstr) {struct n} : option (list re * jstr) :=
           match n with
           | O => None
           | S n' =>
               match s with
               | [] => Some ([], s)
               | 41 :: _ => Some ([], s)
               | 124 :: _ => Some ([], s)
               | _ =>
                   match atom s with
                   | Some (a, s1) =>
                       match parseQuant a s1 with
                       | Some (q, s2) =>
                           match seq n' s2 with
                           | Some (rs, s3) => Some (q :: rs, s3)
                           | None => None
                           end
                       | None => None
                       end
                   | None => None
                   end
               end
           end) in
      match seq (S (List.length s)) s with
      | Some (rs, 124 :: rest) =>
          match parseAlt fuel' rest with
          | Some (r2, rest') => Some (Alt (seqOf rs) r2, rest')
          | None => None
          end
      | Some (rs, rest) => Some (seqOf rs, rest)
      | None => None
      end
  end.

(** The pattern [src]; a pattern outside the fragment reads as one that
    never matches (no pattern of the repository does). *)
Definition pattern (src : jstr) : re :=
  match parseAlt (S (List.length src)) src with
  | Some (r, []) => r
  | _ => Cls []
  end.

Definition wellFormed (src : jstr) : bool :=
  match parseAlt (S (List.length src)) src with
  | Some (_, []) => true
  | _ => false
  end.

End Regex.

(** ** The refusal classifier ([utils/refusal-detection.ts]) *)

Module Refusal.
Import Text Regex.

(** [normalizeQuotes]: curly and angle quotes become ['] and the double
    ones become the ASCII double quote. *)
Definition normalizeChar (c : N) : N :=
  if (c =? 8216) || (c =? 8217) || (c =? 8218) || (c =? 8249) || (c =? 8250) then 39
  else if (c =? 8220) || (c =? 8221) || (c =? 8222) || (c =? 171) || (c =? 187) then 34
  else c.

Definition normalizeQuotes (text : jstr) : jstr := map normalizeChar text.

(** [REFUSAL_PATTERNS], in the order of the source; all carry the [i] flag. *)
Definition REFUSAL_SOURCES : list string :=
  [ "^I'?m sorry\b";
    "^I apologize\b";
    "\bI can'?t (?:produce|generate|provide|write|create) a full\b";
    "\bI cannot (?:produce|generate|provide|write|create) a full\b";
    "\bI'?m unable to (?:produce|generate|provide|write|create)\b";
    "\bI can'?t (?:produce|generate|provide|write|create) (?:a |the )?(?:complete|entire)\b";
    "\bI cannot (?:produce|generate|provide|write|create) (?:a |the )?(?:complete|entire)\b";
    "\bin (?:a single|one) response\b";
    "\bdue to (?:output|token|length) limits?\b";
    "\bI \*?can\*? (?:continue|help|provide|begin|start)\b";
    "\b(?:which option|tell me (?:one of|which|how))\b";
    "\bBegin (?:Scene|Segment|Part) \d";
    "\bmultiple (?:parts|segments|messages)\b";
    "\bHowever[,:]\s*I \*?can\*?\b";
    "\bIf you'?d like\b";
    "\b(?:summarizing|outlining|drafting a shorter)\b";
    "\bI can (?:also )?help (?:in other ways|refine|develop)\b";
    "\bI can'?t produce a full[- ](?:length )?chapter\b";
    "\bI can'?t fulfill that request\b";
    "\bI cannot fulfill that request\b";
    "\b(?:offering|provide) a shorter (?:scene|excerpt|version)\b";
    "\bI cannot produce the output\b";
    "\bas this request is framed\b";
    "\bI can write a shorter version\b";
    "\bwe can adapt the constraints\b";
    "\bwhat I'?m allowed to generate\b";
    "\bI can produce it in multiple\b";
    "\bI cannot follow\b";
    "\bI can'?t comply\b";
    "\bI'?m required to (?:warn|flag|note)\b";
    "\b(?:choose|select) (?:one|which) (?:of|option)";
    "\bsafety (?:rules|requirements|guidelines|constraints)\b";
    "\boverride (?:those|these|my|safety) (?:requirements|rules|constraints)\b";
    "\bTo continue,? choose\b";
    "\bI can still help\b";
    "\bI \*?can\*? still (?:help|write|produce)\b";
    "\bviolate safety\b";
    "\bexceeds? safe output\b";
    "\bprohibition on (?:acknowledging|offering)\b";
    "\bdirect conflict with\b";
    "\b(?:all are safe|safely sized)\b" ]%string.

Definition REFUSAL_PATTERNS : list re :=
  Eval vm_compute in map (fun src => pattern (js src)) REFUSAL_SOURCES.

(** [REFUSAL_PATTERNS.filter(p => p.test(s)).length] *)
Definition matchCount (s : jstr) : nat :=
  List.length (List.filter (fun p => test true p s) REFUSAL_PATTERNS).

Record RefusalResult : Type := mkRefusalResult {
  isRefusal : bool;
  cleanedText : jstr
}.

Definition PARA_SEP : jstr := [LF; LF].

Definition numberedRe : re := Eval vm_compute in pattern (js "^\d+\.\s").
Definition metaRe : re :=
  Eval vm_compute in
    pattern (js "^(?:Just tell me|Which option|If you'?d like|However|Or,? if|I \*?can\*?)").
Definition markdownRe : re :=
  Eval vm_compute in pattern (js "^\*\*(?:Option|Multi|Shorter|Condensed)").
Definition ruleRe : re := Eval vm_compute in pattern (js "^---+$").

(** The test of the loop of [stripRefusalPreamble]: the paragraph is
    none of the skipped kinds, so the story starts with it. *)
Definition looksLikeContent (paragraph : jstr) : bool :=
  let para := normalizeQuotes (trim paragraph) in
  if isEmpty para then false
  else if test false numberedRe para then false
  else if test true metaRe para then false
  else if test true markdownRe para then false
  else if test false ruleRe para then false
  else if (1 <=? matchCount para)%nat then false
  else true.

(** The index of the first paragraph that looks like content, from [i]. *)
Fixpoint findStoryStart (i : nat) (paragraphs : list jstr) : option nat :=
  match paragraphs with
  | [] => None
  | p :: ps => if looksLikeContent p then Some i else findStoryStart (S i) ps
  end.

Definition stripRefusalPreamble (text : jstr) : jstr :=
  let paragraphs := splitPara text in
  match findStoryStart 0 paragraphs with
  | Some (S i) => trim (join PARA_SEP (skipn (S i) paragraphs))
  | _ => text
  end.

Definition detectRefusal (text : jstr) : RefusalResult :=
  let trimmed := trim text in
  if isEmpty trimmed then mkRefusalResult false trimmed
  else
    let normalized := normalizeQuotes trimmed in
    let head := sliceTo 500 normalized in
    if (matchCount head <? 2)%nat then mkRefusalResult false trimmed
    else mkRefusalResult true (stripRefusalPreamble trimmed).

(** The bullet of [isOptionList]: a bullet sign (U+2022), [*], [-] or a
    number with a dot, then white space. *)
Definition bulletRe : re :=
  Eval vm_compute in pattern (js "^(?:" ++ [8226] ++ js "|\*|-|\d+\.)\s").
Definition optionWordsRe1 : re :=
  Eval vm_compute in
    pattern (js "\b(?:shorter|condensed|outline|serialized|multi-message|rewrite|focused)\b").
Definition optionWordsRe2 : re :=
  Eval vm_compute in pattern (js "\b(?:option|choose|version|alternative)\b").

(** The body of the loop of [stripRefusalContent]: is [para] pushed to
    [cleaned]? *)
Definition keepParagraph (para : jstr) : bool :=
  let trimmed := trim para in
  if isEmpty trimmed then true
  else
    let normalized := normalizeQuotes trimmed in
    let isOptionList :=
      test false bulletRe trimmed &&
      (test true optionWordsRe1 normalized || test true optionWordsRe2 normalized) in
    if (2 <=? matchCount normalized)%nat || isOptionList then false else true.

Definition stripRefusalContent (text : jstr) : jstr :=
  if isEmpty (trim text) then text
  else trim (join PARA_SEP (List.filter keepParagraph (splitPara text))).

End Refusal.

(** ** The token budget assembler ([context/token-budget.ts]) *)

Module Budget.
Import Text.

(** [ContextItem]; a missing [required] reads as [false].  Priorities and
    budgets are integers here. *)
Record ContextItem : Type := mkItem {
  key : string;
  content : jstr;
  priority : Z;
  required : bool
}.

Record AssembledContext : Type := mkContext {
  text : jstr;
  totalTokens : Z;
  includedItems : list string;
  droppedItems : list string
}.

(** [Math.ceil(text.length / 4)] *)
Definition estimateTokens (t : jstr) : Z :=
  Z.of_nat ((List.length t + 3) / 4).

(** [[...items].sort((a, b) => b.priority - a.priority)]: the sort of an
    array is stable, so a later item goes before an earlier one only when
    its priority is strictly higher.  [x] stood before all of [sorted]. *)
Fixpoint insertByPriority (x : ContextItem) (sorted : list ContextItem) : list ContextItem :=
  match sorted with
  | [] => [x]
  | y :: rest =>
      if (priority x <? priority y)%Z then y :: insertByPriority x rest
      else x :: sorted
  end.

Definition sortByPriority (items : list ContextItem) : list ContextItem :=
  fold_right insertByPriority [] items.

(** The accumulators of [buildContext]: [parts], [included], [dropped]
    and [totalTokens]; the arrays grow at their end. *)
Record Acc : Type := mkAcc {
  parts : list jstr;
  included : list string;
  dropped : list string;
  total : Z
}.

(** First pass: the required items, whatever the budget. *)
Definition passRequired (acc : Acc) (item : ContextItem) : Acc :=
  if required item then
    mkAcc (parts acc ++ [content item]) (included acc ++ [key item]) (dropped acc)
          (total acc + estimateTokens (content item))
  else acc.

(** Second pass: an optional item is taken whole when it fits, and
    dropped whole otherwise. *)
Definition passOptional (budget : Z) (acc : Acc) (item : ContextItem) : Acc :=
  if required item then acc
  else
    let tokens := estimateTokens (content item) in
    if (total acc + tokens <=? budget)%Z then
      mkAcc (parts acc ++ [content item]) (included acc ++ [key item]) (dropped acc)
            (total acc + tokens)
    else mkAcc (parts acc) (included acc) (dropped acc ++ [key item]) (total acc).

Definition buildContext (items : list ContextItem) (budget : Z) : AssembledContext :=
  let sorted := sortByPriority items in
  let acc1 := fold_left passRequired sorted (mkAcc [] [] [] 0%Z) in
  let acc2 := fold_left (passOptional budget) sorted acc1 in
  mkContext (join [LF; LF] (parts acc2)) (total acc2) (included acc2) (dropped acc2).

End Budget.

(** ** Outline edits ([BookSession.updateOutline])

    The chapters of an outline are JavaScript objects.  [updateOutline]
    copies the array of chapters, not the objects, and it writes to the
    objects through the array; an object that stands twice in the array is
    one object.  So the objects live in a store, and the array holds
    references into it. *)

Module Outline.
Import Text.

Record ChapterPlan : Type := mkPlan {
  number : Z;
  title : jstr;
  summary : jstr;
  targetWords : Z;
  keyEvents : list jstr;
  characters : list jstr
}.

(** A reference is an index of the store; a new object goes at its end. *)
Abbreviation ref := nat.
Abbreviation store := (list ChapterPlan).

Definition setNumber (n : Z) (c : ChapterPlan) : ChapterPlan :=
  mkPlan n (title c) (summary c) (targetWords c) (keyEvents c) (characters c).
Definition setTitle (t : jstr) (c : ChapterPlan) : ChapterPlan :=
  mkPlan (number c) t (summary c) (targetWords c) (keyEvents c) (characters c).
Definition setSummary (s : jstr) (c : ChapterPlan) : ChapterPlan :=
  mkPlan (number c) (title c) s (targetWords c) (keyEvents c) (characters c).
Definition setTargetWords (w : Z) (c : ChapterPlan) : ChapterPlan :=
  mkPlan (number c) (title c) (summary c) w (keyEvents c) (characters c).
Definition setKeyEvents (e : list jstr) (c : ChapterPlan) : ChapterPlan :=
  mkPlan (number c) (title c) (summary c) (targetWords c) e (characters c).
Definition setCharacters (e : list jstr) (c : ChapterPlan) : ChapterPlan :=
  mkPlan (number c) (title c) (summary c) (targetWords c) (keyEvents c) e.

(** [ch.number === n] for the object behind [r]. *)
Definition hasNumber (h : store) (n : Z) (r : ref) : bool :=
  match h !! r with
  | Some c => (number c =? n)%Z
  | None => false
  end.

(** [chapters.find(c => c.number === n)] *)
Definition findChapter (h : store) (chapters : list ref) (n : Z) : option ref :=
  List.find (hasNumber h n) chapters.

(** [chapters.findIndex(c => c.number === n)], [None] for [-1]. *)
Fixpoint findIndex (h : store) (chapters : list ref) (n : Z) : option nat :=
  match chapters with
  | [] => None
  | r :: rest =>
      if hasNumber h n r then Some O
      else match findIndex h rest n with
           | Some i => Some (S i)
           | None => None
           end
  end.

Record ChapterUpdate : Type := mkUpdate {
  updNumber : Z;
  updTitle : option jstr;
  updSummary : option jstr;
  updTargetWords : option Z;
  updKeyEvents : option (list jstr)
}.

Record ChapterAdd : Type := mkAdd {
  afterChapter : Z;
  addTitle : jstr;
  addSummary : jstr;
  addTargetWords : option Z
}.

Record ChapterMerge : Type := mkMerge {
  mergeFirst : Z;
  mergeSecond : Z;
  newTitle : jstr
}.

(** The chapter part of [OutlineChanges]; [None] is an absent field. *)
Record OutlineChanges : Type := mkChanges {
  removeChapters : option (list Z);
  updateChapter : option (list ChapterUpdate);
  addChapter : option (list ChapterAdd);
  mergeChapters : option (list ChapterMerge);
  reorderChapters : option (list Z)
}.

Definition noChanges : OutlineChanges := mkChanges None None None None None.

Definition assign {A : Type} (o : option A) (set : A -> ChapterPlan -> ChapterPlan)
    (c : ChapterPlan) : ChapterPlan :=
  match o with
  | Some v => set v c
  | None => c
  end.

(** Remove chapters. *)
Definition applyRemove (h : store) (chapters : list ref) (nums : list Z) : list ref :=
  List.filter (fun r => negb (existsb (fun n => hasNumber h n r) nums)) chapters.

(** Update existing chapters. *)
Definition applyUpdate (chapters : list ref) (h : store) (u : ChapterUpdate) : store :=
  match findChapter h chapters (updNumber u) with
  | Some r =>
      alter (fun c => assign (updKeyEvents u) setKeyEvents
                        (assign (updTargetWords u) setTargetWords
                           (assign (updSummary u) setSummary
                              (assign (updTitle u) setTitle c)))) r h
  | None => h
  end.

(** [chapters.splice(i, 0, r)] *)
Definition spliceIn (i : nat) (r : ref) (chapters : list ref) : list ref :=
  firstn i chapters ++ r :: skipn i chapters.

(** Add new chapters: the new object has number 0 until the renumbering. *)
Definition applyAdd (defaultWords : Z) (st : store * list ref) (a : ChapterAdd)
    : store * list ref :=
  let '(h, chapters) := st in
  let newChapter :=
    mkPlan 0 (addTitle a) (addSummary a)
      (match addTargetWords a with Some w => w | None => defaultWords end) [] [] in
  let r := List.length h in
  let h' := h ++ [newChapter] in
  match findIndex h chapters (afterChapter a) with
  | Some i => (h', spliceIn (S i) r chapters)
  | None => (h', chapters ++ [r])
  end.

(** [[...new Set(l)]]: the first occurrence of each element, in order. *)
Fixpoint dedupe (seen l : list jstr) : list jstr :=
  match l with
  | [] => []
  | x :: rest =>
      if existsb (fun y => bool_decide (x = y)) seen
      then dedupe seen rest
      else x :: dedupe (x :: seen) rest
  end.

Definition getOr (h : store) (r : ref) (d : ChapterPlan) : ChapterPlan :=
  match h !! r with Some c => c | None => d end.

(** Merge chapters: each assignment reads the objects as they are then. *)
Definition applyMerge (st : store * list ref) (m : ChapterMerge) : store * list ref :=
  let '(h, chapters) := st in
  match findChapter h chapters (mergeFirst m), findChapter h chapters (mergeSecond m) with
  | Some r1, Some r2 =>
      let h1 := alter (setTitle (newTitle m)) r1 h in
      let h2 := alter (fun c => setSummary (summary c ++ [32] ++ summary (getOr h1 r2 c)) c) r1 h1 in
      let h3 := alter (fun c => setTargetWords (targetWords c + targetWords (getOr h2 r2 c)) c) r1 h2 in
      let h4 := alter (fun c => setKeyEvents (keyEvents c ++ keyEvents (getOr h3 r2 c)) c) r1 h3 in
      let h5 := alter (fun c => setCharacters
                                  (dedupe [] (characters c ++ characters (getOr h4 r2 c))) c) r1 h4 in
      (h5, List.filter (fun r => negb (hasNumber h5 (mergeSecond m) r)) chapters)
  | _, _ => st
  end.

(** Reorder chapters: the chapters found, in the order asked for. *)
Fixpoint applyReorder (h : store) (chapters : list ref) (nums : list Z) : list ref :=
  match nums with
  | [] => []
  | n :: rest =>
      match findChapter h chapters n with
      | Some r => r :: applyReorder h chapters rest
      | None => applyReorder h chapters rest
      end
  end.

(** [chapters.forEach((ch, i) => { ch.number = i + 1; })], from index [i]. *)
Fixpoint renumberFrom (i : nat) (chapters : list ref) (h : store) : store :=
  match chapters with
  | [] => h
  | r :: rest => renumberFrom (S i) rest (alter (setNumber (Z.of_nat i + 1)) r h)
  end.

Definition renumber (chapters : list ref) (h : store) : store :=
  renumberFrom 0 chapters h.

(** The chapter edits of [updateOutline], in its order: remove, update,
    add, merge, reorder, then renumber.  [defaultWords] is the target of
    an added chapter that names none. *)
Definition updateOutline (defaultWords : Z) (changes : OutlineChanges)
    (h : store) (chapters : list ref) : store * list ref :=
  let chapters1 :=
    match removeChapters changes with
    | Some nums => applyRemove h chapters nums
    | None => chapters
    end in
  let h2 :=
    match updateChapter changes with
    | Some us => fold_left (applyUpdate chapters1) us h
    | None => h
    end in
  let '(h3, chapters3) :=
    match addChapter changes with
    | Some adds => fold_left (applyAdd defaultWords) adds (h2, chapters1)
    | None => (h2, chapters1)
    end in
  let '(h4, chapters4) :=
    match mergeChapters changes with
    | Some ms => fold_left applyMerge ms (h3, chapters3)
    | None => (h3, chapters3)
    end in
  let chapters5 :=
    match reorderChapters changes with
    | Some nums => applyReorder h4 chapters4 nums
    | None => chapters4
    end in
  (renumber chapters5 h4, chapters5).

(** The outline as its reader sees it: the objects behind the array. *)
Definition view (h : store) (chapters : list ref) : list ChapterPlan :=
  omap (fun r => h !! r) chapters.

Definition chapterNumbers (h : store) (chapters : list ref) : list Z :=
  map number (view h chapters).

(** An outline as [generateObject] returns it: fresh objects, one per
    chapter. *)
Definition freshOutline (plans : list ChapterPlan) : store * list ref :=
  (plans, seq 0 (List.length plans)).

End Outline.

(** ** Data of the pipeline ([types.ts], [schemas/content.ts]) *)

Module Data.
Import Text.
Export Outline(ChapterPlan, mkPlan, number, title, summary, targetWords, keyEvents, characters).

Inductive ChapterStatus : Type := pending | generating | approved | failed.

Record ChapterContent : Type := mkChapter {
  chNumber : Z;
  chTitle : jstr;
  chContent : jstr;
  chWordCount : nat;
  chSummary : jstr;
  chEditCount : nat;
  chApproved : bool
}.

Record EditScores : Type := mkScores {
  prose : Z; plot : Z; character : Z; pacing : Z; dialogue : Z; overall : Z
}.

Record EditResult : Type := mkEdit {
  scores : EditScores;
  editApproved : bool;
  rewriteInstructions : jstr
}.

(** What the pipeline reads of a [DetailedChapterPlan]; its scenes, point
    of view and tone only go into prompts. *)
Record DetailedChapterPlan : Type := mkDetailed {
  chapterNumber : Z;
  planTitle : jstr;
  planTargetWords : Z
}.

Record EditCycleRecord : Type := mkCycle {
  cycle : nat;
  cycleScores : EditScores;
  cycleApproved : bool
}.

(** The roles of the provider registry. *)
Inductive ModelRole : Type :=
| roleOutline | rolePlanning | roleWriting | roleEditing | roleContinuity.

(** What a call can throw. *)
Inductive Error : Type :=
| OutlineNotApproved      (* 'Outline must be approved before generating chapters. Call approveOutline() first.' *)
| OutlineNotApprovedFirst (* 'Outline must be approved first.' *)
| NoPendingChapters       (* 'No pending chapters to generate.' *)
| ChapterNotFound (n : Z) (* 'Chapter n not found in outline.' *)
| ChapterNotGenerated (n : Z) (* 'Chapter n has not been generated yet.' *)
| NoOutline               (* 'No outline to approve. Call generateOutline() first.' *)
| NullOutline             (* a TypeError: the outline is null *)
| InvalidObject           (* the reply does not fit the schema of the call *)
| ProviderError (message : jstr) (* an error of the provider or the network *)
| RegistryError (role : ModelRole) (* [registry.getModel(role)] throws: no model for the role, or no provider for it *)
| GraphInterrupt.         (* what [interrupt] throws to pause the graph *)

(** The reply of the generation collaborator to one call: [generateText]
    gives a text, [generateObject] an object of the schema asked for, and
    either may throw. *)
Inductive Reply : Type :=
| TextReply (text : jstr)
| PlanReply (plan : DetailedChapterPlan)
| EditReply (edit : EditResult)
| OutlineReply (chapters : list ChapterPlan)
| Failure (message : jstr).

(** Progress events, as the listeners receive them. *)
Inductive Event : Type :=
| outline_generated
| outline_approved
| chapter_started (chapter : Z)
| chapter_plan_generated (chapter : Z)
| chapter_written (chapter : Z) (wordCount : nat)
| expand_attempt (chapter : Z) (attempt : nat) (currentWords : nat)
| refusal_detected (chapter : Z) (attempt : nat)
| edit_cycle (chapter : Z) (cycleNumber : nat) (isApproved : bool)
| word_count_warning (chapter : Z) (actual : nat)
| chapter_complete (chapter : Z) (wordCount : nat)
| chapter_failed (chapter : Z) (error : Error).

End Data.

(** ** Effects: state, exceptions and the generation collaborator *)

Module Effects.
Import Text Data.

Inductive Result (A : Type) : Type :=
| Ok (a : A)
| Thrown (e : Error).
Arguments Ok {A} a.
Arguments Thrown {A} e.

(** A computation over a state [S] that returns or throws; the state
    keeps what was written before a throw. *)
Definition M (S A : Type) : Type := S -> Result A * S.

Definition ret {S A : Type} (a : A) : M S A := fun s => (Ok a, s).

Definition bind {S A B : Type} (m : M S A) (k : A -> M S B) : M S B :=
  fun s =>
    match m s with
    | (Ok a, s') => k a s'
    | (Thrown e, s') => (Thrown e, s')
    end.

Definition throw {S A : Type} (e : Error) : M S A := fun s => (Thrown e, s).

(** [try { m } catch (e) { h e }] *)
Definition tryCatch {S A : Type} (m : M S A) (h : Error -> M S A) : M S A :=
  fun s =>
    match m s with
    | (Ok a, s') => (Ok a, s')
    | (Thrown e, s') => h e s'
    end.

Definition gets {S A : Type} (f : S -> A) : M S A := fun s => (Ok (f s), s).

Definition modify {S : Type} (f : S -> S) : M S unit := fun s => (Ok tt, f s).

(** A result computed without the state. *)
Definition fromResult {S A : Type} (r : Result A) : M S A := fun s => (r, s).

Notation "'let*' x := m 'in' k" := (bind m (fun x => k))
  (at level 10, x pattern, m at level 100, k at level 200).
Notation "'do' m 'then' k" := (bind m (fun _ => k))
  (at level 10, m at level 100, k at level 200).

(** A state that counts the calls made to the collaborator. *)
Class Calls (S : Type) : Type := {
  callsOf : S -> nat;
  tick : S -> S
}.

Section Collaborator.
Context {S : Type} `{Calls S}.

(** The oracle: the reply to the call of each index. *)
Variable llm : nat -> Reply.

(** [await generateText({...})]: the text of the reply. *)
Definition generateText : M S jstr :=
  fun s =>
    match llm (callsOf s) with
    | TextReply t => (Ok t, tick s)
    | Failure m => (Thrown (ProviderError m), tick s)
    | _ => (Thrown InvalidObject, tick s)
    end.

(** [await generateObject({schema: DetailedChapterPlanSchema, ...})] *)
Definition generatePlan : M S DetailedChapterPlan :=
  fun s =>
    match llm (callsOf s) with
    | PlanReply p => (Ok p, tick s)
    | Failure m => (Thrown (ProviderError m), tick s)
    | _ => (Thrown InvalidObject, tick s)
    end.

(** [await generateObject({schema: EditResultSchema, ...})] *)
Definition generateEdit : M S EditResult :=
  fun s =>
    match llm (callsOf s) with
    | EditReply e => (Ok e, tick s)
    | Failure m => (Thrown (ProviderError m), tick s)
    | _ => (Thrown InvalidObject, tick s)
    end.

(** [await generateObject({schema: OutlineSchema, ...})] *)
Definition generateOutlineObject : M S (list ChapterPlan) :=
  fun s =>
    match llm (callsOf s) with
    | OutlineReply o => (Ok o, tick s)
    | Failure m => (Thrown (ProviderError m), tick s)
    | _ => (Thrown InvalidObject, tick s)
    end.
End Collaborator.

End Effects.

(** ** The session controller ([book-session.ts]) *)

Module Session.
Import Text Refusal Data Effects.

Inductive Phase : Type := idle | outlinePhase | writing | complete.

(** [SessionState], with the events emitted so far and the number of
    generation calls made so far. *)
Record State : Type := mkState {
  outline : option (list ChapterPlan);
  outlineApproved : bool;
  chapters : gmap Z ChapterContent;
  chapterStatuses : gmap Z ChapterStatus;
  rollingSummary : jstr;
  previousChapterEnding : jstr;
  costs : list string;
  phase : Phase;
  events : list Event;
  calls : nat
}.

(** What the session reads of its configuration.  [minAcceptable t] is
    [Math.floor(t * (1 - tolerance))], a floating point computation whose
    value no property below depends on. *)
Record Config : Type := mkConfig {
  maxEditCycles : option nat;
  hasContinuityModel : bool;
  minAcceptable : Z -> nat;
  minWords : option nat;
  wordOverride : option (Z -> Z)
}.

Definition setOutline (o : option (list ChapterPlan)) (s : State) : State :=
  mkState o (outlineApproved s) (chapters s) (chapterStatuses s) (rollingSummary s)
    (previousChapterEnding s) (costs s) (phase s) (events s) (calls s).
Definition setOutlineApproved (b : bool) (s : State) : State :=
  mkState (outline s) b (chapters s) (chapterStatuses s) (rollingSummary s)
    (previousChapterEnding s) (costs s) (phase s) (events s) (calls s).
Definition setChapters (c : gmap Z ChapterContent) (s : State) : State :=
  mkState (outline s) (outlineApproved s) c (chapterStatuses s) (rollingSummary s)
    (previousChapterEnding s) (costs s) (phase s) (events s) (calls s).
Definition setStatuses (m : gmap Z ChapterStatus) (s : State) : State :=
  mkState (outline s) (outlineApproved s) (chapters s) m (rollingSummary s)
    (previousChapterEnding s) (costs s) (phase s) (events s) (calls s).
Definition setRollingSummary (t : jstr) (s : State) : State :=
  mkState (outline s) (outlineApproved s) (chapters s) (chapterStatuses s) t
    (previousChapterEnding s) (costs s) (phase s) (events s) (calls s).
Definition setPreviousChapterEnding (t : jstr) (s : State) : State :=
  mkState (outline s) (outlineApproved s) (chapters s) (chapterStatuses s) (rollingSummary s)
    t (costs s) (phase s) (events s) (calls s).
Definition setCosts (c : list string) (s : State) : State :=
  mkState (outline s) (outlineApproved s) (chapters s) (chapterStatuses s) (rollingSummary s)
    (previousChapterEnding s) c (phase s) (events s) (calls s).
Definition setPhase (p : Phase) (s : State) : State :=
  mkState (outline s) (outlineApproved s) (chapters s) (chapterStatuses s) (rollingSummary s)
    (previousChapterEnding s) (costs s) p (events s) (calls s).
Definition setEvents (e : list Event) (s : State) : State :=
  mkState (outline s) (outlineApproved s) (chapters s) (chapterStatuses s) (rollingSummary s)
    (previousChapterEnding s) (costs s) (phase s) e (calls s).
Definition setCalls (n : nat) (s : State) : State :=
  mkState (outline s) (outlineApproved s) (chapters s) (chapterStatuses s) (rollingSummary s)
    (previousChapterEnding s) (costs s) (phase s) (events s) n.

#[export] Instance stateCalls : Calls State :=
  {| callsOf := calls; tick := fun s => setCalls (S (calls s)) s |}.

(** The state of [new BookSession(config)]. *)
Definition initialState : State :=
  mkState None false ∅ ∅ [] [] [] idle [] 0.

(** [this.emit(event)]: the listeners are handed the event; they are
    taken not to throw. *)
Definition emit (e : Event) : M State unit :=
  modify (fun s => setEvents (events s ++ [e]) s).

(** [this.addCostEntry(costs, step, modelId, usage)] and [this.addCost]:
    the entry is kept by its step. *)
Definition addCostEntry (step : string) : M State unit :=
  modify (fun s => setCosts (costs s ++ [step]) s).

Definition setStatus (n : Z) (st : ChapterStatus) : M State unit :=
  modify (fun s => setStatuses (<[n := st]> (chapterStatuses s)) s).

(** [this.state.chapterStatuses.get(n) ?? 'pending'] reads [None] as pending. *)
Definition isStatus (o : option ChapterStatus) (st : ChapterStatus) : bool :=
  match o, st with
  | Some pending, pending | Some generating, generating
  | Some approved, approved | Some failed, failed => true
  | _, _ => false
  end.

Definition findPlan (chs : list ChapterPlan) (n : Z) : option ChapterPlan :=
  List.find (fun c => (number c =? n)%Z) chs.

Section WithCollaborator.
Variable llm : nat -> Reply.
Variable cfg : Config.

Definition applyWordConfig (chs : list ChapterPlan) : list ChapterPlan :=
  match wordOverride cfg with
  | Some f =>
      map (fun ch => mkPlan (number ch) (title ch) (summary ch) (f (number ch))
                       (keyEvents ch) (characters ch)) chs
  | None => chs
  end.

Definition initStatuses (chs : list ChapterPlan) (m : gmap Z ChapterStatus)
    : gmap Z ChapterStatus :=
  fold_left (fun m ch => <[number ch := pending]> m) chs m.

Definition generateOutline : M State (list ChapterPlan) :=
  do modify (setPhase outlinePhase) then
  let* o := generateOutlineObject llm in
  let o := applyWordConfig o in
  do modify (setOutline (Some o)) then
  do modify (setOutlineApproved false) then
  do addCostEntry "outline" then
  do emit outline_generated then
  do modify (fun s => setStatuses (initStatuses o (chapterStatuses s)) s) then
  ret o.

Definition regenerateOutline : M State (list ChapterPlan) :=
  do modify (setOutlineApproved false) then
  let* o := generateOutlineObject llm in
  let o := applyWordConfig o in
  do modify (setOutline (Some o)) then
  do addCostEntry "outline_regenerate" then
  do emit outline_generated then
  do modify (fun s => setStatuses (initStatuses o ∅) s) then
  ret o.

Definition approveOutline : M State unit :=
  let* o := gets outline in
  match o with
  | None => throw NoOutline
  | Some _ =>
      do modify (setOutlineApproved true) then
      do modify (setPhase writing) then
      emit outline_approved
  end.

(** [getNextPendingChapter] *)
Definition getNextPendingChapter (s : State) : option Z :=
  match outline s with
  | None => None
  | Some chs =>
      option_map number
        (List.find (fun ch =>
                      let status := chapterStatuses s !! number ch in
                      isStatus status pending || isStatus status failed) chs)
  end.

Definition generateDetailedPlan (chapterNumber : Z) : M State DetailedChapterPlan :=
  let* detailedPlan := generatePlan llm in
  do addCostEntry "planning" then
  ret detailedPlan.

(** The loop of [writeChapter]: [remaining] attempts are left, [attempt]
    is the index of the next one. *)
Fixpoint writeAttempts (plan : DetailedChapterPlan) (remaining attempt : nat)
    (bestText : jstr) (bestWordCount : nat) : M State jstr :=
  match remaining with
  | O => ret (if (100 <=? bestWordCount)%nat then bestText else [])
  | S remaining' =>
      let* text := generateText llm in
      do addCostEntry (if (attempt =? 0)%nat then "writing" else "writing_refusal_retry") then
      let refusal := detectRefusal text in
      if negb (isRefusal refusal) then ret text
      else
        do emit (refusal_detected (chapterNumber plan) (attempt + 1)) then
        let cleanedRefusal := detectRefusal (cleanedText refusal) in
        let cleanedWordCount := countWords (cleanedText refusal) in
        if negb (isRefusal cleanedRefusal) && (bestWordCount <? cleanedWordCount)%nat
        then writeAttempts plan remaining' (S attempt) (cleanedText refusal) cleanedWordCount
        else writeAttempts plan remaining' (S attempt) bestText bestWordCount
  end.

(** [maxRefusalRetries = 3]: attempts 0 to 3. *)
Definition writeChapter (plan : DetailedChapterPlan) : M State jstr :=
  writeAttempts plan 4 0 [] 0.

Definition rewriteFromFeedback (plan : DetailedChapterPlan) (feedback : jstr)
    (existingDraft : option jstr) : M State jstr :=
  let* text := generateText llm in
  do addCostEntry "writing_rewrite" then
  let refusal := detectRefusal text in
  let finalText := if isRefusal refusal then cleanedText refusal else text in
  match existingDraft with
  | Some draft =>
      (* [existingDraft && countWords(finalText) < countWords(existingDraft) * 0.5] *)
      if negb (isEmpty draft) && (2 * countWords finalText <? countWords draft)%nat
      then ret draft
      else ret finalText
  | None => ret finalText
  end.

Definition preambleRe : Regex.re :=
  Eval vm_compute in
    Regex.pattern
      (js "^(?:Below is|Here is|Here's|The following is|I've expanded|This is the|The expanded)").
Definition dashesRe : Regex.re := Eval vm_compute in Regex.pattern (js "^-{3,}$").

(** The loop of [stripExpandPreamble] over the first lines ([budget] of
    them are left to look at): the number of leading lines to skip. *)
Fixpoint preambleLines (budget : nat) (i : nat) (startIdx : nat) (lines : list jstr) : nat :=
  match budget, lines with
  | S budget', l :: rest =>
      let line := trim l in
      if isEmpty line then preambleLines budget' (S i) (S i) rest
      else if Regex.test true preambleRe line then preambleLines budget' (S i) (S i) rest
      else if Regex.test false dashesRe line then preambleLines budget' (S i) (S i) rest
      else startIdx
  | _, _ => startIdx
  end.

Definition stripExpandPreamble (text : jstr) : jstr :=
  let lines := splitLines text in
  match preambleLines 5 0 0 lines with
  | O => text
  | startIdx => trim (join [LF] (skipn startIdx lines))
  end.

(** What one pass of the loop of [expandIfNeeded] decides from the text
    of the reply. *)
Inductive Verdict : Type :=
| Adopt (text : jstr) (wordCount : nat)  (* take the text and go on *)
| Skip                                   (* keep the current text and go on *)
| Stop.                                  (* keep the current text and leave the loop *)

Definition expandVerdict (wordCount : nat) (rawText : jstr) : Verdict :=
  let refusal := detectRefusal rawText in
  if isRefusal refusal then
    let cleanedCheck := detectRefusal (cleanedText refusal) in
    if isRefusal cleanedCheck || (countWords (cleanedText refusal) <? 100)%nat then Skip
    else
      let cleanedWordCount := countWords (cleanedText refusal) in
      if (wordCount <? cleanedWordCount)%nat then Adopt (cleanedText refusal) cleanedWordCount
      else Skip
  else
    let stripped := stripExpandPreamble rawText in
    let expandedWordCount := countWords stripped in
    if (wordCount <? expandedWordCount)%nat then Adopt stripped expandedWordCount
    else Stop.

(** The loop of [expandIfNeeded]: [remaining] is [maxAttempts - attempts]. *)
Fixpoint expandLoop (chapterNumber : Z) (targetWords : Z) (hasPlan : bool)
    (remaining attempts : nat) (current : jstr) (wordCount : nat) : M State jstr :=
  match remaining with
  | O => ret current
  | S remaining' =>
      if (wordCount <? minAcceptable cfg targetWords)%nat then
        let attempts := S attempts in
        do emit (expand_attempt chapterNumber attempts wordCount) then
        let* rawText := generateText llm in
        do addCostEntry (if (wordCount <? 50)%nat && hasPlan
                         then "writing_fresh_generate" else "writing_expand") then
        match expandVerdict wordCount rawText with
        | Adopt text count =>
            expandLoop chapterNumber targetWords hasPlan remaining' attempts text count
        | Skip =>
            expandLoop chapterNumber targetWords hasPlan remaining' attempts current wordCount
        | Stop => ret current
        end
      else ret current
  end.

Definition expandIfNeeded (chapterNumber : Z) (content : jstr) (targetWords : Z)
    (maxAttempts : nat) (hasPlan : bool) : M State jstr :=
  expandLoop chapterNumber targetWords hasPlan maxAttempts 0 content (countWords content).

Definition editChapter (draft : jstr) : M State EditResult :=
  let* editResult := generateEdit llm in
  do addCostEntry "editing" then
  ret editResult.

Definition generateChapterSummary (content : jstr) : M State jstr :=
  tryCatch
    (let* text := generateText llm in
     do addCostEntry "summary" then
     ret text)
    (fun _ => ret (sliceTo 500 content ++ js "...")).

Definition maxSummaryWords : nat := 2000.

Definition updateContinuity (chapter : ChapterContent) : M State unit :=
  if negb (hasContinuityModel cfg) then ret tt
  else
    tryCatch
      (let* newSummary := generateText llm in
       do (if (maxSummaryWords <? countWords newSummary)%nat then
             tryCatch
               (let* condensed := generateText llm in
                do modify (setRollingSummary condensed) then
                addCostEntry "continuity_condense")
               (fun _ => modify (setRollingSummary newSummary))
           else modify (setRollingSummary newSummary)) then
       do modify (setPreviousChapterEnding (sliceLast 2000 (chContent chapter))) then
       addCostEntry "continuity")
      (fun _ => modify (setPreviousChapterEnding (sliceLast 2000 (chContent chapter)))).

(** [checkWordTarget] *)
Definition checkWordTarget (wordCount : nat) (targetWords : Z) : bool :=
  (Nat.max (minAcceptable cfg targetWords)
           (match minWords cfg with Some w => w | None => 500%nat end) <=? wordCount)%nat.


Record ChapterResult : Type := mkResult {
  chapter : ChapterContent;
  resultTargetWords : Z;
  meetsTarget : bool;
  editHistory : list EditCycleRecord
}.

(** The edit cycles of [generateChapter]: [remaining] is
    [maxEditCycles - editCount].  The result is the draft, the history
    and the flag [approved] as the loop leaves them. *)
Fixpoint editCycles (targetChapter : Z) (targetWords : Z) (plan : DetailedChapterPlan)
    (remaining editCount : nat) (draft : jstr) (history : list EditCycleRecord)
    : M State (jstr * list EditCycleRecord * bool) :=
  match remaining with
  | O => ret (draft, history, false)
  | S remaining' =>
      let* editResult := editChapter draft in
      let history :=
        history ++ [mkCycle (editCount + 1) (scores editResult) (editApproved editResult)] in
      do emit (edit_cycle targetChapter (editCount + 1) (editApproved editResult)) then
      if editApproved editResult then ret (draft, history, true)
      else
        let* draft := rewriteFromFeedback plan (rewriteInstructions editResult) (Some draft) in
        let* draft := expandIfNeeded targetChapter draft targetWords 3 true in
        editCycles targetChapter targetWords plan remaining' (S editCount) draft history
  end.

Definition effectiveMaxEditCycles : nat :=
  match maxEditCycles cfg with Some n => n | None => 3%nat end.

(** The [try] block of [generateChapter], first part: steps 1 to 4,
    which make the draft. *)
Definition generateChapterDraft (targetChapter : Z) (chapterPlan : ChapterPlan)
    : M State (jstr * list EditCycleRecord * bool) :=
  (* Step 1: Generate detailed plan *)
  let* detailedPlan := generateDetailedPlan targetChapter in
  do emit (chapter_plan_generated targetChapter) then
  (* Step 2: Write the chapter *)
  let* draft := writeChapter detailedPlan in
  do emit (chapter_written targetChapter (countWords draft)) then
  (* Step 3: Expand loop if too short *)
  let* draft := expandIfNeeded targetChapter draft (targetWords chapterPlan) 3 true in
  (* Step 3b: Full-text refusal scan *)
  let draft := stripRefusalContent draft in
  (* Step 4: Edit cycles *)
  editCycles targetChapter (targetWords chapterPlan) detailedPlan
    effectiveMaxEditCycles 0 draft [].

(** The [try] block of [generateChapter], second part: steps 5 and 6,
    which store the chapter. *)
Definition storeChapter (targetChapter : Z) (chapterPlan : ChapterPlan)
    (chs : list ChapterPlan) (draft : jstr) (history : list EditCycleRecord)
    (isApproved : bool) : M State ChapterResult :=
  (* If not approved after all cycles, approve anyway *)
  let isApproved := if negb isApproved then true else isApproved in
  (* Step 5: Generate summary *)
  let* chapterSummary := generateChapterSummary draft in
  (* Step 6: Update continuity *)
  let content :=
    mkChapter targetChapter (title chapterPlan) draft (countWords draft) chapterSummary
      (List.length history) isApproved in
  do updateContinuity content then
  (* Store completed chapter *)
  do modify (fun s => setChapters (<[targetChapter := content]> (chapters s)) s) then
  do setStatus targetChapter approved then
  let wordCount := countWords draft in
  let meets := checkWordTarget wordCount (targetWords chapterPlan) in
  do (if negb meets then emit (word_count_warning targetChapter wordCount) else ret tt) then
  do emit (chapter_complete targetChapter wordCount) then
  let* done := gets (fun s => (size (chapters s) =? List.length chs)%nat) in
  do (if done then modify (setPhase complete) else ret tt) then
  ret (mkResult content (targetWords chapterPlan) meets history).

Definition generateChapterBody (targetChapter : Z) (chapterPlan : ChapterPlan)
    (chs : list ChapterPlan) : M State ChapterResult :=
  let* (draft, history, isApproved) := generateChapterDraft targetChapter chapterPlan in
  storeChapter targetChapter chapterPlan chs draft history isApproved.

Definition generateChapter (chapterNumber : option Z) : M State ChapterResult :=
  let* isApproved := gets outlineApproved in
  if negb isApproved then throw OutlineNotApproved
  else
    let* next := gets getNextPendingChapter in
    match (match chapterNumber with Some n => Some n | None => next end) with
    | None => throw NoPendingChapters
    | Some targetChapter =>
        let* o := gets outline in
        match o with
        | None => throw NullOutline
        | Some chs =>
            match findPlan chs targetChapter with
            | None => throw (ChapterNotFound targetChapter)
            | Some chapterPlan =>
                do setStatus targetChapter generating then
                tryCatch (generateChapterBody targetChapter chapterPlan chs)
                  (fun error =>
                     do setStatus targetChapter failed then
                     do emit (chapter_failed targetChapter error) then
                     throw error)
            end
        end
    end.

Definition rewriteChapter (chapterNo : Z) (feedback : jstr) : M State ChapterResult :=
  let* isApproved := gets outlineApproved in
  if negb isApproved then throw OutlineNotApprovedFirst
  else
    let* o := gets outline in
    match o with
    | None => throw NullOutline
    | Some chs =>
        match findPlan chs chapterNo with
        | None => throw (ChapterNotFound chapterNo)
        | Some chapterPlan =>
            do setStatus chapterNo generating then
            tryCatch
              (let* detailedPlan := generateDetailedPlan chapterNo in
               let* draft := rewriteFromFeedback detailedPlan feedback None in
               let* draft := expandIfNeeded chapterNo draft (targetWords chapterPlan) 3 false in
               let* editResult := editChapter draft in
               let history := [mkCycle 1 (scores editResult) (editApproved editResult)] in
               let* chapterSummary := generateChapterSummary draft in
               let content :=
                 mkChapter chapterNo (title chapterPlan) draft (countWords draft)
                   chapterSummary 1 true in
               do updateContinuity content then
               do modify (fun s => setChapters (<[chapterNo := content]> (chapters s)) s) then
               do setStatus chapterNo approved then
               ret (mkResult content (targetWords chapterPlan)
                      (checkWordTarget (countWords draft) (targetWords chapterPlan)) history))
              (fun error =>
                 do setStatus chapterNo failed then
                 throw error)
        end
    end.

Definition expandChapter (chapterNo : Z) (target : option Z) : M State ChapterResult :=
  let* existing := gets (fun s => chapters s !! chapterNo) in
  match existing with
  | None => throw (ChapterNotGenerated chapterNo)
  | Some existing =>
      let* o := gets outline in
      match o with
      | None => throw NullOutline
      | Some chs =>
          let target :=
            match target, findPlan chs chapterNo with
            | Some t, _ => t
            | None, Some chapterPlan => targetWords chapterPlan
            | None, None => 2000%Z
            end in
          do setStatus chapterNo generating then
          let* expanded := expandIfNeeded chapterNo (chContent existing) target 3 false in
          let* chapterSummary := generateChapterSummary expanded in
          let updatedChapter :=
            mkChapter (chNumber existing) (chTitle existing) expanded (countWords expanded)
              chapterSummary (chEditCount existing) (chApproved existing) in
          do modify (fun s => setChapters (<[chapterNo := updatedChapter]> (chapters s)) s) then
          do setStatus chapterNo approved then
          ret (mkResult updatedChapter target
                 (checkWordTarget (chWordCount updatedChapter) target) [])
      end
  end.

(** The loop of [generateAllRemaining] over the chapters of the outline;
    the results are the values the generator yields, to a consumer that
    takes them all. *)
Fixpoint generateEach (chs : list ChapterPlan) : M State (list ChapterResult) :=
  match chs with
  | [] => ret []
  | ch :: rest =>
      let* status := gets (fun s => chapterStatuses s !! number ch) in
      if isStatus status approved then generateEach rest
      else if isStatus status failed then generateEach rest
      else
        let* yielded :=
          tryCatch
            (let* result := generateChapter (Some (number ch)) in
             ret [result])
            (fun error =>
               (* Mark as failed, continue with next *)
               do setStatus (number ch) failed then
               do emit (chapter_failed (number ch) error) then
               ret []) in
        let* more := generateEach rest in
        ret (yielded ++ more)
  end.

Definition generateAllRemaining : M State (list ChapterResult) :=
  let* isApproved := gets outlineApproved in
  if negb isApproved then throw OutlineNotApprovedFirst
  else
    let* o := gets outline in
    match o with
    | None => throw NullOutline
    | Some chs =>
        let* results := generateEach chs in
        let* allDone :=
          gets (fun s =>
                  forallb (fun ch =>
                             let status := chapterStatuses s !! number ch in
                             isStatus status approved || isStatus status failed) chs) in
        do (if allDone then modify (setPhase complete) else ret tt) then
        ret results
    end.

End WithCollaborator.

End Session.

(** ** The graph pipeline ([graph/nodes/*.ts], [graph/edges.ts], [graph/book-graph.ts])

    A node reads the state and returns an update, which the reducers of
    [schemas/state.ts] merge into the state: [chapters], [costs] and
    [pendingEvents] append, [totalWordsWritten] adds, the others replace.
    A node that throws returns no update.  The state of the model
    carries the fields that the nodes and the routers read; what the
    memory provider gives goes into prompts and into [characterStates],
    and its failures are caught, so that it leaves no trace here, nor
    does [humanFeedback], which no node reads. *)

Module Graph.
Import Text Refusal Data Effects.

Inductive GraphPhase : Type :=
| phaseIdle | phasePlanning | phaseWriting | phaseEditing | phaseContinuity | phaseComplete.

Record BookState : Type := mkBook {
  maxEditCycles : nat;            (* [config.maxEditCycles] *)
  humanReview : bool;             (* [config.humanReview] *)
  currentPhase : GraphPhase;
  currentChapter : nat;
  outline : option (list ChapterPlan);
  currentDetailedPlan : option DetailedChapterPlan;
  currentDraft : jstr;
  currentEditResult : option EditResult;
  editCount : nat;
  chapters : list ChapterContent;
  rollingSummary : jstr;
  previousChapterEnding : jstr;
  costs : list string;
  totalWordsWritten : nat;
  pendingEvents : list Event
}.

(** The calls made so far are the state of a node's computation. *)
#[export] Instance natCalls : Calls nat := {| callsOf := fun n => n; tick := S |}.

(** What the registry holds for a role: no model, a model whose
    provider cannot be set up (it is unknown, or has no API key), or a
    model that [getModel] returns. *)
Inductive ModelEntry : Type := noModel | noProvider | modelReady.

(** What [interrupt] does in the continuity node: it throws, which
    pauses the graph, or it returns the value the run was resumed with,
    an object with its fields [approved], [notes] and [editInstructions]
    ([None] for a field that is absent; [approved] is [Some false] when
    [approved === false]) or a value that is no object or is falsy. *)
Inductive Review : Type :=
| reviewPending
| reviewOther
| reviewObject (isApproved : option bool) (notes editInstructions : option jstr).

Inductive Route : Type := toPlanner | toWriter | toEditor | toContinuity | toEnd.

(** [editorRouter] *)
Definition editorRouter (state : BookState) : Route :=
  match currentEditResult state with
  | Some editResult =>
      if editApproved editResult then toContinuity
      else if (maxEditCycles state <=? editCount state)%nat then toContinuity
      else toWriter
  | None =>
      if (maxEditCycles state <=? editCount state)%nat then toContinuity
      else toWriter
  end.

(** [chapterRouter]: with no outline, and a phase that is not
    'complete', [state.outline!.chapters] throws a TypeError. *)
Definition chapterRouter (state : BookState) : Result Route :=
  match currentPhase state with
  | phaseComplete => Ok toEnd
  | _ =>
      match outline state with
      | Some chs =>
          Ok (if (currentChapter state <=? List.length chs)%nat then toPlanner else toEnd)
      | None => Thrown NullOutline
      end
  end.

Section WithCollaborator.
Variable llm : nat -> Reply.

(** [Math.floor(plan.targetWords * (1 - tolerance))] with the tolerance
    0.15 of the writer node, a floating point computation. *)
Variable minAcceptable : Z -> nat.

(** The provider registry of [config.configurable]. *)
Variable registry : ModelRole -> ModelEntry.

(** The human reviewer: what [interrupt] does when it is reached after
    so many generation calls. *)
Variable interrupt : nat -> Review.

(** [registry.hasModel(role)] *)
Definition hasModel (role : ModelRole) : bool :=
  match registry role with
  | noModel => false
  | _ => true
  end.

(** [registry.getModel(role)], for what it throws. *)
Definition getModel (role : ModelRole) : M nat unit :=
  match registry role with
  | modelReady => ret tt
  | _ => throw (RegistryError role)
  end.

Definition plannerNode (state : BookState) : M nat BookState :=
  do getModel rolePlanning then
  match outline state with
  | None => throw NullOutline
  | Some chs =>
      match nth_error chs (currentChapter state - 1) with
      | None => throw NullOutline
      | Some chapterPlan =>
          if (currentChapter state =? 0)%nat then throw NullOutline else
          let* detailedPlan := generatePlan llm in
          ret (mkBook (maxEditCycles state) (humanReview state) phaseWriting
                 (currentChapter state)
                 (outline state) (Some detailedPlan) (currentDraft state) None 0
                 (chapters state) (rollingSummary state) (previousChapterEnding state)
                 (costs state ++ ["planning"%string]) (totalWordsWritten state)
                 (pendingEvents state ++ [chapter_started (Z.of_nat (currentChapter state))]))
      end
  end.

(** The refusal loop of [writerNode]: the result is [finalContent],
    [bestCleanedContent] and the costs, as the loop leaves them. *)
Fixpoint writerAttempts (remaining attempt : nat) (bestCleanedContent : jstr)
    (bestCleanedWordCount : nat) (costs : list string)
    : M nat (jstr * jstr * list string) :=
  match remaining with
  | O => ret ([], bestCleanedContent, costs)
  | S remaining' =>
      let* text := generateText llm in
      let costs :=
        costs ++ [if (attempt =? 0)%nat then "writing" else "writing_refusal_retry"]%string in
      let refusal := detectRefusal text in
      if negb (isRefusal refusal) then ret (text, bestCleanedContent, costs)
      else
        let cleanedRefusal := detectRefusal (cleanedText refusal) in
        let cleanedWordCount := countWords (cleanedText refusal) in
        if negb (isRefusal cleanedRefusal) && (bestCleanedWordCount <? cleanedWordCount)%nat
        then writerAttempts remaining' (S attempt) (cleanedText refusal) cleanedWordCount costs
        else writerAttempts remaining' (S attempt) bestCleanedContent bestCleanedWordCount costs
  end.

(** The draft that [writerNode] takes into its expand loop. *)
Definition writerDraft : M nat (jstr * list string) :=
  let* (finalContent, bestCleanedContent, costs) := writerAttempts 4 0 [] 0 [] in
  (* If all attempts were refusals, use the best cleaned text *)
  let finalContent := if isEmpty finalContent then bestCleanedContent else finalContent in
  ret (finalContent, costs).

(** The expand loop of [writerNode]: [remaining] is [3 - expandAttempts]. *)
Fixpoint writerExpand (chapter : Z) (remaining expandAttempts : nat)
    (finalContent : jstr) (wordCount : nat) (costs : list string) (pending : list Event)
    (target : Z) : M nat (jstr * nat * list string * list Event) :=
  match remaining with
  | O => ret (finalContent, wordCount, costs, pending)
  | S remaining' =>
      if (wordCount <? minAcceptable target)%nat then
        let expandAttempts := S expandAttempts in
        let pending := pending ++ [expand_attempt chapter expandAttempts wordCount] in
        let* rawExpanded := generateText llm in
        let expandRefusal := detectRefusal rawExpanded in
        let expanded :=
          if isRefusal expandRefusal then cleanedText expandRefusal else rawExpanded in
        let expandedWordCount := countWords expanded in
        if (wordCount <? expandedWordCount)%nat then
          writerExpand chapter remaining' expandAttempts expanded expandedWordCount
            (costs ++ ["writing_expand"%string]) pending target
        else ret (finalContent, wordCount, costs, pending)
      else ret (finalContent, wordCount, costs, pending)
  end.

Definition writerNode (state : BookState) : M nat BookState :=
  do getModel roleWriting then
  match currentDetailedPlan state with
  | None => throw NullOutline
  | Some plan =>
      let chapter := Z.of_nat (currentChapter state) in
      let* (finalContent, costs) := writerDraft in
      let wordCount := countWords finalContent in
      let pending := [chapter_written chapter wordCount] in
      let* (finalContent, wordCount, costs, pending) :=
        writerExpand chapter 3 0 finalContent wordCount costs pending (planTargetWords plan) in
      let pending :=
        if (wordCount <? minAcceptable (planTargetWords plan))%nat
        then pending ++ [word_count_warning chapter wordCount] else pending in
      (* the quick summary, which the node does not return *)
      let* _ :=
        tryCatch
          (do (if hasModel roleContinuity then getModel roleContinuity else ret tt) then
           generateText llm)
          (fun _ => ret (sliceTo 500 finalContent ++ js "...")) in
      ret (mkBook (maxEditCycles state) (humanReview state) phaseEditing
             (currentChapter state)
             (outline state) (currentDetailedPlan state) finalContent
             (currentEditResult state) (editCount state)
             (chapters state) (rollingSummary state) (previousChapterEnding state)
             (Graph.costs state ++ costs) (totalWordsWritten state)
             (pendingEvents state ++ pending))
  end.

Definition editorNode (state : BookState) : M nat BookState :=
  do getModel roleEditing then
  match currentDetailedPlan state, outline state with
  | Some plan, Some chs =>
      let* editResult := generateEdit llm in
      let newEditCount := (editCount state + 1)%nat in
      ret (mkBook (maxEditCycles state) (humanReview state)
             (if editApproved editResult then phaseContinuity else phaseWriting)
             (currentChapter state) (outline state) (currentDetailedPlan state)
             (currentDraft state) (Some editResult) newEditCount
             (chapters state) (rollingSummary state) (previousChapterEnding state)
             (costs state ++ ["editing"%string]) (totalWordsWritten state)
             (pendingEvents state ++
                [edit_cycle (Z.of_nat (currentChapter state)) newEditCount
                   (editApproved editResult)]))
  | _, _ => throw NullOutline
  end.

Definition maxSummaryWords : nat := 2000.

(** The fallback of [continuityNode]: whole sentences are appended while
    the count of [truncated + sentence] stays within the cap. *)
Fixpoint truncateBySentences (truncated : jstr) (sentences : list jstr) : jstr :=
  match sentences with
  | [] => truncated
  | sentence :: rest =>
      if (maxSummaryWords <? countWords (truncated ++ sentence))%nat then truncated
      else truncateBySentences
             (truncated ++ (if isEmpty truncated then [] else [32]) ++ sentence) rest
  end.

(** "Enforce rolling summary length" of [continuityNode]. *)
Definition enforceSummaryLength (generatedSummary : jstr) : M nat jstr :=
  if (maxSummaryWords <? countWords generatedSummary)%nat then
    tryCatch (generateText llm)
      (fun _ => ret (truncateBySentences [] (splitSentences generatedSummary)))
  else ret generatedSummary.

(** "Handle human-in-the-loop review": the value that [interrupt]
    returns, [reviewOther] when there is no review. *)
Definition humanReviewStep (state : BookState) : M nat Review :=
  if humanReview state then
    fun c =>
      match interrupt c with
      | reviewPending => (Thrown GraphInterrupt, c)
      | feedback => (Ok feedback, c)
      end
  else ret reviewOther.

(** The edit result that stands for a review that rejects the chapter;
    an instruction that is absent is the empty text. *)
Definition reviewRejection (notes editInstructions : option jstr) : EditResult :=
  mkEdit (mkScores 5 5 5 5 5 5) false
    (match editInstructions, notes with
     | Some instructions, _ => instructions
     | None, Some n => n
     | None, None => []
     end).

Definition continuityNode (state : BookState) : M nat BookState :=
  do getModel roleContinuity then
  match currentDetailedPlan state, outline state with
  | Some plan, Some chs =>
      let* generatedSummary := generateText llm in
      let* newSummary := enforceSummaryLength generatedSummary in
      let completedChapter :=
        mkChapter (Z.of_nat (currentChapter state)) (planTitle plan) (currentDraft state)
          (countWords (currentDraft state)) (sliceTo 500 newSummary) (editCount state) true in
      let* feedback := humanReviewStep state in
      match feedback with
      | reviewObject (Some false) notes editInstructions =>
          (* Human rejected: go back to writing *)
          ret (mkBook (maxEditCycles state) (humanReview state) phaseWriting
                 (currentChapter state) (outline state) (currentDetailedPlan state)
                 (currentDraft state) (Some (reviewRejection notes editInstructions))
                 (editCount state) (chapters state) (rollingSummary state)
                 (previousChapterEnding state) (costs state ++ ["continuity"%string])
                 (totalWordsWritten state) (pendingEvents state))
      | _ =>
          let nextChapter := (currentChapter state + 1)%nat in
          ret (mkBook (maxEditCycles state) (humanReview state)
                 (if (nextChapter <=? List.length chs)%nat then phasePlanning
                  else phaseComplete)
                 nextChapter (outline state) (currentDetailedPlan state) (currentDraft state)
                 (currentEditResult state) (editCount state)
                 (chapters state ++ [completedChapter]) newSummary
                 (sliceLast 2000 (currentDraft state))
                 (costs state ++ ["continuity"%string])
                 (totalWordsWritten state + chWordCount completedChapter)
                 (pendingEvents state ++
                    [chapter_complete (Z.of_nat (currentChapter state))
                       (chWordCount completedChapter)]))
      end
  | _, _ => throw NullOutline
  end.

(** One node and the edge out of it, as [createBookGraph] wires them. *)
Definition stepGraph (node : Route) (state : BookState) : M nat (Route * BookState) :=
  match node with
  | toPlanner => let* s := plannerNode state in ret (toWriter, s)
  | toWriter => let* s := writerNode state in ret (toEditor, s)
  | toEditor => let* s := editorNode state in ret (editorRouter s, s)
  | toContinuity =>
      let* s := continuityNode state in
      let* next := fromResult (chapterRouter s) in
      ret (next, s)
  | toEnd => ret (toEnd, state)
  end.

(** [steps] nodes, one after the other. *)
Fixpoint runGraph (steps : nat) (node : Route) (state : BookState)
    : M nat (Route * BookState) :=
  match steps with
  | O => ret (node, state)
  | S steps' =>
      let* (next, s) := stepGraph node state in
      runGraph steps' next s
  end.

End WithCollaborator.

End Graph.

(** ** Definitions used by the statements and the proofs *)

Module Aux.
Import Text.

Definition allSpace (s : jstr) : bool := forallb isSpace s.

Definition endsNL (s : jstr) : bool := startsNL (rev s).

(** [p] is one paragraph: it holds no separator. *)
Definition single (p : jstr) : Prop := splitPara p = [p].

(** What [trimStart] and [trimEnd] do to a text, seen on its paragraphs. *)
Fixpoint ltrimP (L : list jstr) : list jstr :=
  match L with
  | [] => []
  | p :: rest => if isEmpty (ltrim p) then ltrimP rest else ltrim p :: rest
  end.

Fixpoint rtrimP (L : list jstr) : list jstr :=
  match L with
  | [] => []
  | p :: rest =>
      match rtrimP rest with
      | [] => if isEmpty (rtrim p) then [] else [rtrim p]
      | l => p :: l
      end
  end.

(** The paragraphs of a split: none holds a separator, only the last may
    end with a line feed, only the first may start with one, and only
    the first and the last may be empty. *)
Definition wfParas (L : list jstr) : Prop :=
  L <> [] /\
  Forall single L /\
  Forall (fun p => endsNL p = false) (removelast L) /\
  Forall (fun p => startsNL p = false) (tail L) /\
  Forall (fun p => p <> []) (removelast (tail L)).

(** The text that [detectRefusal] tests its patterns on. *)
Definition refusalHead (text : jstr) : jstr :=
  sliceTo 500 (Refusal.normalizeQuotes (trim text)).

(** The places, from [i] on, of the patterns of the list that match. *)
Fixpoint matchingFrom (i : nat) (patterns : list Regex.re) (s : jstr) : list nat :=
  match patterns with
  | [] => []
  | p :: rest =>
      if Regex.test true p s then i :: matchingFrom (S i) rest s
      else matchingFrom (S i) rest s
  end.

(** The places of [REFUSAL_PATTERNS], counted from 0, whose pattern
    matches the text. *)
Definition matching (s : jstr) : list nat := matchingFrom 0 Refusal.REFUSAL_PATTERNS s.

(** Sample texts. *)
Definition wordsText (n : nat) : jstr := concat (repeat (js "word ") n).

Definition refusalWith (n : nat) : jstr :=
  js "I'm sorry, I can't produce a full chapter in one response." ++ [LF; LF] ++ wordsText n.

Definition apologyInProse : jstr :=
  js "  I'm sorry was all she said, and the door closed behind her. The rain kept falling.  ".

Definition apologyInDialogue : jstr :=
  [34] ++ js "I'm sorry, I cannot stay," ++ [34] ++ js " she said, and the door closed.".

(** A story that opens with a line of dialogue holding one phrase of a
    refusal, and goes on in a second paragraph. *)
Definition offerInDialogue : jstr :=
  [34] ++ js "I can still help," ++ [34] ++ js " she said, and took the lantern from the shelf.".

Definition storyWithOffer : jstr :=
  offerInDialogue ++ [LF; LF] ++ js "The rain kept falling on the roof.".

(** A summary of two sentences, of 1999 and of 2 words. *)
Definition twoSentences : jstr :=
  concat (repeat (js "word ") 1998) ++ js "word. " ++ js "two words.".

End Aux.

(** ** What the two passes of the assembler take *)

Module BudgetSplit.
Import Text Budget.

(** The items that the second pass takes, given the tokens used so far. *)
Fixpoint fitting (budget : Z) (used : Z) (l : list ContextItem) : list ContextItem :=
  match l with
  | [] => []
  | x :: rest =>
      if required x then fitting budget used rest
      else if (used + estimateTokens (content x) <=? budget)%Z
           then x :: fitting budget (used + estimateTokens (content x)) rest
           else fitting budget used rest
  end.

Fixpoint overflowing (budget : Z) (used : Z) (l : list ContextItem) : list ContextItem :=
  match l with
  | [] => []
  | x :: rest =>
      if required x then overflowing budget used rest
      else if (used + estimateTokens (content x) <=? budget)%Z
           then overflowing budget (used + estimateTokens (content x)) rest
           else x :: overflowing budget used rest
  end.

(** The items that [buildContext] takes: the required ones, then the
    optional ones that fit, in the order of their priorities. *)
Definition taken (items : list ContextItem) (budget : Z) : list ContextItem :=
  let sorted := sortByPriority items in
  List.filter required sorted ++
  fitting budget (total (fold_left passRequired sorted (mkAcc [] [] [] 0%Z))) sorted.

(** The items that it drops. *)
Definition leftOut (items : list ContextItem) (budget : Z) : list ContextItem :=
  let sorted := sortByPriority items in
  overflowing budget (total (fold_left passRequired sorted (mkAcc [] [] [] 0%Z))) sorted.

End BudgetSplit.

(** ** Shapes of an outline *)

Module OutlineShape.
Import Text Outline.

(** The references of the outline are in the store. *)
Definition validRefs (h : store) (chapters : list ref) : Prop :=
  Forall (fun r => (r < List.length h)%nat) chapters.

(** The numbers 1 to [n], from [i + 1] on. *)
Definition numbersFrom (i n : nat) : list Z := map (fun k => (Z.of_nat k + 1)%Z) (seq i n).

End OutlineShape.

(** ** What runs of a computation have in common *)

Module Triples.
Import Data Effects.

Section Defs.
Context {S A : Type}.

(** Every run, returning or throwing, takes the state to a state that
    [R] relates to it. *)
Definition preserves (R : S -> S -> Prop) (m : M S A) : Prop :=
  forall s r s', m s = (r, s') -> R s s'.

(** No run throws. *)
Definition neverThrows (m : M S A) : Prop :=
  forall s e s', m s <> (Thrown e, s').

(** The runs that throw take the state to a state that [R] relates to it. *)
Definition throwsKeep (R : S -> S -> Prop) (m : M S A) : Prop :=
  forall s e s', m s = (Thrown e, s') -> R s s'.

(** The runs that throw throw an error of [P]. *)
Definition throwsOnly (P : Error -> Prop) (m : M S A) : Prop :=
  forall s e s', m s = (Thrown e, s') -> P e.

End Defs.

(** The errors of a generation call. *)
Definition isCallError (e : Error) : Prop :=
  match e with
  | ProviderError _ | InvalidObject => True
  | _ => False
  end.




End Triples.

(** ** Relations between states of a session *)

Module SessionRel.
Import Text Data Effects Session.


(** The outline, its approval and the statuses of the chapters other
    than [n] are the same. *)
Definition sameOutside (n : Z) (s s' : State) : Prop :=
  outline s' = outline s /\
  outlineApproved s' = outlineApproved s /\
  forall k, k <> n -> chapterStatuses s' !! k = chapterStatuses s !! k.

(** Chapter [n] is approved or failed. *)
Definition settled (s : State) (n : Z) : Prop :=
  chapterStatuses s !! n = Some approved \/ chapterStatuses s !! n = Some failed.

(** The state after an expand attempt: the event, the call, the cost. *)
Definition afterAttempt (n : Z) (attempts wordCount : nat) (hasPlan : bool) (s : State) : State :=
  setCosts (costs s ++ [if (wordCount <? 50)%nat && hasPlan
                        then "writing_fresh_generate" else "writing_expand"]%string)
    (setCalls (S (calls s))
       (setEvents (events s ++ [expand_attempt n (S attempts) wordCount]) s)).



End SessionRel.

(** ** Sample runs *)

Module Samples.
Import Text Aux Data Effects Session.

(** An oracle that replies from a list, and fails once the list is over. *)
Definition script (replies : list Reply) : nat -> Reply :=
  fun i => nth i replies (Failure []).

(** Tolerance 0.15, three edit cycles, no least number of words. *)
Definition sampleConfig : Config :=
  mkConfig (Some 3%nat) true (fun t => Z.to_nat (t * 85 / 100)) (Some 0%nat) None.

Definition sampleScores : EditScores := mkScores 5 5 5 5 5 5.

Definition samplePlan (n : Z) (words : Z) : ChapterPlan :=
  mkPlan n (js "Title") (js "Summary") words [] [].

Definition approval : Reply := EditReply (mkEdit sampleScores true []).
Definition rejection : Reply := EditReply (mkEdit sampleScores false (js "more detail")).

(** A session with an approved outline of [n] chapters of ten words. *)
Definition approvedSession (n : nat) : State :=
  mkState (Some (map (fun i => samplePlan (Z.of_nat i + 1) 10) (seq 0 n))) true ∅ ∅ [] [] []
    writing [] 0.

(** The replies of a chapter that goes through at once: plan, draft,
    approval, summary, continuity. *)
Definition smoothChapter (n : Z) : list Reply :=
  [PlanReply (mkDetailed n (js "Title") 10); TextReply (wordsText 9); approval;
   TextReply (js "summary"); TextReply (js "story so far")].

End Samples.

(** ** Shapes of an edit history *)

Module EditShape.
Import Data.






End EditShape.

(** ** Where a draft comes from *)

Module DraftShape.
Import Text Refusal Data.

(** The text is a reply of the collaborator that is not a refusal. *)
Definition replied (llm : nat -> Reply) (text : jstr) : Prop :=
  exists i, llm i = TextReply text /\ isRefusal (detectRefusal text) = false.

(** The text is what is left of a reply that is a refusal, and it is not
    a refusal itself. *)
Definition salvaged (llm : nat -> Reply) (text : jstr) : Prop :=
  exists i raw,
    llm i = TextReply raw /\
    isRefusal (detectRefusal raw) = true /\
    text = cleanedText (detectRefusal raw) /\
    isRefusal (detectRefusal text) = false.

(** The best candidate of the refusal loop, with its count. *)
Definition candidate (llm : nat -> Reply) (bestText : jstr) (bestWordCount : nat) : Prop :=
  (bestText = [] /\ bestWordCount = 0%nat) \/
  (bestWordCount = countWords bestText /\ salvaged llm bestText).

(** Four refusals, with what is left of them of the given numbers of words. *)
Definition refusals (salvages : list nat) : list Reply :=
  map (fun n => TextReply (Aux.refusalWith n)) salvages.

End DraftShape.

(** ** Words of a text *)

Module Words.
Import Text.

(** The words of a text are its maximal runs of code units that are not
    white space: the number of places where such a run starts.  [inWord]
    says that the scan is inside one. *)
Fixpoint wordsGo (inWord : bool) (s : jstr) : nat :=
  match s with
  | [] => O
  | c :: s' =>
      if isSpace c then wordsGo false s'
      else ((if inWord then 0 else 1) + wordsGo true s')%nat
  end.

(** The pieces of a split that [filter(w => w.length > 0)] keeps. *)
Definition nonEmptyCount (l : list jstr) : nat :=
  List.length (List.filter (fun w => negb (isEmpty w)) l).

(** The text ends inside a word. *)
Definition endsInWord (s : jstr) : bool :=
  match rev s with
  | c :: _ => negb (isSpace c)
  | [] => false
  end.

(** The text starts with a word. *)
Definition startsInWord (s : jstr) : bool :=
  match s with
  | c :: _ => negb (isSpace c)
  | [] => false
  end.

End Words.

(** ** The writer context ([TokenBudget.assembleWriterContext]) *)

Module WriterContext.
Import Text Budget.

(** The tokens of a list of items, by the estimate of [buildContext]. *)
Definition tokensOf (l : list ContextItem) : Z :=
  fold_right (fun item n => (estimateTokens (content item) + n)%Z) 0%Z l.

(** No item stands before one of a higher priority. *)
Fixpoint descending (l : list ContextItem) : Prop :=
  match l with
  | [] => True
  | x :: rest => Forall (fun y => (priority y <= priority x)%Z) rest /\ descending rest
  end.

(** An item that is there when its string is not empty ([if (s) ...]). *)
Definition whenPresent (s : jstr) (item : ContextItem) : list ContextItem :=
  if isEmpty s then [] else [item].

(** [assembleWriterContext]; [planText] is the text that
    [formatPlanForContext] makes of the plan, [maxInputTokens] the field of
    the budget object.  A missing [required] is read as [false]. *)
Definition assembleWriterContext (maxInputTokens : Z) (planText : jstr)
    (rollingSummary previousChapterEnding memoryContext : jstr)
    (systemPromptTokens : Z) : AssembledContext :=
  let availableBudget := (maxInputTokens - systemPromptTokens)%Z in
  let items :=
    [mkItem "chapter_plan" planText 100 true]
    ++ whenPresent previousChapterEnding
         (mkItem "previous_chapter_ending"
            (js "**End of Previous Chapter (for continuity):**" ++ [LF] ++ js "..."
               ++ previousChapterEnding) 80 false)
    ++ whenPresent rollingSummary
         (mkItem "rolling_summary" (js "**Story So Far:**" ++ [LF] ++ rollingSummary) 60 false)
    ++ whenPresent memoryContext
         (mkItem "memory_context" memoryContext 40 false) in
  buildContext items availableBudget.

End WriterContext.

(** ** The outline of a session after [updateOutline] *)

Module OutlineSession.
Import Text Outline OutlineShape Data Session.

(** The array holds no object twice, and every object it holds is in
    the store. *)
Definition sound (h : store) (chapters : list ref) : Prop :=
  List.NoDup chapters /\ validRefs h chapters.

(** The chapters numbered from [i + 1] on, everything else as it is. *)
Fixpoint numbered (i : nat) (chapters : list ChapterPlan) : list ChapterPlan :=
  match chapters with
  | [] => []
  | c :: rest => setNumber (Z.of_nat i + 1) c :: numbered (S i) rest
  end.

(** [ch.number] is none of [nums]: the chapter stays. *)
Definition stays (nums : list Z) (c : ChapterPlan) : bool :=
  negb (existsb (fun n => (number c =? n)%Z) nums).

(** The statuses that [updateOutline] sets after clearing the map: a
    chapter is approved when a chapter is stored under its number, and
    pending otherwise. *)
Definition statusesFor (stored : gmap Z ChapterContent) (chs : list ChapterPlan)
    : gmap Z ChapterStatus :=
  fold_left
    (fun m ch => <[number ch := match stored !! number ch with
                                | Some _ => approved
                                | None => pending
                                end]> m)
    chs ∅.

(** [BookSession.updateOutline] on the array as the session holds it,
    the objects [h0] and the array [chapters0] of references to them:
    the chapter edits and what follows them.  The result is the objects
    and the array as the call leaves them, for the next call, and the
    state, whose outline is what a reader of the array sees.  The method
    makes no call and emits no event. *)
Definition updateOutlineAt (defaultWords : Z) (changes : OutlineChanges)
    (h0 : store) (chapters0 : list ref) (s : State) : store * list ref * State :=
  let '(h, chapters) := Outline.updateOutline defaultWords changes h0 chapters0 in
  let chs := view h chapters in
  (h, chapters,
   setStatuses (statusesFor (Session.chapters s) chs) (setOutline (Some chs) s)).

(** [BookSession.updateOutline] on a state that holds the outline as the
    list of its chapters; [None] is the throw of 'No outline to update.
    Call generateOutline() first.'.  The objects of the array are taken
    to be separate objects, as they are in an outline that
    [generateObject] or [JSON.parse] made and in one that an edit left
    with no object twice; an array that holds an object twice, as a
    reorder that names a number twice leaves it, is edited by
    [updateOutlineAt]. *)
Definition updateOutline (defaultWords : Z) (changes : OutlineChanges) (s : State)
    : option State :=
  match outline s with
  | None => None
  | Some plans =>
      let '(h0, chapters0) := freshOutline plans in
      Some (snd (updateOutlineAt defaultWords changes h0 chapters0 s))
  end.

End OutlineSession.

(** ** Shapes of the state of a session *)

Module SessionShape.
Import Text Data Effects Session.

(** The status of the chapter is 'pending' or 'failed': the test of
    [getNextPendingChapter]. *)
Definition awaiting (s : State) (ch : ChapterPlan) : bool :=
  isStatus (chapterStatuses s !! number ch) pending ||
  isStatus (chapterStatuses s !! number ch) failed.

(** Between the two states at most [k] generation calls were made. *)
Definition within (k : nat) (s s' : State) : Prop :=
  (calls s <= calls s' <= calls s + k)%nat.

(** The stored chapters, the statuses, the outline and its approval are
    the same. *)
Definition sameBook (s s' : State) : Prop :=
  chapters s' = chapters s /\
  chapterStatuses s' = chapterStatuses s /\
  outline s' = outline s /\
  outlineApproved s' = outlineApproved s.

(** Every stored chapter is stored under its number, is approved, and
    carries the word count of its content; a chapter whose status is
    'approved' is stored. *)
Definition wellStored (s : State) : Prop :=
  (forall n c, chapters s !! n = Some c ->
     chNumber c = n /\ chApproved c = true /\ chWordCount c = countWords (chContent c)) /\
  (forall n, chapterStatuses s !! n = Some approved -> is_Some (chapters s !! n)).

(** From a state of [P], every run of [m], returning or throwing, ends
    in a state of [Q]. *)
Definition establishes {A : Type} (P : State -> Prop) (m : M State A) (Q : State -> Prop)
    : Prop :=
  forall s r s', P s -> m s = (r, s') -> Q s'.

(** Chapter [n] aside, the stored chapters and the statuses are the
    same. *)
Definition sameOthers (n : Z) (s s' : State) : Prop :=
  forall k, k <> n ->
    chapters s' !! k = chapters s !! k /\ chapterStatuses s' !! k = chapterStatuses s !! k.

(** Storing a chapter under its number and marking it approved. *)
Definition stored (n : Z) (c : ChapterContent) (s : State) : State :=
  setStatuses (<[n := approved]> (chapterStatuses s)) (setChapters (<[n := c]> (chapters s)) s).

(** The [try] block of [rewriteChapter]. *)
Definition rewriteBody (llm : nat -> Reply) (cfg : Config) (n : Z) (feedback : jstr)
    (chapterPlan : ChapterPlan) : M State ChapterResult :=
  let* detailedPlan := generateDetailedPlan llm n in
  let* draft := rewriteFromFeedback llm detailedPlan feedback None in
  let* draft := expandIfNeeded llm cfg n draft (targetWords chapterPlan) 3 false in
  let* editResult := editChapter llm draft in
  let history := [mkCycle 1 (scores editResult) (editApproved editResult)] in
  let* chapterSummary := generateChapterSummary llm draft in
  let content :=
    mkChapter n (title chapterPlan) draft (countWords draft) chapterSummary 1 true in
  do updateContinuity llm cfg content then
  do modify (fun s => setChapters (<[n := content]> (chapters s)) s) then
  do setStatus n approved then
  ret (mkResult content (targetWords chapterPlan)
         (checkWordTarget cfg (countWords draft) (targetWords chapterPlan)) history).

(** The chapters and the total of words of the book that [export()]
    returns: the stored chapters of the outline, in its order.  [None]
    is the throw of 'No outline available.'. *)
Definition exportChapters (s : State) : option (list ChapterContent * nat) :=
  match outline s with
  | None => None
  | Some chs =>
      let chapters := omap (fun ch => Session.chapters s !! number ch) chs in
      Some (chapters, list_sum (map chWordCount chapters))
  end.

End SessionShape.

(** ** More sample sessions *)

Module SessionSamples.
Import Text Aux Data Effects Session Samples SessionShape.

(** A stored first chapter of four words. *)
Definition sampleChapter : ChapterContent :=
  mkChapter 1 (js "Title") (wordsText 4) 4 (js "summary") 1 true.

(** A session with an approved outline of [n] chapters whose first
    chapter is stored. *)
Definition storedSession (n : nat) : State := stored 1 sampleChapter (approvedSession n).

(** A session with an approved outline of [n] chapters whose first
    chapter failed. *)
Definition failedSession (n : nat) : State :=
  setStatuses (<[1%Z := failed]> ∅) (approvedSession n).

End SessionSamples.

(** ** Lines of a preamble *)

Module Preamble.
Import Text Regex Session.

(** The test of the loop of [stripExpandPreamble] on one line: the line
    is blank, starts like a comment on the expansion, or is a rule of
    three or more dashes. *)
Definition isPreambleLine (l : jstr) : bool :=
  let line := trim l in
  isEmpty line || Regex.test true preambleRe line || Regex.test false dashesRe line.

(** The lines of preamble that open a text, among its first [budget]
    lines. *)
Fixpoint leadingPreamble (budget : nat) (lines : list jstr) : nat :=
  match budget, lines with
  | S budget', l :: rest =>
      if isPreambleLine l then S (leadingPreamble budget' rest) else 0
  | _, _ => 0
  end.

End Preamble.

(** ** Shapes of the state of the graph *)

Module GraphShape.
Import Text Data Effects Graph.

(** The review rejects the chapter: [approved === false]. *)
Definition rejects (feedback : Review) : bool :=
  match feedback with
  | reviewObject (Some false) _ _ => true
  | _ => false
  end.

(** The book so far, with [m] edit cycles at most: the chapters are
    numbered 1, 2, ... up to the chapter before the current one, each is
    approved, carries the word count of its content and went through at
    least one edit cycle and at most [max(1, m)]; the total of words is
    the sum of the word counts. *)
Definition bookSound (m : nat) (s : BookState) : Prop :=
  maxEditCycles s = m /\
  (1 <= currentChapter s)%nat /\
  map chNumber (chapters s) = map Z.of_nat (seq 1 (currentChapter s - 1)) /\
  totalWordsWritten s = list_sum (map chWordCount (chapters s)) /\
  Forall (fun c => chApproved c = true /\
                   chWordCount c = countWords (chContent c) /\
                   (1 <= chEditCount c <= Nat.max 1 m)%nat) (chapters s).

(** The book on entering a node: before the writer and the editor the
    cycles of the chapter are not used up, before the continuity node
    there was one at least. *)
Definition nodeSound (m : nat) (node : Route) (s : BookState) : Prop :=
  bookSound m s /\
  match node with
  | toWriter | toEditor => (editCount s < Nat.max 1 m)%nat
  | toContinuity => (1 <= editCount s <= Nat.max 1 m)%nat
  | toPlanner | toEnd => True
  end.

(** The chapter that the continuity node makes of the state, with the
    given summary. *)
Definition completedChapter (state : BookState) (plan : DetailedChapterPlan) (summary : jstr)
    : ChapterContent :=
  mkChapter (Z.of_nat (currentChapter state)) (planTitle plan) (currentDraft state)
    (countWords (currentDraft state)) summary (editCount state) true.

End GraphShape.

(** ** A sample book *)

Module GraphSamples.
Import Text Aux Data Effects Graph Samples.

(** A registry with a model for every role. *)
Definition allModels : ModelRole -> ModelEntry := fun _ => modelReady.

(** No review comes: [interrupt] pauses the graph. *)
Definition noReviewer : nat -> Review := fun _ => reviewPending.


(** A book of one planned chapter of ten words, about to be written,
    with three edit cycles and no human review. *)
Definition freshBook : BookState :=
  mkBook 3 false phaseWriting 1 (Some [samplePlan 1 10])
    (Some (mkDetailed 1 (js "Title") 10)) [] None 0 [] [] [] [] 0 [].


(** The tolerance 0.15 of the writer node. *)
Definition writerTolerance (target : Z) : nat := Z.to_nat (target * 85 / 100).

(** The replies of a chapter in the graph whose editor rejects the
    draft three times: draft, quick summary and edit, three times, then
    the rolling summary. *)
Definition threeRejections : list Reply :=
  [TextReply (wordsText 9); TextReply (js "summary"); rejection;
   TextReply (wordsText 9); TextReply (js "summary"); rejection;
   TextReply (wordsText 9); TextReply (js "summary"); rejection;
   TextReply (js "story so far")].

End GraphSamples.

(** * Facts about strings *)

Section TextFacts.
Import Text Aux.

Lemma ltrim_app (a b : jstr) :
  ltrim (a ++ b) = if allSpace a then ltrim b else ltrim a ++ b.
Proof.
  induction a as [|c a IH]; simpl; [reflexivity|].
  destruct (isSpace c); simpl; [exact IH|reflexivity].
Qed.

Lemma ltrim_nil_iff (a : jstr) : ltrim a = [] <-> allSpace a = true.
Proof.
  induction a as [|c a IH]; simpl; [tauto|].
  destruct (isSpace c); simpl; [exact IH|split; discriminate].
Qed.

Lemma allSpace_rev (a : jstr) : allSpace (rev a) = allSpace a.
Proof.
  unfold allSpace. induction a as [|c a IH]; simpl; [reflexivity|].
  rewrite forallb_app, IH. simpl. rewrite andb_true_r. apply andb_comm.
Qed.

Lemma rtrim_app (a b : jstr) :
  rtrim (a ++ b) = if allSpace b then rtrim a else a ++ rtrim b.
Proof.
  unfold rtrim. rewrite rev_app_distr, ltrim_app, allSpace_rev.
  destruct (allSpace b); [reflexivity|].
  rewrite rev_app_distr, rev_involutive. reflexivity.
Qed.

Lemma rtrim_nil_iff (a : jstr) : rtrim a = [] <-> allSpace a = true.
Proof.
  unfold rtrim. rewrite <- (allSpace_rev a), <- ltrim_nil_iff.
  split; intros E.
  - apply (f_equal (@rev N)) in E. rewrite rev_involutive in E. exact E.
  - rewrite E. reflexivity.
Qed.

(** A text is its leading white space, then what [ltrim] leaves. *)
Lemma ltrim_split (s : jstr) :
  exists a, s = a ++ ltrim s /\ allSpace a = true.
Proof.
  induction s as [|c s [a [E A]]]; simpl.
  - exists []. split; reflexivity.
  - destruct (isSpace c) eqn:C.
    + exists (c :: a). simpl. rewrite <- E. unfold allSpace in *. simpl. rewrite C, A. split; reflexivity.
    + exists []. split; reflexivity.
Qed.

Lemma ltrim_head (s : jstr) :
  ltrim s = [] \/ exists c t, ltrim s = c :: t /\ isSpace c = false.
Proof.
  induction s as [|c s IH]; simpl; [left; reflexivity|].
  destruct (isSpace c) eqn:C; [exact IH|].
  right. exists c, s. split; [reflexivity|exact C].
Qed.

Lemma ltrim_fixed (c : N) (t : jstr) : isSpace c = false -> ltrim (c :: t) = c :: t.
Proof. intros C. simpl. rewrite C. reflexivity. Qed.

Lemma ltrim_idem (s : jstr) : ltrim (ltrim s) = ltrim s.
Proof.
  destruct (ltrim_head s) as [E|[c [t [E C]]]]; rewrite E; [reflexivity|].
  apply ltrim_fixed, C.
Qed.

Lemma rtrim_cons_nonspace (c : N) (t : jstr) :
  isSpace c = false -> rtrim (c :: t) = c :: rtrim t.
Proof.
  intros C. change (c :: t) with ([c] ++ t). rewrite rtrim_app.
  destruct (allSpace t) eqn:A.
  - apply rtrim_nil_iff in A. rewrite A. unfold rtrim. simpl. rewrite C. reflexivity.
  - reflexivity.
Qed.

Lemma ltrim_rtrim (s : jstr) : ltrim (rtrim s) = rtrim (ltrim s).
Proof.
  destruct (ltrim_split s) as [a [E A]].
  destruct (ltrim_head s) as [E0|[c [t [E0 C]]]].
  - rewrite E0. apply ltrim_nil_iff in E0. apply rtrim_nil_iff in E0. rewrite E0. reflexivity.
  - rewrite E0 in *. rewrite E at 1. rewrite rtrim_app.
    assert (allSpace (c :: t) = false) as NA by (unfold allSpace; simpl; rewrite C; reflexivity).
    rewrite NA, ltrim_app, A, (rtrim_cons_nonspace c t C). apply ltrim_fixed, C.
Qed.

Lemma rtrim_idem (s : jstr) : rtrim (rtrim s) = rtrim s.
Proof.
  unfold rtrim. rewrite rev_involutive, ltrim_idem. reflexivity.
Qed.

Lemma trim_idem (s : jstr) : trim (trim s) = trim s.
Proof.
  unfold trim. rewrite ltrim_rtrim, ltrim_idem, rtrim_idem. reflexivity.
Qed.

Lemma trim_ltrim (s : jstr) : trim (ltrim s) = trim s.
Proof. unfold trim. rewrite ltrim_idem. reflexivity. Qed.

Lemma trim_rtrim (s : jstr) : trim (rtrim s) = trim s.
Proof. unfold trim. rewrite ltrim_rtrim, rtrim_idem. reflexivity. Qed.

End TextFacts.

Section ParagraphFacts.
Import Text Aux.

Lemma splitParaGo_cons (b : bool) (s : jstr) :
  exists p ps, splitParaGo b s = p :: ps.
Proof.
  revert b. induction s as [|c s IH]; intros b; simpl; [eauto|].
  destruct (isNL c); [destruct b; [apply IH|destruct (startsNL s); [eauto|]]|];
    destruct (IH false) as [p [ps E]]; rewrite E; simpl; eauto.
Qed.

(** After a separator the scan is back in a paragraph when the text does
    not go on with a line feed. *)
Lemma splitParaGo_skip (s : jstr) :
  startsNL s = false -> splitParaGo true s = splitParaGo false s.
Proof.
  destruct s as [|c s]; simpl; [reflexivity|].
  intros C. rewrite C. reflexivity.
Qed.

Lemma splitPara_head (s p : jstr) (ps : list jstr) :
  startsNL s = false -> splitPara s = p :: ps -> startsNL p = false.
Proof.
  unfold splitPara. destruct s as [|c s]; simpl.
  - intros _ E. injection E as <- _. reflexivity.
  - intros C. rewrite C. destruct (splitParaGo_cons false s) as [q [qs E]]. rewrite E. simpl.
    intros E'. injection E' as <- _. exact C.
Qed.

Lemma splitPara_head_nil (s : jstr) (ps : list jstr) :
  splitPara s = [] :: ps -> ps <> [] -> startsNL s = true.
Proof.
  unfold splitPara. destruct s as [|c s]; simpl.
  - intros E. injection E as <-. congruence.
  - destruct (isNL c); [reflexivity|].
    destruct (splitParaGo_cons false s) as [q [qs E]]. rewrite E. simpl. discriminate.
Qed.

Lemma single_nil : single [].
Proof. reflexivity. Qed.

Lemma single_cons (c : N) (p : jstr) :
  single p -> (isNL c = true -> startsNL p = false) -> single (c :: p).
Proof.
  unfold single, splitPara. intros E H. simpl.
  destruct (isNL c); [rewrite (H eq_refl)|]; rewrite E; reflexivity.
Qed.

Lemma single_inv (c : N) (p : jstr) :
  single (c :: p) -> single p /\ (isNL c = true -> startsNL p = false).
Proof.
  unfold single, splitPara. simpl.
  destruct (splitParaGo_cons false p) as [q [qs E]].
  destruct (isNL c).
  - destruct (startsNL p); [discriminate|].
    rewrite E. simpl. intros E'. injection E' as -> ->. auto.
  - rewrite E. simpl. intros E'. injection E' as -> ->. split; [reflexivity|discriminate].
Qed.

Lemma single_suffix (a b : jstr) : single (a ++ b) -> single b.
Proof.
  induction a as [|c a IH]; simpl; [auto|].
  intros H. apply IH. apply (single_inv c), H.
Qed.

Lemma startsNL_app (a b : jstr) : a <> [] -> startsNL (a ++ b) = startsNL a.
Proof. destruct a; [congruence|reflexivity]. Qed.

Lemma single_prefix (a b : jstr) : single (a ++ b) -> single a.
Proof.
  induction a as [|c a IH]; simpl; [intros _; apply single_nil|].
  intros H. apply single_inv in H as [H1 H2].
  apply single_cons; [apply IH, H1|].
  intros C. destruct a as [|d a]; [reflexivity|].
  rewrite <- (H2 C). symmetry. apply startsNL_app. discriminate.
Qed.

Lemma endsNL_app (a b : jstr) : b <> [] -> endsNL (a ++ b) = endsNL b.
Proof.
  intros Hb. unfold endsNL. rewrite rev_app_distr. apply startsNL_app.
  intros E. apply Hb. apply (f_equal (@rev N)) in E. rewrite rev_involutive in E. exact E.
Qed.

Lemma endsNL_cons (c : N) (p : jstr) : p <> [] -> endsNL (c :: p) = endsNL p.
Proof. intros Hp. apply (endsNL_app [c] p Hp). Qed.

(** No paragraph of a split holds a separator. *)
Lemma splitParaGo_single (b : bool) (s : jstr) : Forall single (splitParaGo b s).
Proof.
  revert b. induction s as [|c s IH]; intros b; simpl.
  - repeat constructor.
  - assert (Forall single (consFirst c (splitParaGo false s)) \/ isNL c = true /\ startsNL s = true) as K.
    { destruct (isNL c) eqn:C, (startsNL s) eqn:St; try (right; split; reflexivity); left;
        destruct (splitParaGo_cons false s) as [q [qs E]]; specialize (IH false);
        rewrite E in *; simpl; inversion IH; subst; constructor; trivial;
        apply single_cons; trivial; intros C'; try congruence;
        eapply splitPara_head; eauto. }
    destruct (isNL c) eqn:C.
    + destruct b; [apply IH|].
      destruct (startsNL s) eqn:St.
      * constructor; [apply single_nil|apply IH].
      * destruct K as [K|[_ K]]; [exact K|discriminate].
    + destruct K as [K|[K _]]; [exact K|discriminate].
Qed.

(** Only the last paragraph of a split may end with a line feed. *)
Lemma splitParaGo_ends (b : bool) (s : jstr) :
  Forall (fun p => endsNL p = false) (removelast (splitParaGo b s)).
Proof.
  revert b. induction s as [|c s IH]; intros b.
  - simpl. constructor.
  - assert (isNL c = false \/ startsNL s = false ->
            Forall (fun p => endsNL p = false) (removelast (consFirst c (splitParaGo false s)))) as K.
    { intros HC. specialize (IH false).
      destruct (splitParaGo_cons false s) as [q [qs E]]. rewrite E in *. simpl consFirst.
      destruct qs as [|q' qs]; [constructor|].
      change (removelast ((c :: q) :: q' :: qs)) with ((c :: q) :: removelast (q' :: qs)).
      change (removelast (q :: q' :: qs)) with (q :: removelast (q' :: qs)) in IH.
      inversion IH; subst. constructor; trivial.
      destruct q as [|d q].
      - assert (startsNL s = true) as St by (eapply splitPara_head_nil; [exact E|discriminate]).
        destruct HC as [HC|HC]; [|congruence].
        unfold endsNL. simpl. exact HC.
      - rewrite endsNL_cons by discriminate. trivial. }
    simpl. destruct (isNL c) eqn:C.
    + destruct b; [apply IH|].
      destruct (startsNL s) eqn:St.
      * specialize (IH true). destruct (splitParaGo_cons true s) as [q [qs E]]. rewrite E in *.
        change (removelast ([] :: q :: qs)) with ([] :: removelast (q :: qs)).
        constructor; [reflexivity|exact IH].
      * apply K. right. reflexivity.
    + apply K. left. reflexivity.
Qed.

(** Only the first paragraph of a split may start with a line feed, and
    after a separator no paragraph does. *)
Lemma splitParaGo_starts (b : bool) (s : jstr) :
  (b = true -> Forall (fun p => startsNL p = false) (splitParaGo b s)) /\
  Forall (fun p => startsNL p = false) (tail (splitParaGo b s)).
Proof.
  revert b. induction s as [|c s IH]; intros b.
  - simpl. split; intros; repeat constructor.
  - assert (Forall (fun p => startsNL p = false) (tail (consFirst c (splitParaGo false s)))) as K.
    { destruct (IH false) as [_ IH2]. destruct (splitParaGo_cons false s) as [q [qs E]].
      rewrite E in *. exact IH2. }
    simpl. destruct (isNL c) eqn:C.
    + destruct b; [apply IH|].
      split; [discriminate|].
      destruct (startsNL s); [|exact K].
      simpl. apply IH. reflexivity.
    + split; [|exact K].
      intros _. destruct (splitParaGo_cons false s) as [q [qs E]]. rewrite E in *.
      simpl in *. constructor; [exact C|exact K].
Qed.

(** Only the first and the last paragraph of a split may be empty. *)
Lemma splitParaGo_nonempty (b : bool) (s : jstr) :
  (b = true -> Forall (fun p => p <> []) (removelast (splitParaGo b s))) /\
  Forall (fun p => p <> []) (removelast (tail (splitParaGo b s))).
Proof.
  revert b. induction s as [|c s IH]; intros b.
  - simpl. split; intros; repeat constructor.
  - assert (Forall (fun p => p <> []) (removelast (tail (consFirst c (splitParaGo false s))))) as K.
    { destruct (IH false) as [_ IH2]. destruct (splitParaGo_cons false s) as [q [qs E]].
      rewrite E in *. exact IH2. }
    simpl. destruct (isNL c) eqn:C.
    + destruct b; [apply IH|].
      split; [discriminate|].
      destruct (startsNL s); [|exact K].
      simpl. apply IH. reflexivity.
    + split; [|exact K].
      intros _. destruct (splitParaGo_cons false s) as [q [qs E]]. rewrite E in *.
      simpl consFirst in *. destruct qs as [|q' qs]; [constructor|].
      change (removelast ((c :: q) :: q' :: qs)) with ((c :: q) :: removelast (q' :: qs)).
      constructor; [discriminate|exact K].
Qed.

Lemma splitPara_wf (s : jstr) : wfParas (splitPara s).
Proof.
  unfold wfParas, splitPara. repeat split.
  - destruct (splitParaGo_cons false s) as [q [qs E]]. rewrite E. discriminate.
  - apply splitParaGo_single.
  - apply splitParaGo_ends.
  - apply splitParaGo_starts.
  - apply splitParaGo_nonempty.
Qed.

End ParagraphFacts.

Section JoinFacts.
Import Text Aux Refusal.

Lemma join_cons2 (sep p q : jstr) (rest : list jstr) :
  join sep (p :: q :: rest) = p ++ sep ++ join sep (q :: rest).
Proof. reflexivity. Qed.

(** A paragraph, a separator, then a text that does not start with a
    line feed: the split finds the paragraph. *)
Lemma splitParaGo_app_sep (p r : jstr) :
  single p -> endsNL p = false -> startsNL r = false ->
  splitParaGo false (p ++ LF :: LF :: r) = p :: splitParaGo false r.
Proof.
  induction p as [|c p IH]; intros Hs He Hr.
  - simpl. change (isNL LF) with true. simpl. rewrite splitParaGo_skip by exact Hr. reflexivity.
  - apply single_inv in Hs as [Hs Hc].
    assert (isNL c = true -> p <> []) as Hp.
    { intros C ->. unfold endsNL in He. simpl in He. congruence. }
    assert (endsNL p = false) as He'.
    { destruct p as [|d p]; [reflexivity|]. rewrite <- He. symmetry. apply endsNL_cons. discriminate. }
    rewrite <- app_comm_cons. simpl splitParaGo. rewrite (IH Hs He' Hr).
    destruct (isNL c) eqn:C; [|reflexivity].
    rewrite startsNL_app by (apply Hp; reflexivity).
    rewrite (Hc eq_refl). reflexivity.
Qed.

Lemma startsNL_join (q : jstr) (rest : list jstr) :
  startsNL q = false -> (q = [] -> rest = []) -> startsNL (join PARA_SEP (q :: rest)) = false.
Proof.
  intros Hq Hn. destruct rest as [|q' rest]; [exact Hq|].
  rewrite join_cons2. destruct q as [|c q]; [specialize (Hn eq_refl); discriminate|].
  exact Hq.
Qed.

Lemma wfParas_one (p : jstr) : single p -> wfParas [p].
Proof. intros H. repeat split; simpl; try constructor; trivial. discriminate. Qed.

Lemma wfParas_inv (p q : jstr) (rest : list jstr) :
  wfParas (p :: q :: rest) ->
  single p /\ endsNL p = false /\ startsNL q = false /\ (q = [] -> rest = []) /\
  wfParas (q :: rest).
Proof.
  intros (_ & Hs & He & Hst & Hn).
  change (removelast (p :: q :: rest)) with (p :: removelast (q :: rest)) in He.
  simpl tail in Hst, Hn.
  inversion Hs; subst. inversion He; subst. inversion Hst; subst.
  repeat split; trivial; try discriminate.
  - intros ->. destruct rest as [|q' rest]; [reflexivity|].
    change (removelast ([] :: q' :: rest)) with ([] :: removelast (q' :: rest)) in Hn.
    inversion Hn; subst. congruence.
  - destruct rest as [|q' rest]; [constructor|].
    change (removelast (q :: q' :: rest)) with (q :: removelast (q' :: rest)) in Hn.
    inversion Hn; subst. simpl tail.
    destruct rest as [|q'' rest]; [constructor|].
    change (removelast (q' :: q'' :: rest)) with (q' :: removelast (q'' :: rest)) in *.
    match goal with H : Forall _ (q' :: _) |- _ => inversion H; subst end.
    assumption.
Qed.

(** The split of a join of well-formed paragraphs gives them back. *)
Lemma splitPara_join (L : list jstr) : wfParas L -> splitPara (join PARA_SEP L) = L.
Proof.
  induction L as [|p L IH]; intros H; [destruct H; congruence|].
  destruct L as [|q rest].
  - destruct H as (_ & Hs & _). inversion Hs; subst. assumption.
  - apply wfParas_inv in H as (Hs & He & Hq & Hn & Hw).
    rewrite join_cons2. unfold splitPara, PARA_SEP. simpl app.
    rewrite splitParaGo_app_sep; trivial.
    + f_equal. apply IH, Hw.
    + apply startsNL_join; trivial.
Qed.

End JoinFacts.

Section TrimParagraphs.
Import Text Aux Refusal.

Lemma wfParas_cons (p q : jstr) (rest : list jstr) :
  single p -> endsNL p = false -> startsNL q = false -> (q = [] -> rest = []) ->
  wfParas (q :: rest) -> wfParas (p :: q :: rest).
Proof.
  intros Hs He Hq Hn (_ & Hs' & He' & Hst' & Hn').
  repeat split; try discriminate.
  - constructor; trivial.
  - change (removelast (p :: q :: rest)) with (p :: removelast (q :: rest)).
    constructor; trivial.
  - simpl. constructor; trivial.
  - simpl tail. destruct rest as [|q' rest]; [constructor|].
    change (removelast (q :: q' :: rest)) with (q :: removelast (q' :: rest)).
    constructor; [intros ->; specialize (Hn eq_refl); discriminate|exact Hn'].
Qed.

Lemma In_removelast {A : Type} (x : A) (l : list A) : In x (removelast l) -> In x l.
Proof.
  induction l as [|a l IH]; simpl; [tauto|].
  destruct l; [simpl; tauto|]. intros [->|H]; [left; reflexivity|right; apply IH, H].
Qed.

Lemma In_removelast_tail {A : Type} (x : A) (l : list A) :
  In x (removelast (tail l)) -> In x (removelast l).
Proof.
  destruct l as [|a l]; simpl; [tauto|].
  destruct l; [simpl; tauto|]. intros H. right. exact H.
Qed.

Lemma removelast_filter {A : Type} (f : A -> bool) (x : A) (l : list A) :
  In x (removelast (List.filter f l)) -> In x (removelast l).
Proof.
  induction l as [|a l IH]; simpl; [tauto|].
  destruct (f a) eqn:F.
  - destruct (List.filter f l) as [|b k] eqn:E; [simpl; tauto|].
    destruct l as [|a' l]; [discriminate|].
    change (removelast (a :: b :: k)) with (a :: removelast (b :: k)).
    intros [->|H]; [left; reflexivity|right; apply IH, H].
  - intros H. destruct l as [|a' l]; [simpl in H; tauto|].
    right. apply IH, H.
Qed.

Lemma tail_filter {A : Type} (f : A -> bool) (x : A) (l : list A) :
  In x (tail (List.filter f l)) -> In x (tail l).
Proof.
  induction l as [|a l IH]; simpl; [tauto|].
  destruct (f a); simpl.
  - intros H. apply filter_In in H. tauto.
  - intros H. apply IH in H. destruct l; simpl in *; tauto.
Qed.

Lemma middle_filter {A : Type} (f : A -> bool) (x : A) (l : list A) :
  In x (removelast (tail (List.filter f l))) -> In x (removelast (tail l)).
Proof.
  induction l as [|a l IH]; simpl; [tauto|].
  destruct (f a); simpl.
  - apply removelast_filter.
  - intros H. apply IH in H. apply In_removelast_tail, H.
Qed.

(** Dropping paragraphs keeps the rest well formed. *)
Lemma wfParas_filter (f : jstr -> bool) (L : list jstr) :
  wfParas L -> List.filter f L <> [] -> wfParas (List.filter f L).
Proof.
  intros (_ & Hs & He & Hst & Hn) Hne. rewrite List.Forall_forall in *.
  repeat split; trivial; rewrite List.Forall_forall; intros x Hx.
  - apply Hs. apply filter_In in Hx. tauto.
  - apply He. eapply removelast_filter, Hx.
  - apply Hst. eapply tail_filter, Hx.
  - apply Hn. eapply middle_filter, Hx.
Qed.

Lemma isEmpty_true (s : jstr) : isEmpty s = true <-> s = [].
Proof. destruct s; simpl; split; congruence. Qed.

Lemma ltrim_join (L : list jstr) :
  ltrim (join PARA_SEP L) = join PARA_SEP (ltrimP L).
Proof.
  induction L as [|p L IH]; [reflexivity|].
  destruct L as [|q rest].
  - simpl. destruct (ltrim p); reflexivity.
  - rewrite join_cons2, ltrim_app.
    change (ltrimP (p :: q :: rest)) with
      (if isEmpty (ltrim p) then ltrimP (q :: rest) else ltrim p :: q :: rest).
    destruct (allSpace p) eqn:A.
    + apply ltrim_nil_iff in A. rewrite A. simpl isEmpty. cbv iota. rewrite <- IH. reflexivity.
    + destruct (ltrim p) as [|c t] eqn:E.
      * apply ltrim_nil_iff in E. congruence.
      * reflexivity.
Qed.

Lemma rtrimP_join_nonempty (L : list jstr) :
  rtrimP L <> [] -> join PARA_SEP (rtrimP L) <> [].
Proof.
  destruct L as [|p L]; simpl; [congruence|].
  destruct (rtrimP L) as [|q l].
  - destruct (rtrim p) eqn:E; simpl; [congruence|discriminate].
  - intros _. rewrite join_cons2. unfold PARA_SEP. intros H.
    apply app_eq_nil in H as [_ H]. discriminate.
Qed.

Lemma rtrim_join (L : list jstr) :
  rtrim (join PARA_SEP L) = join PARA_SEP (rtrimP L).
Proof.
  induction L as [|p L IH]; [reflexivity|].
  destruct L as [|q rest].
  - simpl. destruct (rtrim p); reflexivity.
  - rewrite join_cons2, rtrim_app.
    assert (allSpace (PARA_SEP ++ join PARA_SEP (q :: rest)) = allSpace (join PARA_SEP (q :: rest)))
      as -> by reflexivity.
    change (rtrimP (p :: q :: rest)) with
      (match rtrimP (q :: rest) with
       | [] => if isEmpty (rtrim p) then [] else [rtrim p]
       | l => p :: l
       end).
    destruct (rtrimP (q :: rest)) as [|q' l] eqn:E.
    + change (join PARA_SEP []) with (@nil N) in IH. apply rtrim_nil_iff in IH. rewrite IH.
      destruct (rtrim p); reflexivity.
    + assert (allSpace (join PARA_SEP (q :: rest)) = false) as A.
      { destruct (allSpace (join PARA_SEP (q :: rest))) eqn:A; [|reflexivity].
        apply rtrim_nil_iff in A. rewrite IH in A.
        exfalso. revert A. rewrite <- E. apply rtrimP_join_nonempty. rewrite E. discriminate. }
      rewrite A. rewrite rtrim_app, A, IH. reflexivity.
Qed.

Lemma ltrim_suffix (p : jstr) : exists a, p = a ++ ltrim p.
Proof. destruct (ltrim_split p) as [a [E _]]. eauto. Qed.

Lemma rtrim_prefix (p : jstr) : exists b, p = rtrim p ++ b.
Proof.
  destruct (ltrim_suffix (rev p)) as [a E]. exists (rev a).
  unfold rtrim. rewrite <- rev_app_distr, <- E, rev_involutive. reflexivity.
Qed.

Lemma wfParas_ltrimP (L : list jstr) :
  wfParas L -> ltrimP L <> [] -> wfParas (ltrimP L).
Proof.
  induction L as [|p L IH]; intros H Hne; [destruct H; congruence|].
  simpl in *. destruct (ltrim p) as [|c t] eqn:E; simpl in *.
  - destruct L as [|q rest]; [simpl in Hne; congruence|].
    apply IH; trivial. apply wfParas_inv in H. tauto.
  - destruct (ltrim_suffix p) as [a Ea]. rewrite E in Ea.
    destruct L as [|q rest].
    + apply wfParas_one. destruct H as (_ & Hs & _). inversion Hs; subst.
      eapply single_suffix. eassumption.
    + apply wfParas_inv in H as (Hs & He & Hq & Hn & Hw).
      apply wfParas_cons; trivial.
      * rewrite Ea in Hs. eapply single_suffix, Hs.
      * rewrite Ea in He. rewrite endsNL_app in He by discriminate. exact He.
Qed.

Lemma rtrimP_head (q : jstr) (rest : list jstr) (q' : jstr) (l : list jstr) :
  rtrimP (q :: rest) = q' :: l ->
  (q' = q /\ l <> []) \/ (q' = rtrim q /\ l = [] /\ rtrim q <> []).
Proof.
  simpl. destruct (rtrimP rest) as [|r k].
  - destruct (rtrim q) eqn:E; simpl; [discriminate|].
    intros H. injection H as <- <-. right. repeat split. discriminate.
  - intros H. injection H as <- <-. left. split; [reflexivity|discriminate].
Qed.

Lemma wfParas_rtrimP (L : list jstr) :
  wfParas L -> rtrimP L <> [] -> wfParas (rtrimP L).
Proof.
  induction L as [|p L IH]; intros H Hne; [destruct H; congruence|].
  change (rtrimP (p :: L)) with
    (match rtrimP L with
     | [] => if isEmpty (rtrim p) then [] else [rtrim p]
     | l => p :: l
     end) in *.
  destruct (rtrimP L) as [|q' l] eqn:E.
  - destruct (rtrim p) as [|c t] eqn:Ep; simpl in *; [congruence|].
    apply wfParas_one. destruct (rtrim_prefix p) as [b Eb]. rewrite Ep in Eb.
    destruct H as (_ & Hs & _). apply Forall_inv in Hs. rewrite Eb in Hs.
    eapply single_prefix, Hs.
  - destruct L as [|q rest]; [discriminate|].
    apply wfParas_inv in H as (Hs & He & Hq & Hn & Hw).
    assert (wfParas (q' :: l)) as Hw' by (apply IH; [exact Hw|discriminate]).
    destruct (rtrimP_head _ _ _ _ E) as [[-> Hl]|(-> & -> & Hr)].
    + apply wfParas_cons; trivial.
      intros ->. specialize (Hn eq_refl). subst rest. discriminate E.
    + apply wfParas_cons; trivial.
      destruct (rtrim_prefix q) as [b Eb]. rewrite Eb in Hq.
      rewrite startsNL_app in Hq by exact Hr. exact Hq.
Qed.

End TrimParagraphs.

(** * The refusal classifier *)

Section RefusalFacts.
Import Text Aux Regex Refusal.

(** Whether a paragraph is kept depends on its trimmed text only. *)
Lemma keepParagraph_trim (a b : jstr) :
  trim a = trim b -> keepParagraph a = keepParagraph b.
Proof. intros E. unfold keepParagraph. rewrite E. reflexivity. Qed.

Lemma keep_ltrimP (L : list jstr) :
  Forall (fun p => keepParagraph p = true) L ->
  Forall (fun p => keepParagraph p = true) (ltrimP L).
Proof.
  induction 1 as [|p L Hp HL IH]; simpl; [constructor|].
  destruct (isEmpty (ltrim p)); [exact IH|].
  constructor; [|exact HL].
  rewrite <- Hp. apply keepParagraph_trim, trim_ltrim.
Qed.

Lemma keep_rtrimP (L : list jstr) :
  Forall (fun p => keepParagraph p = true) L ->
  Forall (fun p => keepParagraph p = true) (rtrimP L).
Proof.
  induction 1 as [|p L Hp HL IH]; simpl; [constructor|].
  destruct (rtrimP L) as [|q l].
  - destruct (isEmpty (rtrim p)); constructor; [|constructor].
    rewrite <- Hp. apply keepParagraph_trim, trim_rtrim.
  - constructor; assumption.
Qed.

Lemma filter_all {A : Type} (f : A -> bool) (l : list A) :
  Forall (fun x => f x = true) l -> List.filter f l = l.
Proof.
  induction 1 as [|x l Hx Hl IH]; simpl; [reflexivity|].
  rewrite Hx, IH. reflexivity.
Qed.

Lemma filter_kept {A : Type} (f : A -> bool) (l : list A) :
  Forall (fun x => f x = true) (List.filter f l).
Proof.
  apply List.Forall_forall. intros x Hx. apply filter_In in Hx. tauto.
Qed.

(** A trimmed join of kept, well-formed paragraphs is left as it is. *)
Lemma stripRefusalContent_fixed (L : list jstr) :
  L = [] \/ wfParas L ->
  Forall (fun p => keepParagraph p = true) L ->
  stripRefusalContent (trim (join PARA_SEP L)) = trim (join PARA_SEP L).
Proof.
  intros Hwf Hk. unfold stripRefusalContent. rewrite trim_idem.
  destruct (isEmpty (trim (join PARA_SEP L))) eqn:E; [reflexivity|].
  assert (trim (join PARA_SEP L) = join PARA_SEP (rtrimP (ltrimP L))) as ET.
  { unfold trim. rewrite ltrim_join, rtrim_join. reflexivity. }
  rewrite ET in *.
  assert (rtrimP (ltrimP L) <> []) as N2 by (intros E0; rewrite E0 in E; discriminate).
  assert (ltrimP L <> []) as N1 by (intros E0; rewrite E0 in N2; apply N2; reflexivity).
  assert (wfParas L) as W by (destruct Hwf as [->|W]; [exfalso; apply N1; reflexivity|exact W]).
  rewrite splitPara_join by (apply wfParas_rtrimP; [apply wfParas_ltrimP|]; assumption).
  rewrite filter_all by (apply keep_rtrimP, keep_ltrimP, Hk).
  rewrite <- ET. apply trim_idem.
Qed.

(** C4. [stripRefusalContent] (the scrub of the specification) is
    idempotent: scrubbing a scrubbed text changes nothing. *)
Theorem stripRefusalContent_idempotent (x : jstr) :
  stripRefusalContent (stripRefusalContent x) = stripRefusalContent x.
Proof.
  unfold stripRefusalContent at 2 3.
  destruct (isEmpty (trim x)) eqn:E.
  - unfold stripRefusalContent. rewrite E. reflexivity.
  - apply stripRefusalContent_fixed; [|apply filter_kept].
    destruct (List.filter keepParagraph (splitPara x)) eqn:EL; [left; reflexivity|].
    right. rewrite <- EL. apply wfParas_filter; [apply splitPara_wf|].
    rewrite EL. discriminate.
Qed.

End RefusalFacts.

Section ClassifierFacts.
Import Text Aux Regex Refusal.

(** Two entries of a list pass a test that two or more entries pass. *)
Lemma filter_two {A : Type} (f : A -> bool) (l : list A) :
  (2 <= List.length (List.filter f l))%nat ->
  exists i j p q, (i < j)%nat /\ nth_error l i = Some p /\ nth_error l j = Some q /\
                  f p = true /\ f q = true.
Proof.
  induction l as [|a l IH]; simpl; [lia|].
  destruct (f a) eqn:Fa; simpl.
  - intros H. destruct (List.filter f l) as [|b k] eqn:E; [simpl in H; lia|].
    assert (In b (List.filter f l)) as Hb by (rewrite E; left; reflexivity).
    apply filter_In in Hb as [Hb Fb]. apply In_nth_error in Hb as [j Hj].
    exists 0%nat, (S j), a, b. repeat split; trivial. lia.
  - intros H. destruct (IH H) as (i & j & p & q & Hij & Hi & Hj & Fp & Fq).
    exists (S i), (S j), p, q. repeat split; trivial. lia.
Qed.

Lemma matchCount_eq (s : jstr) :
  matchCount s = List.length (List.filter (fun p => test true p s) REFUSAL_PATTERNS).
Proof. reflexivity. Qed.

Lemma matchCount_two (s : jstr) :
  (2 <= matchCount s)%nat ->
  exists i j p q, (i < j)%nat /\
    nth_error REFUSAL_PATTERNS i = Some p /\ nth_error REFUSAL_PATTERNS j = Some q /\
    test true p s = true /\ test true q s = true.
Proof. rewrite matchCount_eq. apply filter_two. Qed.

Lemma matchCount_nil : matchCount [] = 0%nat.
Proof. vm_compute. reflexivity. Qed.

Lemma refusalHead_nil (text : jstr) : trim text = [] -> refusalHead text = [].
Proof. unfold refusalHead. intros ->. reflexivity. Qed.

(** The places of [REFUSAL_PATTERNS] whose pattern matches the text. *)
Lemma matching_count (s : jstr) : List.length (matching s) = matchCount s.
Proof.
  unfold matching, matchCount.
  generalize 0%nat. induction REFUSAL_PATTERNS as [|p l IH]; intros i; [reflexivity|].
  cbn [matchingFrom List.filter]. destruct (test true p s); cbn [List.length]; rewrite IH;
    reflexivity.
Qed.

(** C3, as amended.  [detectRefusal] reports a refusal exactly when two
    or more entries of [REFUSAL_PATTERNS] match the head of the text (the
    first 500 code units of the trimmed text, quotes normalized); then
    two entries at two places of the list match it, and the cleaned text
    is what [stripRefusalPreamble] leaves of the trimmed text.  A text
    whose head at most one entry matches is not a refusal and comes back
    trimmed and otherwise unchanged.  The entries are not independent:
    the one phrase 'I can still help' is matched by the entries at the
    places 34 and 35 and by no other, so that a line of dialogue that
    holds this phrase and no other is a refusal. *)
Theorem detectRefusal_needs_two_patterns :
  (forall text,
     isRefusal (detectRefusal text) = true <-> (2 <= matchCount (refusalHead text))%nat) /\
  (forall text,
     isRefusal (detectRefusal text) = true ->
     (exists i j p q, (i < j)%nat /\
        nth_error REFUSAL_PATTERNS i = Some p /\ nth_error REFUSAL_PATTERNS j = Some q /\
        test true p (refusalHead text) = true /\ test true q (refusalHead text) = true) /\
     cleanedText (detectRefusal text) = stripRefusalPreamble (trim text)) /\
  (forall text,
     (matchCount (refusalHead text) <= 1)%nat ->
     detectRefusal text = mkRefusalResult false (trim text)) /\
  (matching (js "I can still help") = [34%nat; 35%nat] /\
   matching (refusalHead offerInDialogue) = [34%nat; 35%nat] /\
   isRefusal (detectRefusal offerInDialogue) = true).
Proof.
  assert (forall text, isRefusal (detectRefusal text) = true <->
                       (2 <= matchCount (refusalHead text))%nat) as K.
  { intros text. unfold detectRefusal. destruct (isEmpty (trim text)) eqn:E.
    - apply isEmpty_true in E. rewrite (refusalHead_nil _ E), matchCount_nil. cbn [isRefusal].
      split; [discriminate|lia].
    - fold (refusalHead text).
      destruct (matchCount (refusalHead text) <? 2)%nat eqn:C; cbn [isRefusal].
      + apply Nat.ltb_lt in C. split; [discriminate|lia].
      + apply Nat.ltb_ge in C. tauto. }
  split; [exact K|]. split; [|split].
  - intros text H. split; [apply matchCount_two, K, H|].
    revert H. unfold detectRefusal. destruct (isEmpty (trim text)); [discriminate|].
    fold (refusalHead text). destruct (_ <? _)%nat; [discriminate|reflexivity].
  - intros text H. unfold detectRefusal. destruct (isEmpty (trim text)) eqn:E.
    + apply isEmpty_true in E. rewrite E. reflexivity.
    + fold (refusalHead text).
      assert ((matchCount (refusalHead text) <? 2)%nat = true) as C.
      { apply Nat.ltb_lt. lia. }
      rewrite C. reflexivity.
  - vm_compute. repeat split.
Qed.

(** C3, the claim as stated fails: a story opens with a line of
    dialogue that holds one phrase of a refusal, 'I can still help', and
    nothing else of one.  Two entries match the phrase, the text is
    classified as a refusal, and the paragraph of the dialogue is lost
    from the cleaned text. *)
Lemma one_phrase_in_dialogue_is_a_refusal :
  matching (refusalHead storyWithOffer) = [34%nat; 35%nat] /\
  matchCount (refusalHead storyWithOffer) = 2%nat /\
  isRefusal (detectRefusal storyWithOffer) = true /\
  cleanedText (detectRefusal storyWithOffer) = js "The rain kept falling on the roof." /\
  cleanedText (detectRefusal storyWithOffer) <> trim storyWithOffer.
Proof. vm_compute. repeat split. discriminate. Qed.

(** An apology that opens a line of narration: one pattern matches, and
    the text is no refusal. *)
Example apology_in_prose_is_not_a_refusal :
  matchCount (refusalHead apologyInProse) = 1%nat /\
  detectRefusal apologyInProse = mkRefusalResult false (trim apologyInProse).
Proof. vm_compute. split; reflexivity. Qed.

(** An apology inside quoted dialogue: no pattern matches. *)
Example apology_in_dialogue_is_not_a_refusal :
  matchCount (refusalHead apologyInDialogue) = 0%nat /\
  isRefusal (detectRefusal apologyInDialogue) = false.
Proof. vm_compute. split; reflexivity. Qed.

(** A refusal in front of a story: classified, and the story salvaged. *)
Example refusal_with_story :
  detectRefusal (refusalWith 150) = mkRefusalResult true (trim (wordsText 150)).
Proof. vm_compute. reflexivity. Qed.

End ClassifierFacts.

(** * The token budget assembler *)

Section BudgetFacts.
Import Text Aux Budget BudgetSplit.

Lemma insertByPriority_perm (x : ContextItem) (l : list ContextItem) :
  Permutation (insertByPriority x l) (x :: l).
Proof.
  induction l as [|y l IH]; simpl; [reflexivity|].
  destruct (priority x <? priority y)%Z; [|reflexivity].
  rewrite IH. apply perm_swap.
Qed.

Lemma sortByPriority_perm (items : list ContextItem) :
  Permutation (sortByPriority items) items.
Proof.
  induction items as [|x l IH]; simpl; [reflexivity|].
  rewrite insertByPriority_perm. constructor. exact IH.
Qed.

(** The first pass takes the required items, in order, and drops none. *)
Lemma passRequired_fold (l : list ContextItem) (acc : Acc) :
  let acc' := fold_left passRequired l acc in
  included acc' = included acc ++ map key (List.filter required l) /\
  parts acc' = parts acc ++ map content (List.filter required l) /\
  dropped acc' = dropped acc.
Proof.
  revert acc. induction l as [|x l IH]; intros acc; simpl.
  - rewrite !app_nil_r. auto.
  - destruct (IH (passRequired acc x)) as (E1 & E2 & E3).
    rewrite E1, E2, E3. unfold passRequired.
    destruct (required x); simpl; rewrite <- ?app_assoc; auto.
Qed.

Lemma passOptional_fold (budget : Z) (l : list ContextItem) (acc : Acc) :
  let acc' := fold_left (passOptional budget) l acc in
  included acc' = included acc ++ map key (fitting budget (total acc) l) /\
  parts acc' = parts acc ++ map content (fitting budget (total acc) l) /\
  dropped acc' = dropped acc ++ map key (overflowing budget (total acc) l).
Proof.
  revert acc. induction l as [|x l IH]; intros acc; simpl.
  - rewrite !app_nil_r. auto.
  - destruct (IH (passOptional budget acc x)) as (E1 & E2 & E3).
    rewrite E1, E2, E3. unfold passOptional.
    destruct (required x); [auto|].
    destruct (total acc + estimateTokens (content x) <=? budget)%Z; simpl;
      rewrite <- ?app_assoc; auto.
Qed.

(** Every item is required, fitting or overflowing, and only one of these. *)
Lemma three_way (budget used : Z) (l : list ContextItem) :
  Permutation (List.filter required l ++ fitting budget used l ++ overflowing budget used l) l.
Proof.
  revert used. induction l as [|x l IH]; intros used; simpl; [reflexivity|].
  destruct (required x); simpl.
  - constructor. apply IH.
  - destruct (used + estimateTokens (content x) <=? budget)%Z; simpl.
    + rewrite <- Permutation_middle. constructor. apply IH.
    + rewrite app_assoc, <- Permutation_middle. constructor. rewrite <- app_assoc. apply IH.
Qed.

Lemma fitting_whole (budget used : Z) (l : list ContextItem) (x : ContextItem) :
  In x (fitting budget used l) -> In x l.
Proof.
  revert used. induction l as [|y l IH]; intros used; simpl; [tauto|].
  destruct (required y); [eauto|].
  destruct (used + estimateTokens (content y) <=? budget)%Z; simpl; [|eauto].
  intros [->|H]; eauto.
Qed.

Lemma buildContext_taken (items : list ContextItem) (budget : Z) :
  includedItems (buildContext items budget) = map key (taken items budget) /\
  text (buildContext items budget) = join [LF; LF] (map content (taken items budget)) /\
  droppedItems (buildContext items budget) = map key (leftOut items budget).
Proof.
  unfold buildContext, taken, leftOut. cbn [includedItems text droppedItems].
  set (sorted := sortByPriority items).
  destruct (passRequired_fold sorted (mkAcc [] [] [] 0%Z)) as (R1 & R2 & R3).
  destruct (passOptional_fold budget sorted (fold_left passRequired sorted (mkAcc [] [] [] 0%Z)))
    as (O1 & O2 & O3).
  rewrite O1, O2, O3, R1, R2, R3. cbn [included parts dropped app].
  rewrite !map_app. auto.
Qed.

Lemma taken_left_perm (items : list ContextItem) (budget : Z) :
  Permutation (taken items budget ++ leftOut items budget) items.
Proof.
  unfold taken, leftOut. rewrite <- app_assoc, three_way. apply sortByPriority_perm.
Qed.

(** C6, as amended.  Whatever the budget, every required item is among
    the included ones; every item is taken whole or dropped whole and is
    entered once, in one of the two lists: the included keys are the keys
    of the items taken, whose contents make the text, and the included
    and dropped keys together are a rearrangement of the keys of all
    items.  So a key is in one of the lists exactly when an item carries
    it, and when no two items share a key no key is in both lists. *)
Theorem buildContext_partition (items : list ContextItem) (budget : Z) :
  let r := buildContext items budget in
  (forall item, In item items -> required item = true -> In (key item) (includedItems r)) /\
  (exists chosen, (forall item, In item chosen -> In item items) /\
     includedItems r = map key chosen /\ text r = join [LF; LF] (map content chosen)) /\
  Permutation (includedItems r ++ droppedItems r) (map key items) /\
  (forall k, In k (includedItems r) \/ In k (droppedItems r) <-> In k (map key items)) /\
  (List.NoDup (map key items) -> forall k, ~ (In k (includedItems r) /\ In k (droppedItems r))).
Proof.
  cbv zeta. destruct (buildContext_taken items budget) as (E1 & E2 & E3).
  rewrite E1, E2, E3.
  assert (Permutation (map key (taken items budget) ++ map key (leftOut items budget))
                      (map key items)) as P.
  { rewrite <- map_app. apply Permutation_map, taken_left_perm. }
  repeat split.
  - intros item Hin Hreq. apply in_map. unfold taken. apply in_or_app. left.
    apply filter_In. split; [|exact Hreq].
    apply (Permutation_in _ (Permutation_sym (sortByPriority_perm items))), Hin.
  - exists (taken items budget). repeat split.
    intros item Hin. apply (Permutation_in _ (taken_left_perm items budget)).
    apply in_or_app. left. exact Hin.
  - exact P.
  - intros H. apply (Permutation_in _ P), in_or_app, H.
  - intros H. apply in_app_or. apply (Permutation_in _ (Permutation_sym P)), H.
  - intros ND k [H1 H2].
    apply (Permutation_NoDup (Permutation_sym P)) in ND.
    apply NoDup_ListNoDup, NoDup_app in ND as (_ & D & _).
    apply list_elem_of_In in H1, H2. eapply D; eassumption.
Qed.

(** C6, the claim as stated fails: two items that share a key, one
    required and one too large for the budget, put the key in both lists. *)
Lemma buildContext_shared_key :
  let items := [mkItem "a" (js "plan") 100 true; mkItem "a" (js "a long summary") 60 false] in
  let r := buildContext items 0 in
  In "a"%string (includedItems r) /\ In "a"%string (droppedItems r).
Proof. vm_compute. split; left; reflexivity. Qed.

(** The test of the repository: a tight budget keeps the required item. *)
Example buildContext_tight_budget :
  let items := [mkItem "required" (repeat 97 200) 100 true;
                mkItem "optional" (repeat 98 200) 50 false] in
  includedItems (buildContext items 10) = ["required"%string] /\
  droppedItems (buildContext items 10) = ["optional"%string] /\
  totalTokens (buildContext items 10) = 50%Z.
Proof. vm_compute. repeat split. Qed.

End BudgetFacts.

(** * Outline edits *)

Section OutlineFacts.
Import Text Outline OutlineShape.

Lemma renumberFrom_length (i : nat) (chapters : list ref) (h : store) :
  List.length (renumberFrom i chapters h) = List.length h.
Proof.
  revert i h. induction chapters as [|r rest IH]; intros i h; simpl; [reflexivity|].
  rewrite IH. apply length_alter.
Qed.

Lemma renumberFrom_other (i : nat) (chapters : list ref) (h : store) (r : ref) :
  ~ In r chapters -> renumberFrom i chapters h !! r = h !! r.
Proof.
  revert i h. induction chapters as [|r' rest IH]; intros i h Hr; simpl; [reflexivity|].
  rewrite IH by (intros H; apply Hr; right; exact H).
  apply list_lookup_alter_ne. intros ->. apply Hr. left. reflexivity.
Qed.

(** Renumbering an array that holds no object twice numbers it
    [i + 1], [i + 2], ... in order. *)
Lemma renumberFrom_numbers (i : nat) (chapters : list ref) (h : store) :
  List.NoDup chapters -> validRefs h chapters ->
  chapterNumbers (renumberFrom i chapters h) chapters = numbersFrom i (List.length chapters).
Proof.
  unfold chapterNumbers, view, numbersFrom.
  revert i h. induction chapters as [|r rest IH]; intros i h ND V; [reflexivity|].
  inversion ND as [|? ? Hr ND']; subst. inversion V as [|? ? Hlt V']; subst.
  cbn [renumberFrom omap list_omap seq map List.length].
  rewrite renumberFrom_other by exact Hr.
  destruct (lookup_lt_is_Some_2 h r Hlt) as [c Hc].
  rewrite list_lookup_alter_eq, Hc. cbn [fmap option_fmap option_map map number setNumber].
  f_equal. apply IH; [exact ND'|].
  unfold validRefs. rewrite length_alter. exact V'.
Qed.

(** C7, the example of the claim: removing chapter 2 of three leaves the
    chapters numbered 1 and 2, and the former chapter 3 is chapter 2. *)
Lemma updateOutline_remove_second (c1 c2 c3 : ChapterPlan) (defaultWords : Z) :
  let '(h0, chapters0) := freshOutline [setNumber 1 c1; setNumber 2 c2; setNumber 3 c3] in
  let changes := mkChanges (Some [2%Z]) None None None None in
  let '(h, chapters) := updateOutline defaultWords changes h0 chapters0 in
  view h chapters = [setNumber 1 c1; setNumber 2 c3] /\
  chapterNumbers h chapters = [1%Z; 2%Z].
Proof. split; reflexivity. Qed.

(** C7, where the code breaks the invariant: a reorder that names chapter
    1 twice puts one object twice in the array, and the renumbering
    writes 1 and then 2 to that same object: the outline has two chapters
    numbered 2. *)
Theorem updateOutline_reorder_twice (c1 c2 c3 : ChapterPlan) (defaultWords : Z) :
  let '(h0, chapters0) := freshOutline [setNumber 1 c1; setNumber 2 c2; setNumber 3 c3] in
  let changes := mkChanges None None None None (Some [1%Z; 1%Z]) in
  let '(h, chapters) := updateOutline defaultWords changes h0 chapters0 in
  chapterNumbers h chapters = [2%Z; 2%Z].
Proof. reflexivity. Qed.

End OutlineFacts.

(** * Runs of computations *)

Section TripleFacts.
Import Data Effects Triples.
Context {S : Type}.

Lemma bind_run {A B : Type} (m : M S A) (k : A -> M S B) (s : S) (r : Result B) (s' : S) :
bind m k s = (r, s') ->
(exists e, m s = (Thrown e, s') /\ r = Thrown e) \/
(exists a s1, m s = (Ok a, s1) /\ k a s1 = (r, s')).
Proof.
unfold bind. destruct (m s) as [[a|e] s1].
- intros H. right. eauto.
- intros H. injection H as <- <-. left. eauto.
Qed.

Lemma tryCatch_run {A : Type} (m : M S A) (h : Error -> M S A) (s : S) (r : Result A) (s' : S) :
tryCatch m h s = (r, s') ->
(exists a, m s = (Ok a, s') /\ r = Ok a) \/
(exists e s1, m s = (Thrown e, s1) /\ h e s1 = (r, s')).
Proof.
unfold tryCatch. destruct (m s) as [[a|e] s1].
- intros H. injection H as <- <-. left. eauto.
- intros H. right. eauto.
Qed.

Section Preserves.
Variable R : S -> S -> Prop.
Hypothesis R_refl : forall s, R s s.
Hypothesis R_trans : forall s1 s2 s3, R s1 s2 -> R s2 s3 -> R s1 s3.

Lemma preserves_ret {A : Type} (a : A) : preserves R (ret a).
Proof. intros s r s' H. injection H as _ <-. apply R_refl. Qed.

Lemma preserves_throw {A : Type} (e : Error) : preserves R (@throw S A e).
Proof. intros s r s' H. injection H as _ <-. apply R_refl. Qed.

Lemma preserves_gets {A : Type} (f : S -> A) : preserves R (gets f).
Proof. intros s r s' H. injection H as _ <-. apply R_refl. Qed.

Lemma preserves_modify (f : S -> S) : (forall s, R s (f s)) -> preserves R (modify f).
Proof. intros Hf s r s' H. injection H as _ <-. apply Hf. Qed.

Lemma preserves_bind {A B : Type} (m : M S A) (k : A -> M S B) :
  preserves R m -> (forall a, preserves R (k a)) -> preserves R (bind m k).
Proof.
  intros Hm Hk s r s' H. apply bind_run in H as [(e & H & _)|(a & s1 & H1 & H2)].
  - eapply Hm, H.
  - eapply R_trans; [eapply Hm, H1|eapply Hk, H2].
Qed.

Lemma preserves_tryCatch {A : Type} (m : M S A) (h : Error -> M S A) :
  preserves R m -> (forall e, preserves R (h e)) -> preserves R (tryCatch m h).
Proof.
  intros Hm Hh s r s' H. apply tryCatch_run in H as [(a & H & _)|(e & s1 & H1 & H2)].
  - eapply Hm, H.
  - eapply R_trans; [eapply Hm, H1|eapply Hh, H2].
Qed.

Lemma throwsKeep_bind {A B : Type} (m : M S A) (k : A -> M S B) :
  preserves R m -> (forall a, throwsKeep R (k a)) -> throwsKeep R (bind m k).
Proof.
  intros Hm Hk s e s' H. apply bind_run in H as [(e' & H & _)|(a & s1 & H1 & H2)].
  - eapply Hm, H.
  - eapply R_trans; [eapply Hm, H1|eapply Hk, H2].
Qed.

Lemma throwsKeep_never {A : Type} (m : M S A) : neverThrows m -> throwsKeep R m.
Proof. intros Hm s e s' H. destruct (Hm _ _ _ H). Qed.
End Preserves.

Lemma neverThrows_ret {A : Type} (a : A) : neverThrows (@ret S A a).
Proof. intros s e s'. discriminate. Qed.

Lemma neverThrows_gets {A : Type} (f : S -> A) : neverThrows (gets f).
Proof. intros s e s'. discriminate. Qed.

Lemma neverThrows_modify (f : S -> S) : neverThrows (modify f).
Proof. intros s e s'. discriminate. Qed.

Lemma neverThrows_bind {A B : Type} (m : M S A) (k : A -> M S B) :
neverThrows m -> (forall a, neverThrows (k a)) -> neverThrows (bind m k).
Proof.
intros Hm Hk s e s' H. apply bind_run in H as [(e' & H & _)|(a & s1 & H1 & H2)].
- eapply Hm, H.
- eapply Hk, H2.
Qed.

Lemma neverThrows_tryCatch {A : Type} (m : M S A) (h : Error -> M S A) :
(forall e, neverThrows (h e)) -> neverThrows (tryCatch m h).
Proof.
intros Hh s e s' H. apply tryCatch_run in H as [(a & _ & H)|(e' & s1 & H1 & H2)].
- discriminate.
- eapply Hh, H2.
Qed.

Section ThrowsOnly.
Variable P : Error -> Prop.

Lemma throwsOnly_ret {A : Type} (a : A) : throwsOnly P (@ret S A a).
Proof. intros s e s'. discriminate. Qed.

Lemma throwsOnly_never {A : Type} (m : M S A) : neverThrows m -> throwsOnly P m.
Proof. intros Hm s e s' H. destruct (Hm _ _ _ H). Qed.

Lemma throwsOnly_bind {A B : Type} (m : M S A) (k : A -> M S B) :
  throwsOnly P m -> (forall a, throwsOnly P (k a)) -> throwsOnly P (bind m k).
Proof.
  intros Hm Hk s e s' H. apply bind_run in H as [(e' & H & E)|(a & s1 & H1 & H2)].
  - injection E as <-. eapply Hm, H.
  - eapply Hk, H2.
Qed.
End ThrowsOnly.

Section Returns.
Variable Q : S -> S -> Prop.
Hypothesis Q_refl : forall s, Q s s.
Hypothesis Q_trans : forall s1 s2 s3, Q s1 s2 -> Q s2 s3 -> Q s1 s3.



End Returns.

End TripleFacts.

(** * The session controller: what its helpers leave unchanged *)

Section SessionFrames.
Import Text Refusal Data Effects Triples Session.

Variable llm : nat -> Reply.
Variable cfg : Config.

(** A relation between states that the events, the costs and the count
    of calls do not enter. *)
Variable R : State -> State -> Prop.
Hypothesis R_refl : forall s, R s s.
Hypothesis R_trans : forall s1 s2 s3, R s1 s2 -> R s2 s3 -> R s1 s3.
Hypothesis R_events : forall s e, R s (setEvents e s).
Hypothesis R_costs : forall s c, R s (setCosts c s).
Hypothesis R_calls : forall s n, R s (setCalls n s).

Lemma preserves_emit (e : Event) : preserves R (emit e).
Proof. apply preserves_modify. intros s. apply R_events. Qed.

Lemma preserves_addCostEntry (step : string) : preserves R (addCostEntry step).
Proof. apply preserves_modify. intros s. apply R_costs. Qed.

Lemma preserves_generateText : preserves R (generateText llm).
Proof.
  intros s r s' H. unfold generateText in H.
  destruct (llm (callsOf s)); injection H as _ <-; apply R_calls.
Qed.

Lemma preserves_generatePlan : preserves R (generatePlan llm).
Proof.
  intros s r s' H. unfold generatePlan in H.
  destruct (llm (callsOf s)); injection H as _ <-; apply R_calls.
Qed.

Lemma preserves_generateEdit : preserves R (generateEdit llm).
Proof.
  intros s r s' H. unfold generateEdit in H.
  destruct (llm (callsOf s)); injection H as _ <-; apply R_calls.
Qed.

Ltac pres :=
  repeat match goal with
    | |- preserves _ (bind _ _) => apply (preserves_bind R R_trans); [|intros ?]
    | |- preserves _ (ret _) => apply (preserves_ret R R_refl)
    | |- preserves _ (throw _) => apply (preserves_throw R R_refl)
    | |- preserves _ (gets _) => apply (preserves_gets R R_refl)
    | |- preserves _ (tryCatch _ _) => apply (preserves_tryCatch R R_trans); [|intros ?]
    | |- preserves _ (emit _) => apply preserves_emit
    | |- preserves _ (addCostEntry _) => apply preserves_addCostEntry
    | |- preserves _ (generateText _) => apply preserves_generateText
    | |- preserves _ (generatePlan _) => apply preserves_generatePlan
    | |- preserves _ (generateEdit _) => apply preserves_generateEdit
    | |- preserves _ (if ?b then _ else _) => destruct b
    | |- preserves _ (match ?x with _ => _ end) => destruct x
    end.

Lemma preserves_generateDetailedPlan (n : Z) : preserves R (generateDetailedPlan llm n).
Proof. unfold generateDetailedPlan. pres. Qed.

Lemma preserves_writeAttempts (plan : DetailedChapterPlan) (remaining attempt : nat)
    (best : jstr) (count : nat) :
  preserves R (writeAttempts llm plan remaining attempt best count).
Proof.
  revert attempt best count. induction remaining as [|remaining IH]; intros attempt best count;
    cbn [writeAttempts]; pres; apply IH.
Qed.

Lemma preserves_writeChapter (plan : DetailedChapterPlan) : preserves R (writeChapter llm plan).
Proof. apply preserves_writeAttempts. Qed.

Lemma preserves_rewriteFromFeedback (plan : DetailedChapterPlan) (feedback : jstr)
    (existing : option jstr) :
  preserves R (rewriteFromFeedback llm plan feedback existing).
Proof. unfold rewriteFromFeedback. pres. Qed.

Lemma preserves_expandLoop (n : Z) (target : Z) (hasPlan : bool) (remaining attempts : nat)
    (current : jstr) (wordCount : nat) :
  preserves R (expandLoop llm cfg n target hasPlan remaining attempts current wordCount).
Proof.
  revert attempts current wordCount.
  induction remaining as [|remaining IH]; intros attempts current wordCount;
    cbn [expandLoop]; pres; apply IH.
Qed.

Lemma preserves_expandIfNeeded (n : Z) (content : jstr) (target : Z) (maxAttempts : nat)
    (hasPlan : bool) :
  preserves R (expandIfNeeded llm cfg n content target maxAttempts hasPlan).
Proof. apply preserves_expandLoop. Qed.

Lemma preserves_editChapter (draft : jstr) : preserves R (editChapter llm draft).
Proof. unfold editChapter. pres. Qed.

Lemma preserves_editCycles (n : Z) (target : Z) (plan : DetailedChapterPlan)
    (remaining editCount : nat) (draft : jstr) (history : list EditCycleRecord) :
  preserves R (editCycles llm cfg n target plan remaining editCount draft history).
Proof.
  revert editCount draft history.
  induction remaining as [|remaining IH]; intros editCount draft history; cbn [editCycles].
  - pres.
  - apply (preserves_bind R R_trans); [apply preserves_editChapter|intros e].
    apply (preserves_bind R R_trans); [apply preserves_emit|intros _].
    destruct (editApproved e); [pres|].
    apply (preserves_bind R R_trans); [apply preserves_rewriteFromFeedback|intros d].
    apply (preserves_bind R R_trans); [apply preserves_expandIfNeeded|intros d'].
    apply IH.
Qed.

Lemma preserves_generateChapterSummary (content : jstr) :
  preserves R (generateChapterSummary llm content).
Proof. unfold generateChapterSummary. pres. Qed.

Lemma preserves_generateChapterDraft (n : Z) (chapterPlan : ChapterPlan) :
  preserves R (generateChapterDraft llm cfg n chapterPlan).
Proof.
  unfold generateChapterDraft.
  apply (preserves_bind R R_trans); [apply preserves_generateDetailedPlan|intros p].
  apply (preserves_bind R R_trans); [apply preserves_emit|intros _].
  apply (preserves_bind R R_trans); [apply preserves_writeChapter|intros d].
  apply (preserves_bind R R_trans); [apply preserves_emit|intros _].
  apply (preserves_bind R R_trans); [apply preserves_expandIfNeeded|intros d'].
  apply preserves_editCycles.
Qed.

End SessionFrames.

(** * The session controller: which runs throw, and on which calls *)

Section SessionThrows.
Import Text Refusal Data Effects Triples Session.

Variable llm : nat -> Reply.
Variable cfg : Config.

Lemma neverThrows_emit (e : Event) : neverThrows (emit e).
Proof. apply neverThrows_modify. Qed.

Lemma neverThrows_addCostEntry (step : string) : neverThrows (addCostEntry step).
Proof. apply neverThrows_modify. Qed.

Lemma neverThrows_setStatus (n : Z) (st : ChapterStatus) : neverThrows (setStatus n st).
Proof. apply neverThrows_modify. Qed.

Ltac nothrow :=
  repeat match goal with
    | |- neverThrows (bind _ _) => apply neverThrows_bind; [|intros ?]
    | |- neverThrows (ret _) => apply neverThrows_ret
    | |- neverThrows (gets _) => apply neverThrows_gets
    | |- neverThrows (modify _) => apply neverThrows_modify
    | |- neverThrows (tryCatch _ _) => apply neverThrows_tryCatch; intros ?
    | |- neverThrows (emit _) => apply neverThrows_emit
    | |- neverThrows (addCostEntry _) => apply neverThrows_addCostEntry
    | |- neverThrows (setStatus _ _) => apply neverThrows_setStatus
    | |- neverThrows (if ?b then _ else _) => destruct b
    end.

(** A failure of the summary call is caught: the head of the chapter
    stands in for the summary. *)
Lemma neverThrows_generateChapterSummary (content : jstr) :
  neverThrows (generateChapterSummary llm content).
Proof. unfold generateChapterSummary. nothrow. Qed.

(** A failure of the continuity call or of the condensation call is
    caught. *)
Lemma neverThrows_updateContinuity (chapter : ChapterContent) :
  neverThrows (updateContinuity llm cfg chapter).
Proof. unfold updateContinuity. nothrow. Qed.


Lemma throwsOnly_generateText : throwsOnly isCallError (generateText (S := State) llm).
Proof.
  intros s e s' H. unfold generateText in H.
  destruct (llm (callsOf s)); inversion H; subst; exact I.
Qed.

Lemma throwsOnly_generatePlan : throwsOnly isCallError (generatePlan (S := State) llm).
Proof.
  intros s e s' H. unfold generatePlan in H.
  destruct (llm (callsOf s)); inversion H; subst; exact I.
Qed.

Lemma throwsOnly_generateEdit : throwsOnly isCallError (generateEdit (S := State) llm).
Proof.
  intros s e s' H. unfold generateEdit in H.
  destruct (llm (callsOf s)); inversion H; subst; exact I.
Qed.

Ltac callerr :=
  repeat match goal with
    | |- throwsOnly _ (bind _ _) => apply throwsOnly_bind; [|intros ?]
    | |- throwsOnly _ (ret _) => apply throwsOnly_ret
    | |- throwsOnly _ (emit _) => apply throwsOnly_never, neverThrows_emit
    | |- throwsOnly _ (addCostEntry _) => apply throwsOnly_never, neverThrows_addCostEntry
    | |- throwsOnly _ (generateText _) => apply throwsOnly_generateText
    | |- throwsOnly _ (generatePlan _) => apply throwsOnly_generatePlan
    | |- throwsOnly _ (generateEdit _) => apply throwsOnly_generateEdit
    | |- throwsOnly _ (if ?b then _ else _) => destruct b
    | |- throwsOnly _ (match ?x with _ => _ end) => destruct x
    end.


Lemma throwsOnly_rewriteFromFeedback (plan : DetailedChapterPlan) (feedback : jstr)
    (existing : option jstr) :
  throwsOnly isCallError (rewriteFromFeedback llm plan feedback existing).
Proof. unfold rewriteFromFeedback. callerr. Qed.

Lemma throwsOnly_expandLoop (n : Z) (target : Z) (hasPlan : bool) (remaining attempts : nat)
    (current : jstr) (wordCount : nat) :
  throwsOnly isCallError (expandLoop llm cfg n target hasPlan remaining attempts current wordCount).
Proof.
  revert attempts current wordCount.
  induction remaining as [|remaining IH]; intros attempts current wordCount;
    cbn [expandLoop]; callerr; apply IH.
Qed.



(** ** No failed call in a run that returns *)
















End SessionThrows.

(** * The session controller: a chapter that fails *)

Section ChapterFailure.
Import Text Refusal Data Effects Triples Session SessionRel.

Variable llm : nat -> Reply.
Variable cfg : Config.

Lemma bind_gets {A B : Type} (f : State -> A) (k : A -> M State B) (s : State) :
  bind (gets f) k s = k (f s) s.
Proof. reflexivity. Qed.

Lemma bind_modify {B : Type} (f : State -> State) (k : unit -> M State B) (s : State) :
  bind (modify f) k s = k tt (f s).
Proof. reflexivity. Qed.





(** What [generateChapter] is once its gates are passed. *)
Lemma generateChapter_gated (n : Z) (s : State) (chs : list ChapterPlan) (chapterPlan : ChapterPlan) :
  outlineApproved s = true -> outline s = Some chs -> findPlan chs n = Some chapterPlan ->
  generateChapter llm cfg (Some n) s =
  tryCatch (generateChapterBody llm cfg n chapterPlan chs)
    (fun error =>
       do setStatus n failed then
       do emit (chapter_failed n error) then
       throw error)
    (setStatuses (<[n := generating]> (chapterStatuses s)) s).
Proof.
  intros Ha Ho Hf. unfold generateChapter.
  rewrite bind_gets, Ha. cbn [negb]. rewrite bind_gets, bind_gets, Ho, Hf.
  reflexivity.
Qed.


End ChapterFailure.

(** * The session controller: the chapters after a failed one *)

Section RemainingChapters.
Import Text Refusal Data Effects Triples Session SessionRel.

Variable llm : nat -> Reply.
Variable cfg : Config.

Lemma sameOutside_refl (n : Z) (s : State) : sameOutside n s s.
Proof. repeat split. Qed.

Lemma sameOutside_trans (n : Z) (s1 s2 s3 : State) :
  sameOutside n s1 s2 -> sameOutside n s2 s3 -> sameOutside n s1 s3.
Proof.
  intros (A1 & A2 & A3) (B1 & B2 & B3). repeat split; try congruence.
  intros k Hk. rewrite B3, A3; trivial.
Qed.

Lemma sameOutside_status (n : Z) (st : ChapterStatus) (s : State) :
  sameOutside n s (setStatuses (<[n := st]> (chapterStatuses s)) s).
Proof.
  repeat split. intros k Hk. cbn. apply lookup_insert_ne. congruence.
Qed.

Ltac outside n :=
  repeat match goal with
    | |- preserves _ (bind _ _) => apply (preserves_bind _ (sameOutside_trans n)); [|intros ?]
    | |- preserves _ (ret _) => apply (preserves_ret _ (sameOutside_refl n))
    | |- preserves _ (throw _) => apply (preserves_throw _ (sameOutside_refl n))
    | |- preserves _ (gets _) => apply (preserves_gets _ (sameOutside_refl n))
    | |- preserves _ (tryCatch _ _) =>
        apply (preserves_tryCatch _ (sameOutside_trans n)); [|intros ?]
    | |- preserves _ (setStatus n _) => apply preserves_modify; intros ?; apply sameOutside_status
    | |- preserves _ (modify _) => apply preserves_modify; intros ?; repeat split
    | |- preserves _ (emit _) => apply preserves_modify; intros ?; repeat split
    | |- preserves _ (addCostEntry _) => apply preserves_modify; intros ?; repeat split
    | |- preserves _ (generateText _) =>
        apply preserves_generateText; intros; repeat split
    | |- preserves _ (generateChapterSummary _ _) =>
        apply preserves_generateChapterSummary;
        [apply sameOutside_refl|apply sameOutside_trans|..]; intros; repeat split
    | |- preserves _ (generateChapterDraft _ _ _ _) =>
        apply preserves_generateChapterDraft;
        [apply sameOutside_refl|apply sameOutside_trans|..]; intros; repeat split
    | |- preserves _ (if ?b then _ else _) => destruct b
    | |- preserves _ (match ?x with _ => _ end) => destruct x
    end.

Lemma updateContinuity_outside (n : Z) (chapter : ChapterContent) :
  preserves (sameOutside n) (updateContinuity llm cfg chapter).
Proof. unfold updateContinuity. outside n. Qed.

Lemma storeChapter_outside (n : Z) (chapterPlan : ChapterPlan) (chs : list ChapterPlan)
    (draft : jstr) (history : list EditCycleRecord) (isApproved : bool) :
  preserves (sameOutside n) (storeChapter llm cfg n chapterPlan chs draft history isApproved).
Proof.
  unfold storeChapter.
  apply (preserves_bind _ (sameOutside_trans n)); [outside n|intros summary].
  apply (preserves_bind _ (sameOutside_trans n)); [apply updateContinuity_outside|intros _].
  outside n.
Qed.

(** [generateChapter] on chapter [n] leaves the statuses of the others. *)
Lemma generateChapter_outside (n : Z) :
  preserves (sameOutside n) (generateChapter llm cfg (Some n)).
Proof.
  unfold generateChapter.
  apply (preserves_bind _ (sameOutside_trans n)); [outside n|intros a].
  destruct (negb a); [outside n|].
  apply (preserves_bind _ (sameOutside_trans n)); [outside n|intros next].
  apply (preserves_bind _ (sameOutside_trans n)); [outside n|intros o].
  destruct o as [chs|]; [|outside n].
  destruct (findPlan chs n) as [chapterPlan|]; [|outside n].
  apply (preserves_bind _ (sameOutside_trans n)); [outside n|intros _].
  apply (preserves_tryCatch _ (sameOutside_trans n)); [|intros e; outside n].
  unfold generateChapterBody.
  apply (preserves_bind _ (sameOutside_trans n)); [outside n|intros [[d h] a']].
  apply storeChapter_outside.
Qed.

(** A chapter that [storeChapter] stores is stored approved. *)
Lemma storeChapter_ok (n : Z) (chapterPlan : ChapterPlan) (chs : list ChapterPlan)
    (draft : jstr) (history : list EditCycleRecord) (isApproved : bool)
    (s : State) (res : ChapterResult) (s' : State) :
  storeChapter llm cfg n chapterPlan chs draft history isApproved s = (Ok res, s') ->
  chapterStatuses s' !! n = Some approved /\
  chapters s' !! n = Some (chapter res) /\
  chApproved (chapter res) = true /\
  chEditCount (chapter res) = List.length history /\
  editHistory res = history.
Proof.
  unfold storeChapter. intros H.
  apply bind_run in H as [(e & _ & E)|(summary & s1 & _ & H)]; [discriminate|].
  apply bind_run in H as [(e & _ & E)|(u & s2 & _ & H)]; [discriminate|].
  cbv [bind modify setStatus emit gets ret] in H.
  destruct (negb (checkWordTarget _ _ _));
    match type of H with context [if ?b then _ else _] => destruct b end;
    injection H as <- <-; cbn; repeat split;
    try apply lookup_insert_eq; destruct isApproved; reflexivity.
Qed.

(** A chapter that [generateChapter] returns is stored and approved. *)
Lemma generateChapter_ok (n : Z) (s : State) (res : ChapterResult) (s' : State) :
  generateChapter llm cfg (Some n) s = (Ok res, s') ->
  chapterStatuses s' !! n = Some approved /\
  chapters s' !! n = Some (chapter res) /\
  chApproved (chapter res) = true.
Proof.
  unfold generateChapter. rewrite bind_gets.
  destruct (negb (outlineApproved s)); [discriminate|].
  rewrite !bind_gets.
  destruct (outline s) as [chs|]; [|discriminate].
  destruct (findPlan chs n) as [chapterPlan|]; [|discriminate].
  unfold setStatus at 1. rewrite bind_modify. intros H.
  apply tryCatch_run in H as [(a & H & E)|(e1 & s1 & _ & H2)].
  - injection E as <-. unfold generateChapterBody in H.
    apply bind_run in H as [(e & _ & E)|([[d h] a'] & s1 & _ & H)]; [discriminate|].
    apply storeChapter_ok in H. tauto.
  - cbv [bind setStatus emit modify throw] in H2. discriminate.
Qed.

(** One turn of the loop of [generateAllRemaining] never throws, settles
    its chapter and leaves the others. *)
Lemma generateOne_settles (n : Z) (s : State) :
  exists yielded s',
    tryCatch
      (let* result := generateChapter llm cfg (Some n) in ret [result])
      (fun error =>
         do setStatus n failed then
         do emit (chapter_failed n error) then
         ret []) s = (Ok yielded, s') /\
    sameOutside n s s' /\ settled s' n.
Proof.
  unfold tryCatch, bind at 1.
  destruct (generateChapter llm cfg (Some n) s) as [[res|e] s1] eqn:E.
  - exists [res], s1. split; [reflexivity|]. split.
    + eapply generateChapter_outside, E.
    + left. eapply generateChapter_ok, E.
  - eexists _, _. split; [reflexivity|]. split.
    + eapply sameOutside_trans; [eapply generateChapter_outside, E|].
      repeat split. intros k Hk. cbn. apply lookup_insert_ne. congruence.
    + right. cbn. apply lookup_insert_eq.
Qed.

Lemma settled_outside (n k : Z) (s s' : State) :
  sameOutside n s s' -> settled s' n -> settled s k -> settled s' k.
Proof.
  intros (_ & _ & H) Hn Hk. destruct (decide (k = n)) as [->|Hne]; [exact Hn|].
  unfold settled in *. rewrite H; trivial.
Qed.

Lemma isStatus_settled (s : State) (n : Z) :
  isStatus (chapterStatuses s !! n) approved = true \/
  isStatus (chapterStatuses s !! n) failed = true -> settled s n.
Proof.
  unfold settled. destruct (chapterStatuses s !! n) as [[]|]; simpl; intros [H|H];
    try discriminate; auto.
Qed.

(** The loop of [generateAllRemaining] never throws and settles every
    chapter it goes over; the chapters settled before stay settled. *)
Lemma generateEach_settles (chs : list ChapterPlan) (s : State) :
  exists results s',
    generateEach llm cfg chs s = (Ok results, s') /\
    outline s' = outline s /\ outlineApproved s' = outlineApproved s /\
    (forall k, settled s k -> settled s' k) /\
    (forall ch, In ch chs -> settled s' (number ch)).
Proof.
  revert s. induction chs as [|ch rest IH]; intros s; cbn [generateEach].
  - exists [], s. repeat split; trivial. intros ch [].
  - rewrite bind_gets.
    assert (forall s1, settled s1 (number ch) -> outline s1 = outline s ->
                       outlineApproved s1 = outlineApproved s ->
                       (forall k, settled s k -> settled s1 k) ->
                       forall more,
                       exists results s',
                         bind (generateEach llm cfg rest) (fun r => ret (more ++ r)) s1
                           = (Ok results, s') /\
                         outline s' = outline s /\ outlineApproved s' = outlineApproved s /\
                         (forall k, settled s k -> settled s' k) /\
                         (forall c, In c (ch :: rest) -> settled s' (number c))) as K.
    { intros s1 Hs1 Ho Ha Hk more.
      destruct (IH s1) as (results & s' & E & Ho' & Ha' & Hk' & Hin).
      exists (more ++ results), s'. unfold bind. rewrite E.
      repeat split; try congruence; auto.
      intros c [<-|Hc]; auto. }
    destruct (isStatus (chapterStatuses s !! number ch) approved) eqn:E1;
      [|destruct (isStatus (chapterStatuses s !! number ch) failed) eqn:E2].
    + destruct (K s (isStatus_settled s _ (or_introl E1)) eq_refl eq_refl (fun _ H => H) [])
        as (results & s' & E & H).
      exists results, s'. split; [|exact H].
      unfold bind in E. destruct (generateEach llm cfg rest s) as [[r|e] s2]; [|discriminate].
      exact E.
    + destruct (K s (isStatus_settled s _ (or_intror E2)) eq_refl eq_refl (fun _ H => H) [])
        as (results & s' & E & H).
      exists results, s'. split; [|exact H].
      unfold bind in E. destruct (generateEach llm cfg rest s) as [[r|e] s2]; [|discriminate].
      exact E.
    + destruct (generateOne_settles (number ch) s) as (yielded & s1 & E & Hout & Hset).
      destruct (K s1 Hset (proj1 Hout) (proj1 (proj2 Hout))
                  (fun k H => settled_outside _ k s s1 Hout Hset H) yielded)
        as (results & s' & E' & H).
      exists results, s'. split; [|exact H].
      unfold bind at 1. rewrite E. unfold bind at 1.
      unfold bind in E'. destruct (generateEach llm cfg rest s1) as [[r|e] s2]; [|discriminate].
      exact E'.
Qed.

Lemma settled_isStatus (s : State) (n : Z) :
  settled s n ->
  isStatus (chapterStatuses s !! n) approved || isStatus (chapterStatuses s !! n) failed = true.
Proof. intros [H|H]; rewrite H; reflexivity. Qed.

(** [generateAllRemaining] on an approved outline never throws: every
    chapter of the outline ends approved or failed, and the session is
    complete. *)
Lemma generateAllRemaining_settles (s : State) (chs : list ChapterPlan) :
  outlineApproved s = true -> outline s = Some chs ->
  exists results s',
    generateAllRemaining llm cfg s = (Ok results, s') /\
    (forall ch, In ch chs -> settled s' (number ch)) /\
    phase s' = complete.
Proof.
  intros Ha Ho. unfold generateAllRemaining.
  rewrite bind_gets, Ha. cbn [negb]. rewrite bind_gets, Ho.
  destruct (generateEach_settles chs s) as (results & s1 & E & _ & _ & _ & Hin).
  unfold bind at 1. rewrite E. rewrite bind_gets.
  assert (forallb
            (fun ch => isStatus (chapterStatuses s1 !! number ch) approved
                       || isStatus (chapterStatuses s1 !! number ch) failed) chs = true) as ->.
  { apply forallb_forall. intros ch Hch. apply settled_isStatus, Hin, Hch. }
  exists results, (setPhase complete s1). split; [reflexivity|]. split; [|reflexivity].
  exact Hin.
Qed.

End RemainingChapters.

(** * The session controller: the claims on failures and on the gate *)

Section FailureClaims.
Import Text Aux Refusal Data Effects Triples Session SessionRel Samples.

(** A throw of the steps that make the draft is a throw of
    [generateChapter]. *)
Lemma generateChapter_draft_throws (llm : nat -> Reply) (cfg : Config) (n : Z) (s : State)
    (chs : list ChapterPlan) (chapterPlan : ChapterPlan) (e : Error) (s1 : State) :
  outlineApproved s = true -> outline s = Some chs -> findPlan chs n = Some chapterPlan ->
  generateChapterDraft llm cfg n chapterPlan
    (setStatuses (<[n := generating]> (chapterStatuses s)) s) = (Thrown e, s1) ->
  exists s', generateChapter llm cfg (Some n) s = (Thrown e, s').
Proof.
  intros Ha Ho Hf H. rewrite (generateChapter_gated llm cfg n s chs chapterPlan Ha Ho Hf).
  unfold tryCatch, generateChapterBody, bind at 1. rewrite H.
  eexists. reflexivity.
Qed.

(** The test of the repository: the planning call fails. *)
Example planning_failure_fails_the_chapter :
  let llm := script [Failure (js "API Error")] in
  let '(r, s') := generateChapter llm sampleConfig (Some 1%Z) (approvedSession 3) in
  r = Thrown (ProviderError (js "API Error")) /\
  chapterStatuses s' !! 1%Z = Some failed /\
  events s' = [chapter_failed 1 (ProviderError (js "API Error"))].
Proof. vm_compute. repeat split. Qed.

(** Chapter 2 of three fails at its planning call: chapters 1 and 3 are
    generated all the same. *)
Example remaining_chapters_after_a_failure :
  let llm := script (smoothChapter 1 ++ [Failure (js "API Error")] ++ smoothChapter 3) in
  let '(r, s') := generateAllRemaining llm sampleConfig (approvedSession 3) in
  (exists results, r = Ok results /\ map (fun x => chNumber (chapter x)) results = [1%Z; 3%Z]) /\
  map (fun n => chapterStatuses s' !! n) [1%Z; 2%Z; 3%Z]
    = [Some approved; Some failed; Some approved] /\
  phase s' = complete.
Proof. vm_compute. repeat split; eauto. Qed.

(** ** The approval gate *)

Lemma generateChapter_gate (llm : nat -> Reply) (cfg : Config) (n : option Z) (s : State) :
  outlineApproved s = false ->
  generateChapter llm cfg n s = (Thrown OutlineNotApproved, s).
Proof. intros H. unfold generateChapter. rewrite bind_gets, H. reflexivity. Qed.

Lemma rewriteChapter_gate (llm : nat -> Reply) (cfg : Config) (n : Z) (feedback : jstr)
    (s : State) :
  outlineApproved s = false ->
  rewriteChapter llm cfg n feedback s = (Thrown OutlineNotApprovedFirst, s).
Proof. intros H. unfold rewriteChapter. rewrite bind_gets, H. reflexivity. Qed.

Lemma generateAllRemaining_gate (llm : nat -> Reply) (cfg : Config) (s : State) :
  outlineApproved s = false ->
  generateAllRemaining llm cfg s = (Thrown OutlineNotApprovedFirst, s).
Proof. intros H. unfold generateAllRemaining. rewrite bind_gets, H. reflexivity. Qed.

(** With no chapter generated yet, [expandChapter] throws its own error. *)
Lemma expandChapter_nothing_generated (llm : nat -> Reply) (cfg : Config) (n : Z)
    (target : option Z) (s : State) :
  chapters s !! n = None ->
  expandChapter llm cfg n target s = (Thrown (ChapterNotGenerated n), s).
Proof. intros H. unfold expandChapter. rewrite bind_gets, H. reflexivity. Qed.

(** C8, where the code misses the gate: chapter 1 is generated, the
    outline is regenerated, which withdraws the approval, and
    [expandChapter] runs all the same: it makes two generation calls and
    replaces the stored chapter. *)
Theorem expandChapter_misses_the_gate :
  let llm := script ([OutlineReply [samplePlan 1 10]] ++ smoothChapter 1 ++
                     [OutlineReply [samplePlan 1 10]; TextReply (wordsText 30);
                      TextReply (js "summary")]) in
  let setup :=
    do generateOutline llm sampleConfig then
    do approveOutline then
    do generateChapter llm sampleConfig (Some 1%Z) then
    regenerateOutline llm sampleConfig in
  let '(_, s) := setup initialState in
  let '(r, s') := expandChapter llm sampleConfig 1 (Some 30%Z) s in
  outlineApproved s = false /\
  (exists res, r = Ok res) /\
  calls s' = (calls s + 2)%nat /\
  option_map chWordCount (chapters s !! 1%Z) = Some 9%nat /\
  option_map chWordCount (chapters s' !! 1%Z) = Some 30%nat /\
  chapterStatuses s' !! 1%Z = Some approved.
Proof. vm_compute. repeat split; eauto. Qed.

End FailureClaims.

(** * The session controller: how many calls an operation makes *)

Section CallBudget.
Import Text Aux Refusal Data Effects Triples Session SessionRel Samples SessionShape.

Variable llm : nat -> Reply.
Variable cfg : Config.

Lemma within_weaken (a b : nat) (s s' : State) :
  (a <= b)%nat -> within a s s' -> within b s s'.
Proof. unfold within. lia. Qed.

Lemma budget_weaken {A : Type} (a b : nat) (m : M State A) :
  (a <= b)%nat -> preserves (within a) m -> preserves (within b) m.
Proof. intros Hab Hm s r s' H. eapply within_weaken; [exact Hab|eapply Hm, H]. Qed.

Lemma budget_bind {A B : Type} (a b c : nat) (m : M State A) (k : A -> M State B) :
  preserves (within a) m -> (forall x, preserves (within b) (k x)) -> (a + b <= c)%nat ->
  preserves (within c) (bind m k).
Proof.
  intros Hm Hk Hc s r s' H. apply bind_run in H as [(e & H & _)|(x & s1 & H1 & H2)].
  - apply Hm in H. unfold within in *. lia.
  - apply Hm in H1. apply Hk in H2. unfold within in *. lia.
Qed.

Lemma budget_tryCatch {A : Type} (a b c : nat) (m : M State A) (h : Error -> M State A) :
  preserves (within a) m -> (forall e, preserves (within b) (h e)) -> (a + b <= c)%nat ->
  preserves (within c) (tryCatch m h).
Proof.
  intros Hm Hh Hc s r s' H. apply tryCatch_run in H as [(x & H & _)|(e & s1 & H1 & H2)].
  - apply Hm in H. unfold within in *. lia.
  - apply Hm in H1. apply Hh in H2. unfold within in *. lia.
Qed.

Lemma budget_ret {A : Type} (c : nat) (x : A) : preserves (within c) (ret (S := State) x).
Proof. intros s r s' H. injection H as _ <-. unfold within. lia. Qed.

Lemma budget_throw {A : Type} (c : nat) (e : Error) : preserves (within c) (@throw State A e).
Proof. intros s r s' H. injection H as _ <-. unfold within. lia. Qed.

Lemma budget_gets {A : Type} (c : nat) (f : State -> A) : preserves (within c) (gets f).
Proof. intros s r s' H. injection H as _ <-. unfold within. lia. Qed.

Lemma budget_modify (c : nat) (f : State -> State) :
  (forall s, calls (f s) = calls s) -> preserves (within c) (modify f).
Proof. intros Hf s r s' H. injection H as _ <-. unfold within. rewrite Hf. lia. Qed.

Lemma budget_emit (c : nat) (e : Event) : preserves (within c) (emit e).
Proof. apply budget_modify. reflexivity. Qed.

Lemma budget_addCostEntry (c : nat) (step : string) : preserves (within c) (addCostEntry step).
Proof. apply budget_modify. reflexivity. Qed.

Lemma budget_setStatus (c : nat) (n : Z) (st : ChapterStatus) :
  preserves (within c) (setStatus n st).
Proof. apply budget_modify. reflexivity. Qed.

Lemma budget_generateText (c : nat) :
  (1 <= c)%nat -> preserves (within c) (generateText (S := State) llm).
Proof.
  intros Hc s r s'. unfold generateText. cbn [callsOf tick stateCalls].
  destruct (llm (calls s)); intros H; injection H as _ <-; unfold within; cbn; lia.
Qed.

Lemma budget_generatePlan (c : nat) :
  (1 <= c)%nat -> preserves (within c) (generatePlan (S := State) llm).
Proof.
  intros Hc s r s'. unfold generatePlan. cbn [callsOf tick stateCalls].
  destruct (llm (calls s)); intros H; injection H as _ <-; unfold within; cbn; lia.
Qed.

Lemma budget_generateEdit (c : nat) :
  (1 <= c)%nat -> preserves (within c) (generateEdit (S := State) llm).
Proof.
  intros Hc s r s'. unfold generateEdit. cbn [callsOf tick stateCalls].
  destruct (llm (calls s)); intros H; injection H as _ <-; unfold within; cbn; lia.
Qed.

(** One step of a computation that makes at most [a] calls, before a
    rest that makes at most [b]. *)
Ltac step a b := apply (budget_bind a b); [|intros ?|lia].
Ltac leaf :=
  first [ apply budget_ret | apply budget_throw | apply budget_gets | apply budget_emit
        | apply budget_addCostEntry | apply budget_setStatus
        | apply budget_modify; reflexivity
        | apply budget_generateText; lia | apply budget_generatePlan; lia
        | apply budget_generateEdit; lia ].

Lemma budget_generateDetailedPlan (n : Z) :
  preserves (within 1) (generateDetailedPlan llm n).
Proof. unfold generateDetailedPlan. step 1%nat 0%nat; [leaf|]. step 0%nat 0%nat; leaf. Qed.

Lemma budget_writeAttempts (plan : DetailedChapterPlan) (remaining attempt : nat)
    (best : jstr) (count : nat) :
  preserves (within remaining) (writeAttempts llm plan remaining attempt best count).
Proof.
  revert attempt best count. induction remaining as [|remaining IH]; intros attempt best count.
  - apply budget_ret.
  - cbn [writeAttempts]. step 1%nat remaining; [leaf|]. step 0%nat remaining; [leaf|].
    destruct (negb _); [leaf|]. step 0%nat remaining; [leaf|].
    destruct (_ && _); apply IH.
Qed.

Lemma budget_rewriteFromFeedback (plan : DetailedChapterPlan) (feedback : jstr)
    (existing : option jstr) :
  preserves (within 1) (rewriteFromFeedback llm plan feedback existing).
Proof.
  unfold rewriteFromFeedback. step 1%nat 0%nat; [leaf|]. step 0%nat 0%nat; [leaf|].
  destruct existing; [destruct (_ && _)|]; leaf.
Qed.

Lemma budget_expandLoop (n target : Z) (hasPlan : bool) (remaining attempts : nat)
    (current : jstr) (count : nat) :
  preserves (within remaining)
    (expandLoop llm cfg n target hasPlan remaining attempts current count).
Proof.
  revert attempts current count.
  induction remaining as [|remaining IH]; intros attempts current count.
  - apply budget_ret.
  - cbn [expandLoop]. destruct (_ <? _)%nat; [|leaf].
    step 0%nat (S remaining); [leaf|]. step 1%nat remaining; [leaf|].
    step 0%nat remaining; [leaf|].
    destruct (expandVerdict count _); [apply IH|apply IH|leaf].
Qed.

Lemma budget_editCycles (n target : Z) (plan : DetailedChapterPlan)
    (remaining editCount : nat) (draft : jstr) (history : list EditCycleRecord) :
  preserves (within (5 * remaining))
    (editCycles llm cfg n target plan remaining editCount draft history).
Proof.
  revert editCount draft history.
  induction remaining as [|remaining IH]; intros editCount draft history.
  - apply budget_ret.
  - cbn [editCycles]. step 1%nat (4 + 5 * remaining)%nat.
    { unfold editChapter. step 1%nat 0%nat; [leaf|]. step 0%nat 0%nat; leaf. }
    step 0%nat (4 + 5 * remaining)%nat; [leaf|].
    destruct (editApproved _); [leaf|].
    step 1%nat (3 + 5 * remaining)%nat; [apply budget_rewriteFromFeedback|].
    step 3%nat (5 * remaining)%nat; [apply budget_expandLoop|apply IH].
Qed.

Lemma budget_generateChapterSummary (content : jstr) :
  preserves (within 1) (generateChapterSummary llm content).
Proof.
  unfold generateChapterSummary. apply (budget_tryCatch 1 0); [|intros e; leaf|lia].
  step 1%nat 0%nat; [leaf|]. step 0%nat 0%nat; leaf.
Qed.

Lemma budget_updateContinuity (chapter : ChapterContent) :
  preserves (within 2) (updateContinuity llm cfg chapter).
Proof.
  unfold updateContinuity. destruct (negb _); [leaf|].
  apply (budget_tryCatch 2 0); [|intros e; leaf|lia].
  step 1%nat 1%nat; [leaf|]. step 1%nat 0%nat.
  - destruct (_ <? _)%nat; [|leaf].
    apply (budget_tryCatch 1 0); [|intros e; leaf|lia].
    step 1%nat 0%nat; [leaf|]. step 0%nat 0%nat; leaf.
  - step 0%nat 0%nat; leaf.
Qed.

Lemma budget_generateChapterDraft (n : Z) (chapterPlan : ChapterPlan) :
  preserves (within (8 + 5 * effectiveMaxEditCycles cfg))
    (generateChapterDraft llm cfg n chapterPlan).
Proof.
  unfold generateChapterDraft. set (m := effectiveMaxEditCycles cfg).
  step 1%nat (7 + 5 * m)%nat; [apply budget_generateDetailedPlan|].
  step 0%nat (7 + 5 * m)%nat; [leaf|].
  step 4%nat (3 + 5 * m)%nat; [apply budget_writeAttempts|].
  step 0%nat (3 + 5 * m)%nat; [leaf|].
  step 3%nat (5 * m)%nat; [apply budget_expandLoop|apply budget_editCycles].
Qed.

Lemma budget_storeChapter (n : Z) (chapterPlan : ChapterPlan) (chs : list ChapterPlan)
    (draft : jstr) (history : list EditCycleRecord) (isApproved : bool) :
  preserves (within 3) (storeChapter llm cfg n chapterPlan chs draft history isApproved).
Proof.
  unfold storeChapter.
  step 1%nat 2%nat; [apply budget_generateChapterSummary|].
  step 2%nat 0%nat; [apply budget_updateContinuity|].
  step 0%nat 0%nat; [leaf|]. step 0%nat 0%nat; [leaf|].
  step 0%nat 0%nat; [destruct (negb _); leaf|].
  step 0%nat 0%nat; [leaf|]. step 0%nat 0%nat; [leaf|].
  step 0%nat 0%nat; [destruct x5; leaf|leaf].
Qed.

Lemma budget_generateChapter (n : option Z) :
  preserves (within (11 + 5 * effectiveMaxEditCycles cfg)) (generateChapter llm cfg n).
Proof.
  unfold generateChapter. set (b := (11 + 5 * effectiveMaxEditCycles cfg)%nat).
  step 0%nat b; [leaf|]. destruct (negb _); [leaf|].
  step 0%nat b; [leaf|].
  destruct (match n with Some n0 => Some n0 | None => _ end) as [target|]; [|leaf].
  step 0%nat b; [leaf|]. destruct x1 as [chs|]; [|leaf].
  destruct (findPlan chs target) as [chapterPlan|]; [|leaf].
  step 0%nat b; [leaf|].
  apply (budget_tryCatch b 0); [| |lia].
  - unfold generateChapterBody.
    apply (budget_bind (8 + 5 * effectiveMaxEditCycles cfg) 3);
      [apply budget_generateChapterDraft| |subst b; lia].
    intros [[draft history] isApproved]. apply budget_storeChapter.
  - intros e. step 0%nat 0%nat; [leaf|]. step 0%nat 0%nat; leaf.
Qed.

Lemma budget_rewriteChapter (n : Z) (feedback : jstr) :
  preserves (within 9) (rewriteChapter llm cfg n feedback).
Proof.
  unfold rewriteChapter. step 0%nat 9%nat; [leaf|]. destruct (negb _); [leaf|].
  step 0%nat 9%nat; [leaf|]. destruct x0 as [chs|]; [|leaf].
  destruct (findPlan chs n) as [chapterPlan|]; [|leaf].
  step 0%nat 9%nat; [leaf|].
  apply (budget_tryCatch 9 0); [| |lia].
  - step 1%nat 8%nat; [apply budget_generateDetailedPlan|].
    step 1%nat 7%nat; [apply budget_rewriteFromFeedback|].
    step 3%nat 4%nat; [apply budget_expandLoop|].
    step 1%nat 3%nat.
    { unfold editChapter. step 1%nat 0%nat; [leaf|]. step 0%nat 0%nat; leaf. }
    step 1%nat 2%nat; [apply budget_generateChapterSummary|].
    step 2%nat 0%nat; [apply budget_updateContinuity|].
    step 0%nat 0%nat; [leaf|]. step 0%nat 0%nat; leaf.
  - intros e. step 0%nat 0%nat; leaf.
Qed.

Lemma budget_expandChapter (n : Z) (target : option Z) :
  preserves (within 4) (expandChapter llm cfg n target).
Proof.
  unfold expandChapter. step 0%nat 4%nat; [leaf|]. destruct x as [existing|]; [|leaf].
  step 0%nat 4%nat; [leaf|]. destruct x as [chs|]; [|leaf].
  step 0%nat 4%nat; [leaf|].
  step 3%nat 1%nat; [apply budget_expandLoop|].
  step 1%nat 0%nat; [apply budget_generateChapterSummary|].
  step 0%nat 0%nat; [leaf|]. step 0%nat 0%nat; leaf.
Qed.

Lemma budget_generateEach (chs : list ChapterPlan) :
  preserves (within ((11 + 5 * effectiveMaxEditCycles cfg) * List.length chs))
    (generateEach llm cfg chs).
Proof.
  set (b := (11 + 5 * effectiveMaxEditCycles cfg)%nat).
  induction chs as [|ch chs IH]; [apply budget_ret|].
  cbn [generateEach List.length].
  step 0%nat (b * S (List.length chs))%nat; [leaf|].
  destruct (isStatus x approved); [eapply budget_weaken; [|exact IH]; lia|].
  destruct (isStatus x failed); [eapply budget_weaken; [|exact IH]; lia|].
  step b (b * List.length chs)%nat.
  - apply (budget_tryCatch b 0); [| |lia].
    + step b 0%nat; [apply budget_generateChapter|leaf].
    + intros e. step 0%nat 0%nat; [leaf|]. step 0%nat 0%nat; leaf.
  - step (b * List.length chs)%nat 0%nat; [exact IH|leaf].
Qed.

(** X17. The generation calls of the session are bounded: with
    [maxEditCycles] edit cycles [generateChapter] makes at most
    [11 + 5 * maxEditCycles] calls (one for the plan, four to write,
    three to expand, five for each edit cycle, one for the summary, two
    for the continuity), [rewriteChapter] at most nine, [expandChapter]
    at most four, and [generateAllRemaining] at most as many as
    [generateChapter] for each chapter of the outline; this whether the
    operation returns or throws. *)
Theorem session_call_budget :
  let perChapter := (11 + 5 * effectiveMaxEditCycles cfg)%nat in
  (forall n, preserves (within perChapter) (generateChapter llm cfg n)) /\
  (forall n feedback, preserves (within 9) (rewriteChapter llm cfg n feedback)) /\
  (forall n target, preserves (within 4) (expandChapter llm cfg n target)) /\
  (forall s r s', generateAllRemaining llm cfg s = (r, s') ->
     within (perChapter * match outline s with Some chs => List.length chs | None => 0 end)
       s s').
Proof.
  cbv zeta. split; [exact budget_generateChapter|]. split; [exact budget_rewriteChapter|].
  split; [exact budget_expandChapter|].
  intros s r s'. unfold generateAllRemaining. rewrite bind_gets.
  destruct (negb _); [intros H; injection H as _ <-; unfold within; lia|].
  rewrite bind_gets. destruct (outline s) as [chs|];
    [|intros H; injection H as _ <-; unfold within; lia].
  intros H.
  refine (budget_bind ((11 + 5 * effectiveMaxEditCycles cfg) * List.length chs) 0 _ _ _
            (budget_generateEach chs) _ _ s r s' H); [|lia].
  intros results. step 0%nat 0%nat; [leaf|]. step 0%nat 0%nat; [destruct x; leaf|leaf].
Qed.

End CallBudget.

(** * The nodes of the graph *)

Section GraphNodes.
Import Text Aux Refusal Data Effects Triples Graph GraphShape.

Variable llm : nat -> Reply.
Variable minAcceptable : Z -> nat.
Variable registry : ModelRole -> ModelEntry.
Variable interrupt : nat -> Review.

Ltac fields :=
  cbn [maxEditCycles humanReview currentPhase currentChapter outline currentDetailedPlan
       currentDraft currentEditResult editCount chapters rollingSummary
       previousChapterEnding costs totalWordsWritten pendingEvents chWordCount
       completedChapter].

Lemma getModel_run (role : ModelRole) (c : nat) :
  (registry role = modelReady /\ getModel registry role c = (Ok tt, c)) \/
  (registry role <> modelReady /\ getModel registry role c = (Thrown (RegistryError role), c)).
Proof.
  unfold getModel. destruct (registry role); [right|right|left]; split;
    trivial; discriminate.
Qed.

Lemma getModel_bind {A : Type} (role : ModelRole) (k : unit -> M nat A) (c : nat)
    (a : A) (c' : nat) :
  bind (getModel registry role) k c = (Ok a, c') ->
  registry role = modelReady /\ k tt c = (Ok a, c').
Proof.
  unfold bind. destruct (getModel_run role c) as [[E ->]|[_ ->]]; [auto|discriminate].
Qed.

Lemma generateText_reply (c : nat) (text : jstr) (c' : nat) :
  generateText llm c = (Ok text, c') -> llm c = TextReply text /\ c' = S c.
Proof.
  unfold generateText. cbn [callsOf tick natCalls].
  destruct (llm c); intros H; inversion H. auto.
Qed.


Lemma enforceSummaryLength_returns (summary : jstr) (c : nat) :
  exists newSummary c',
    enforceSummaryLength llm summary c = (Ok newSummary, c') /\ (c <= c' <= S c)%nat.
Proof.
  unfold enforceSummaryLength. destruct (_ <? _)%nat.
  - unfold tryCatch, generateText. cbn [callsOf tick natCalls].
    destruct (llm c); eexists _, _; (split; [reflexivity|lia]).
  - eexists _, _. split; [reflexivity|lia].
Qed.

Lemma plannerNode_frame (state state' : BookState) (c c' : nat) :
  plannerNode llm registry state c = (Ok state', c') ->
  maxEditCycles state' = maxEditCycles state /\
  humanReview state' = humanReview state /\
  currentChapter state' = currentChapter state /\
  chapters state' = chapters state /\
  totalWordsWritten state' = totalWordsWritten state /\
  editCount state' = 0%nat /\ currentEditResult state' = None /\
  outline state' = outline state /\
  (1 <= currentChapter state <= match outline state with
                                | Some chs => List.length chs | None => 0 end)%nat.
Proof.
  unfold plannerNode. intros H. apply getModel_bind in H as [_ H]. revert H.
  destruct (outline state) as [chs|]; [|discriminate].
  destruct (nth_error chs (currentChapter state - 1)) as [plan|] eqn:E; [|discriminate].
  destruct (Nat.eqb_spec (currentChapter state) 0) as [E0|E0]; [discriminate|].
  intros H. apply bind_run in H as [(e & _ & E')|(dp & c1 & _ & H)]; [discriminate|].
  injection H as <- _. cbn. repeat split; try lia.
  assert (currentChapter state - 1 < List.length chs)%nat; [|lia].
  apply nth_error_Some. congruence.
Qed.

Lemma writerNode_frame (state state' : BookState) (c c' : nat) :
  writerNode llm minAcceptable registry state c = (Ok state', c') ->
  maxEditCycles state' = maxEditCycles state /\
  humanReview state' = humanReview state /\
  currentChapter state' = currentChapter state /\
  chapters state' = chapters state /\
  totalWordsWritten state' = totalWordsWritten state /\
  editCount state' = editCount state /\
  outline state' = outline state.
Proof.
  unfold writerNode. intros H. apply getModel_bind in H as [_ H]. revert H.
  destruct (currentDetailedPlan state) as [plan|]; [|discriminate].
  intros H. apply bind_run in H as [(e & _ & E')|([final costs0] & c1 & _ & H)]; [discriminate|].
  apply bind_run in H as [(e & _ & E')|([[[final' wc] costs1] pending] & c2 & _ & H)];
    [discriminate|].
  apply bind_run in H as [(e & _ & E')|(sm & c3 & _ & H)]; [discriminate|].
  injection H as <- _. cbn. repeat split.
Qed.

(** The editor node counts its cycle and keeps the verdict of the
    editor, which is the reply to its one call. *)
Lemma editorNode_run (state state' : BookState) (c c' : nat) :
  editorNode llm registry state c = (Ok state', c') ->
  c' = S c /\
  maxEditCycles state' = maxEditCycles state /\
  humanReview state' = humanReview state /\
  currentChapter state' = currentChapter state /\
  chapters state' = chapters state /\
  totalWordsWritten state' = totalWordsWritten state /\
  currentDraft state' = currentDraft state /\
  editCount state' = S (editCount state) /\
  outline state' = outline state /\
  exists e, llm c = EditReply e /\ currentEditResult state' = Some e.
Proof.
  unfold editorNode. intros H. apply getModel_bind in H as [_ H]. revert H.
  destruct (currentDetailedPlan state) as [plan|]; [|discriminate].
  destruct (outline state) as [chs|]; [|discriminate].
  unfold bind, generateEdit. cbn [callsOf tick natCalls].
  destruct (llm c) eqn:E; try discriminate.
  intros H. injection H as <- <-. cbn. rewrite Nat.add_1_r. repeat split. eauto.
Qed.


(** What the review step gives: nothing to act on when there is no
    review, the value [interrupt] returns otherwise. *)
Lemma humanReviewStep_run (state : BookState) (c : nat) :
  (humanReview state = false /\ humanReviewStep interrupt state c = (Ok reviewOther, c)) \/
  (humanReview state = true /\ interrupt c = reviewPending /\
   humanReviewStep interrupt state c = (Thrown GraphInterrupt, c)) \/
  (humanReview state = true /\ interrupt c <> reviewPending /\
   humanReviewStep interrupt state c = (Ok (interrupt c), c)).
Proof.
  unfold humanReviewStep. destruct (humanReview state); [|left; auto]. right.
  destruct (interrupt c); [left|right|right]; repeat split; discriminate.
Qed.

(** The two ways the continuity node returns: the reviewer rejected the
    chapter, and the book is as it was; or the chapter is closed. *)
Lemma continuityNode_run (state state' : BookState) (c c' : nat) :
  continuityNode llm registry interrupt state c = (Ok state', c') ->
  exists plan chs generatedSummary newSummary,
    registry roleContinuity = modelReady /\
    currentDetailedPlan state = Some plan /\ outline state = Some chs /\
    llm c = TextReply generatedSummary /\ (S c <= c' <= S (S c))%nat /\
    enforceSummaryLength llm generatedSummary (S c) = (Ok newSummary, c') /\
    maxEditCycles state' = maxEditCycles state /\
    humanReview state' = humanReview state /\
    outline state' = outline state /\
    currentDetailedPlan state' = currentDetailedPlan state /\
    currentDraft state' = currentDraft state /\
    editCount state' = editCount state /\
    costs state' = costs state ++ ["continuity"%string] /\
    ((humanReview state = true /\
      (exists notes editInstructions,
         interrupt c' = reviewObject (Some false) notes editInstructions /\
         currentEditResult state' = Some (reviewRejection notes editInstructions)) /\
      currentPhase state' = phaseWriting /\
      currentChapter state' = currentChapter state /\
      chapters state' = chapters state /\
      totalWordsWritten state' = totalWordsWritten state /\
      rollingSummary state' = rollingSummary state /\
      previousChapterEnding state' = previousChapterEnding state /\
      pendingEvents state' = pendingEvents state) \/
     ((humanReview state = false \/
       (interrupt c' <> reviewPending /\ rejects (interrupt c') = false)) /\
      currentPhase state' =
        (if (S (currentChapter state) <=? List.length chs)%nat then phasePlanning
         else phaseComplete) /\
      currentChapter state' = S (currentChapter state) /\
      chapters state' =
        chapters state ++ [completedChapter state plan (sliceTo 500 newSummary)] /\
      totalWordsWritten state' =
        (totalWordsWritten state + countWords (currentDraft state))%nat /\
      rollingSummary state' = newSummary /\
      previousChapterEnding state' = sliceLast 2000 (currentDraft state) /\
      currentEditResult state' = currentEditResult state /\
      pendingEvents state' =
        pendingEvents state ++
        [chapter_complete (Z.of_nat (currentChapter state))
           (countWords (currentDraft state))])).
Proof.
  unfold continuityNode. intros H. apply getModel_bind in H as [Hr H]. revert H.
  destruct (currentDetailedPlan state) as [plan|]; [|discriminate].
  destruct (outline state) as [chs|]; [|discriminate].
  intros H. apply bind_run in H as [(e & _ & E')|(g & c1 & Hg & H)]; [discriminate|].
  apply generateText_reply in Hg as [Hg ->].
  apply bind_run in H as [(e & _ & E')|(sm & c2 & Hs & H)]; [discriminate|].
  destruct (enforceSummaryLength_returns g (S c)) as (sm' & c2' & Hs' & Hc).
  rewrite Hs in Hs'. injection Hs' as <- <-.
  apply bind_run in H as [(e & _ & E')|(feedback & c3 & Hf & H)]; [discriminate|].
  exists plan, chs, g, sm.
  destruct (humanReviewStep_run state c2) as [[Hh Hf']|[(Hh & Hp & Hf')|(Hh & Hp & Hf')]];
    rewrite Hf' in Hf; [|discriminate|]; injection Hf as <- <-.
  - injection H as <- <-. fields. rewrite Nat.add_1_r.
    repeat (split; [trivial; lia|]). right. repeat split. auto.
  - destruct (interrupt c2) as [| |[[|]|] notes editInstructions] eqn:Ei;
      [exfalso; apply Hp; reflexivity|..];
      injection H as <- <-; fields; rewrite ?Nat.add_1_r, Ei;
      repeat (split; [trivial; lia|]).
    + right. repeat split. right. split; [discriminate|reflexivity].
    + right. repeat split. right. split; [discriminate|reflexivity].
    + left; repeat split; eauto.
    + right. repeat split. right. split; [discriminate|reflexivity].
Qed.


Lemma bookSound_frame (m : nat) (s s' : BookState) :
  maxEditCycles s' = maxEditCycles s -> currentChapter s' = currentChapter s ->
  chapters s' = chapters s -> totalWordsWritten s' = totalWordsWritten s ->
  bookSound m s -> bookSound m s'.
Proof. intros E1 E2 E3 E4. unfold bookSound. rewrite E1, E2, E3, E4. auto. Qed.

End GraphNodes.

(** * The editing stage *)

Section EditingStage.
Import Text Aux Refusal Data Effects Triples Session SessionRel Samples EditShape SessionShape.









End EditingStage.

(** * The expand loop *)

Section ExpandLoop.
Import Text Aux Refusal Data Effects Triples Session SessionRel Samples.

(** What a reply to an expand attempt leads to: it is adopted only when
    it is strictly longer; a reply that is not a refusal and is not
    longer stops the loop; a refusal never stops it. *)
Lemma expandVerdict_spec (wordCount : nat) (rawText : jstr) :
  match expandVerdict wordCount rawText with
  | Adopt text count => count = countWords text /\ (wordCount < count)%nat
  | Skip => isRefusal (detectRefusal rawText) = true
  | Stop => isRefusal (detectRefusal rawText) = false /\
            (countWords (stripExpandPreamble rawText) <= wordCount)%nat
  end.
Proof.
  unfold expandVerdict.
  destruct (isRefusal (detectRefusal rawText)) eqn:E.
  - destruct (_ || _); [reflexivity|].
    destruct (Nat.ltb_spec wordCount (countWords (cleanedText (detectRefusal rawText))));
      [split|]; trivial.
  - destruct (Nat.ltb_spec wordCount (countWords (stripExpandPreamble rawText)));
      split; trivial.
Qed.

(** The loop of the session never gives back a shorter text: it gives
    back the text it was given, or a longer one. *)
Lemma expandLoop_grows (llm : nat -> Reply) (cfg : Config) (n target : Z) (hasPlan : bool)
    (remaining attempts : nat) (current : jstr) (s : State) (r : jstr) (s' : State) :
  expandLoop llm cfg n target hasPlan remaining attempts current (countWords current) s
    = (Ok r, s') ->
  r = current \/ (countWords current < countWords r)%nat.
Proof.
  revert attempts current s.
  induction remaining as [|remaining IH]; intros attempts current s H; cbn [expandLoop] in H.
  - injection H as <- _. left. reflexivity.
  - destruct (countWords current <? minAcceptable cfg target)%nat.
    + apply bind_run in H as [(e & _ & E)|(u & s1 & _ & H)]; [discriminate|].
      apply bind_run in H as [(e & _ & E)|(raw & s2 & _ & H)]; [discriminate|].
      apply bind_run in H as [(e & _ & E)|(u' & s3 & _ & H)]; [discriminate|].
      pose proof (expandVerdict_spec (countWords current) raw) as V.
      destruct (expandVerdict (countWords current) raw) as [text count| |].
      * destruct V as [-> V]. apply IH in H as [->|H]; right; lia.
      * apply IH in H. exact H.
      * injection H as <- _. left. reflexivity.
    + injection H as <- _. left. reflexivity.
Qed.

Lemma expandLoop_attempt (llm : nat -> Reply) (cfg : Config) (n target : Z) (hasPlan : bool)
    (remaining attempts : nat) (current : jstr) (wordCount : nat) (s : State) (raw : jstr) :
  (wordCount < minAcceptable cfg target)%nat ->
  llm (calls s) = TextReply raw ->
  expandLoop llm cfg n target hasPlan (S remaining) attempts current wordCount s =
  match expandVerdict wordCount raw with
  | Adopt text count =>
      expandLoop llm cfg n target hasPlan remaining (S attempts) text count
        (afterAttempt n attempts wordCount hasPlan s)
  | Skip =>
      expandLoop llm cfg n target hasPlan remaining (S attempts) current wordCount
        (afterAttempt n attempts wordCount hasPlan s)
  | Stop => (Ok current, afterAttempt n attempts wordCount hasPlan s)
  end.
Proof.
  intros Hlt Hllm. cbn [expandLoop].
  apply Nat.ltb_lt in Hlt. rewrite Hlt.
  unfold bind at 1, emit, modify. unfold bind at 1, generateText.
  cbn [callsOf stateCalls calls setEvents]. rewrite Hllm.
  unfold bind at 1, addCostEntry, modify.
  destruct (expandVerdict wordCount raw); reflexivity.
Qed.

(** The loop of the writer node never gives back a shorter text, and the
    count it gives back is the count of the text. *)
Lemma writerExpand_grows (llm : nat -> Reply) (minAcceptable : Z -> nat) (chapter : Z)
    (remaining attempts : nat) (content : jstr) (costs : list string) (pending : list Event)
    (target : Z) (c : nat) (r : jstr) (count : nat) (costs' : list string)
    (pending' : list Event) (c' : nat) :
  Graph.writerExpand llm minAcceptable chapter remaining attempts content (countWords content)
    costs pending target c = (Ok (r, count, costs', pending'), c') ->
  count = countWords r /\ (r = content \/ (countWords content < countWords r)%nat).
Proof.
  revert attempts content costs pending c.
  induction remaining as [|remaining IH]; intros attempts content costs pending c H;
    cbn [Graph.writerExpand] in H.
  - injection H as <- <- _ _ _. auto.
  - destruct (countWords content <? minAcceptable target)%nat.
    + apply bind_run in H as [(e & _ & E)|(raw & c1 & _ & H)]; [discriminate|].
      match type of H with context [(countWords content <? countWords ?x)%nat] =>
        destruct (Nat.ltb_spec (countWords content) (countWords x)) as [Hlt|Hge] end.
      * apply IH in H as [-> [->|H]]; split; trivial; right; lia.
      * injection H as <- <- _ _ _. auto.
    + injection H as <- <- _ _ _. auto.
Qed.

(** In the writer node a reply that is not longer, salvaged or not,
    stops the loop at once. *)
Lemma writerExpand_stops (llm : nat -> Reply) (minAcceptable : Z -> nat) (chapter : Z)
    (remaining attempts : nat) (content : jstr) (costs : list string) (pending : list Event)
    (target : Z) (c : nat) (raw : jstr) :
  (countWords content < minAcceptable target)%nat ->
  llm c = TextReply raw ->
  (countWords (if isRefusal (detectRefusal raw) then cleanedText (detectRefusal raw) else raw)
     <= countWords content)%nat ->
  Graph.writerExpand llm minAcceptable chapter (S remaining) attempts content
    (countWords content) costs pending target c =
  (Ok (content, countWords content, costs,
       pending ++ [expand_attempt chapter (S attempts) (countWords content)]), S c).
Proof.
  intros Hlt Hllm Hle. cbn [Graph.writerExpand].
  apply Nat.ltb_lt in Hlt. rewrite Hlt.
  unfold bind, generateText. cbn [callsOf Graph.natCalls tick]. rewrite Hllm.
  apply Nat.ltb_ge in Hle. rewrite Hle. reflexivity.
Qed.

(** The four cases of an attempt of the loop of the session. *)
Lemma expandVerdict_cases (wordCount : nat) (rawText : jstr) :
  let salvage := cleanedText (detectRefusal rawText) in
  let stripped := stripExpandPreamble rawText in
  (isRefusal (detectRefusal rawText) = false ->
   (countWords stripped <= wordCount)%nat ->
   expandVerdict wordCount rawText = Stop) /\
  (isRefusal (detectRefusal rawText) = false ->
   (wordCount < countWords stripped)%nat ->
   expandVerdict wordCount rawText = Adopt stripped (countWords stripped)) /\
  (isRefusal (detectRefusal rawText) = true ->
   isRefusal (detectRefusal salvage) = false -> (100 <= countWords salvage)%nat ->
   (wordCount < countWords salvage)%nat ->
   expandVerdict wordCount rawText = Adopt salvage (countWords salvage)) /\
  (isRefusal (detectRefusal rawText) = true ->
   isRefusal (detectRefusal salvage) = true \/ (countWords salvage < 100)%nat \/
   (countWords salvage <= wordCount)%nat ->
   expandVerdict wordCount rawText = Skip).
Proof.
  cbv zeta. unfold expandVerdict. repeat split.
  - intros -> H. apply Nat.ltb_ge in H. rewrite H. reflexivity.
  - intros -> H. apply Nat.ltb_lt in H. rewrite H. reflexivity.
  - intros -> -> H1 H2. apply Nat.ltb_ge in H1. apply Nat.ltb_lt in H2.
    rewrite H1, H2. reflexivity.
  - intros -> [->|[H|H]]; [reflexivity| |].
    + apply Nat.ltb_lt in H. rewrite H, orb_true_r. reflexivity.
    + destruct (_ || _); [reflexivity|]. apply Nat.ltb_ge in H. rewrite H. reflexivity.
Qed.

(** The loop of the session makes no attempt when the text has the
    words asked for, or when no attempt is left. *)
Lemma expandLoop_rests (llm : nat -> Reply) (cfg : Config) (n target : Z) (hasPlan : bool)
    (remaining attempts : nat) (current : jstr) (wordCount : nat) (s : State) :
  remaining = 0%nat \/ (minAcceptable cfg target <= wordCount)%nat ->
  expandLoop llm cfg n target hasPlan remaining attempts current wordCount s = (Ok current, s).
Proof.
  intros [->|H]; [reflexivity|]. destruct remaining; [reflexivity|].
  cbn [expandLoop]. apply Nat.ltb_ge in H. rewrite H. reflexivity.
Qed.

(** In the writer node a reply that has more words, salvaged or not, is
    adopted, and the loop goes on. *)
Lemma writerExpand_adopts (llm : nat -> Reply) (minAcceptable : Z -> nat) (chapter : Z)
    (remaining attempts : nat) (content : jstr) (costs : list string) (pending : list Event)
    (target : Z) (c : nat) (raw : jstr) :
  let expanded :=
    if isRefusal (detectRefusal raw) then cleanedText (detectRefusal raw) else raw in
  (countWords content < minAcceptable target)%nat ->
  llm c = TextReply raw ->
  (countWords content < countWords expanded)%nat ->
  Graph.writerExpand llm minAcceptable chapter (S remaining) attempts content
    (countWords content) costs pending target c =
  Graph.writerExpand llm minAcceptable chapter remaining (S attempts) expanded
    (countWords expanded) (costs ++ ["writing_expand"%string])
    (pending ++ [expand_attempt chapter (S attempts) (countWords content)]) target (S c).
Proof.
  intros expanded Hlt Hllm Hgt. cbn [Graph.writerExpand].
  apply Nat.ltb_lt in Hlt. rewrite Hlt.
  unfold bind at 1, generateText. cbn [callsOf Graph.natCalls tick]. rewrite Hllm.
  fold expanded. apply Nat.ltb_lt in Hgt. rewrite Hgt. reflexivity.
Qed.

(** C5, as amended.  In both expand loops the text kept never gets
    shorter: a reply is adopted only when it has strictly more words,
    and the loop gives back its first text or a longer one.  In the
    writer node a reply that has more words, salvaged from a refusal or
    not, is adopted, and one that has not ends the loop at once.  In the
    session a reply that is not a refusal is adopted, its preamble
    stripped, when it has more words, and ends the loop at once when it
    has not; a reply classified as a refusal never ends the loop: its
    salvage is adopted when it is no refusal itself, has a hundred words
    and has more words than the text kept, and otherwise the attempt is
    skipped and the loop goes on with the next attempt.  The loop makes no
    attempt once the text has the words asked for or no attempt is
    left. *)
Theorem expand_loop_never_regresses :
  (forall llm cfg n content target maxAttempts hasPlan s r s',
     expandIfNeeded llm cfg n content target maxAttempts hasPlan s = (Ok r, s') ->
     r = content \/ (countWords content < countWords r)%nat) /\
  (forall llm cfg n target hasPlan remaining attempts current s r s',
     expandLoop llm cfg n target hasPlan remaining attempts current (countWords current) s
       = (Ok r, s') ->
     r = current \/ (countWords current < countWords r)%nat) /\
  (forall llm cfg n target hasPlan remaining attempts current wordCount s,
     remaining = 0%nat \/ (minAcceptable cfg target <= wordCount)%nat ->
     expandLoop llm cfg n target hasPlan remaining attempts current wordCount s
       = (Ok current, s)) /\
  (forall llm cfg n target hasPlan remaining attempts current wordCount s raw,
     (wordCount < minAcceptable cfg target)%nat ->
     llm (calls s) = TextReply raw ->
     let salvage := cleanedText (detectRefusal raw) in
     let stripped := stripExpandPreamble raw in
     let next := afterAttempt n attempts wordCount hasPlan s in
     let loop := expandLoop llm cfg n target hasPlan in
     (isRefusal (detectRefusal raw) = false ->
      (countWords stripped <= wordCount)%nat ->
      loop (S remaining) attempts current wordCount s = (Ok current, next)) /\
     (isRefusal (detectRefusal raw) = false ->
      (wordCount < countWords stripped)%nat ->
      loop (S remaining) attempts current wordCount s =
      loop remaining (S attempts) stripped (countWords stripped) next) /\
     (isRefusal (detectRefusal raw) = true ->
      isRefusal (detectRefusal salvage) = false -> (100 <= countWords salvage)%nat ->
      (wordCount < countWords salvage)%nat ->
      loop (S remaining) attempts current wordCount s =
      loop remaining (S attempts) salvage (countWords salvage) next) /\
     (isRefusal (detectRefusal raw) = true ->
      isRefusal (detectRefusal salvage) = true \/ (countWords salvage < 100)%nat \/
      (countWords salvage <= wordCount)%nat ->
      loop (S remaining) attempts current wordCount s =
      loop remaining (S attempts) current wordCount next)) /\
  (forall llm minAcceptable chapter remaining attempts content costs pending target c
          r count costs' pending' c',
     Graph.writerExpand llm minAcceptable chapter remaining attempts content
       (countWords content) costs pending target c = (Ok (r, count, costs', pending'), c') ->
     count = countWords r /\ (r = content \/ (countWords content < countWords r)%nat)) /\
  (forall llm minAcceptable chapter remaining attempts content costs pending target c raw,
     (countWords content < minAcceptable target)%nat ->
     llm c = TextReply raw ->
     (countWords (if isRefusal (detectRefusal raw) then cleanedText (detectRefusal raw) else raw)
        <= countWords content)%nat ->
     Graph.writerExpand llm minAcceptable chapter (S remaining) attempts content
       (countWords content) costs pending target c =
     (Ok (content, countWords content, costs,
          pending ++ [expand_attempt chapter (S attempts) (countWords content)]), S c)) /\
  (forall llm minAcceptable chapter remaining attempts content costs pending target c raw,
     let expanded :=
       if isRefusal (detectRefusal raw) then cleanedText (detectRefusal raw) else raw in
     (countWords content < minAcceptable target)%nat ->
     llm c = TextReply raw ->
     (countWords content < countWords expanded)%nat ->
     Graph.writerExpand llm minAcceptable chapter (S remaining) attempts content
       (countWords content) costs pending target c =
     Graph.writerExpand llm minAcceptable chapter remaining (S attempts) expanded
       (countWords expanded) (costs ++ ["writing_expand"%string])
       (pending ++ [expand_attempt chapter (S attempts) (countWords content)]) target (S c)).
Proof.
  split.
  { intros llm cfg n content target maxAttempts hasPlan s r s'. unfold expandIfNeeded.
    apply expandLoop_grows. }
  split; [exact expandLoop_grows|].
  split; [exact expandLoop_rests|].
  split.
  { intros llm cfg n target hasPlan remaining attempts current wordCount s raw Hlt Hllm.
    cbv zeta.
    pose proof (expandLoop_attempt llm cfg n target hasPlan remaining attempts current
                  wordCount s raw Hlt Hllm) as E.
    destruct (expandVerdict_cases wordCount raw) as (V1 & V2 & V3 & V4).
    repeat split; intros; rewrite E;
      [rewrite V1|rewrite V2|rewrite V3|rewrite V4]; trivial. }
  split; [exact writerExpand_grows|].
  split; [exact writerExpand_stops|exact writerExpand_adopts].
Qed.

(** C5, the claim as stated fails in the session: the first attempt is a
    refusal, of fewer words than the text kept; the loop does not end
    there, and the second attempt replaces the text kept. *)
Lemma expandIfNeeded_goes_on_after_a_refusal :
  let llm := script [TextReply (refusalWith 3); TextReply (wordsText 90)] in
  let '(r, s') := expandIfNeeded llm sampleConfig 1 (wordsText 20) 100 3 false initialState in
  isRefusal (detectRefusal (refusalWith 3)) = true /\
  (countWords (refusalWith 3) <= countWords (wordsText 20))%nat /\
  r = Ok (wordsText 90) /\
  calls s' = 2%nat /\
  events s' = [expand_attempt 1 1 20; expand_attempt 1 2 20].
Proof. vm_compute. repeat split; lia. Qed.

(** The scenario of the specification: a draft of 400 words for a target
    of 1000; the first attempt gives 900 words and the loop ends. *)
Example expand_to_900_words :
  let llm := script [TextReply (wordsText 900)] in
  let '(r, s') := expandIfNeeded llm sampleConfig 1 (wordsText 400) 1000 3 false initialState in
  minAcceptable sampleConfig 1000 = 850%nat /\
  r = Ok (wordsText 900) /\
  countWords (wordsText 900) = 900%nat /\
  calls s' = 1%nat /\
  events s' = [expand_attempt 1 1 400].
Proof. vm_compute. repeat split. Qed.

End ExpandLoop.

(** * The refusal loop of the writing step *)

Section RefusalLoop.
Import Text Aux Refusal Data Effects Triples Session SessionRel Samples DraftShape.

Lemma generateText_run {S : Type} `{Calls S} (llm : nat -> Reply) (s : S) (text : jstr) (s' : S) :
  generateText llm s = (Ok text, s') -> llm (callsOf s) = TextReply text.
Proof.
  unfold generateText. destruct (llm (callsOf s)); intros E; try discriminate.
  injection E as <- _. reflexivity.
Qed.

(** The loop of the session keeps a candidate, and gives back a reply
    that is not a refusal, or the candidate when it has a hundred words,
    or the empty text. *)
Lemma writeAttempts_draft (llm : nat -> Reply) (cfg : Config) (plan : DetailedChapterPlan)
    (remaining attempt : nat) (bestText : jstr) (bestWordCount : nat)
    (s : State) (text : jstr) (s' : State) :
  candidate llm bestText bestWordCount ->
  writeAttempts llm plan remaining attempt bestText bestWordCount s = (Ok text, s') ->
  replied llm text \/ text = [] \/ ((100 <= countWords text)%nat /\ salvaged llm text).
Proof.
  revert attempt bestText bestWordCount s.
  induction remaining as [|remaining IH]; intros attempt bestText bestWordCount s C H.
  - change (writeAttempts llm plan 0 attempt bestText bestWordCount s)
      with (Ok (if (100 <=? bestWordCount)%nat then bestText else []), s) in H.
    destruct (Nat.leb_spec 100 bestWordCount) as [Hle|Hlt]; injection H as <- _; [|auto].
    destruct C as [[_ ->]|[-> C]]; [lia|]. auto.
  - cbn [writeAttempts] in H.
    apply bind_run in H as [(e & _ & E)|(raw & s1 & Hraw & H)]; [discriminate|].
    apply generateText_run in Hraw.
    apply bind_run in H as [(e & _ & E)|(u & s2 & _ & H)]; [discriminate|].
    destruct (isRefusal (detectRefusal raw)) eqn:R; cbn [negb] in H.
    + apply bind_run in H as [(e & _ & E)|(u' & s3 & _ & H)]; [discriminate|].
      destruct (isRefusal (detectRefusal (cleanedText (detectRefusal raw)))) eqn:R'; cbn [negb andb] in H.
      * eapply IH; [exact C|exact H].
      * destruct (_ <? _)%nat; [|eapply IH; [exact C|exact H]].
        eapply IH; [|exact H].
        right. split; [reflexivity|]. exists (callsOf s), raw. auto.
    + injection H as <- _. left. exists (callsOf s). auto.
Qed.

Lemma writeChapter_draft (llm : nat -> Reply) (cfg : Config) (plan : DetailedChapterPlan)
    (s : State) (text : jstr) (s' : State) :
  writeChapter llm plan s = (Ok text, s') ->
  replied llm text \/ text = [] \/ ((100 <= countWords text)%nat /\ salvaged llm text).
Proof.
  apply (writeAttempts_draft llm cfg). left. auto.
Qed.

(** The scenario of the specification in the session: what is left of
    the four refusals has 40, 80, 150 and 60 words, and the draft is the
    text of 150 words. *)
Example writeChapter_selects_the_longest :
  let llm := script (refusals [40; 80; 150; 60]%nat) in
  let '(r, s') := writeChapter llm (mkDetailed 1 (js "Title") 1000) initialState in
  r = Ok (cleanedText (detectRefusal (refusalWith 150))) /\
  countWords (cleanedText (detectRefusal (refusalWith 150))) = 150%nat /\
  calls s' = 4%nat.
Proof. vm_compute. auto. Qed.

(** In the session a best candidate of fewer than a hundred words is
    dropped. *)
Example writeChapter_drops_a_short_candidate :
  let llm := script (refusals [40; 80; 90; 60]%nat) in
  let '(r, s') := writeChapter llm (mkDetailed 1 (js "Title") 1000) initialState in
  r = Ok [] /\ calls s' = 4%nat.
Proof. vm_compute. auto. Qed.

(** The writer node selects the longest candidate too. *)
Example writerDraft_selects_the_longest :
  let llm := script (refusals [40; 80; 150; 60]%nat) in
  let '(r, c) := Graph.writerDraft llm 0%nat in
  r = Ok (cleanedText (detectRefusal (refusalWith 150)),
          ["writing"; "writing_refusal_retry"; "writing_refusal_retry";
           "writing_refusal_retry"]%string) /\
  c = 4%nat.
Proof. vm_compute. auto. Qed.

(** C2, where the code departs from the claim: in the writer node the
    best candidate is the draft whatever its length.  Four refusals
    leave 40, 80, 90 and 60 words, each of them not a refusal; the draft
    of the writer node is the text of 90 words, where the session, on the
    same replies, has the empty draft. *)
Theorem writerDraft_keeps_a_short_candidate :
  let llm := script (refusals [40; 80; 90; 60]%nat) in
  let '(r, c) := Graph.writerDraft llm 0%nat in
  let '(r', s') := writeChapter llm (mkDetailed 1 (js "Title") 1000) initialState in
  forallb (fun n => isRefusal (detectRefusal (refusalWith n)) &&
                    negb (isRefusal (detectRefusal (cleanedText (detectRefusal (refusalWith n))))) &&
                    (countWords (cleanedText (detectRefusal (refusalWith n))) =? n)%nat)
    [40; 80; 90; 60]%nat = true /\
  r = Ok (cleanedText (detectRefusal (refusalWith 90)),
          ["writing"; "writing_refusal_retry"; "writing_refusal_retry";
           "writing_refusal_retry"]%string) /\
  countWords (cleanedText (detectRefusal (refusalWith 90))) = 90%nat /\
  c = 4%nat /\
  r' = Ok [].
Proof. vm_compute. repeat split. Qed.

End RefusalLoop.

(** * The rolling summary *)

Section RollingSummary.
Import Text Aux Refusal Data Effects Triples Session SessionRel Samples.

(** A summary within the cap is stored as it is, with no second call. *)
Lemma updateContinuity_within_cap (llm : nat -> Reply) (cfg : Config) (chapter : ChapterContent)
    (s : State) (summary : jstr) :
  hasContinuityModel cfg = true ->
  llm (calls s) = TextReply summary ->
  (countWords summary <= maxSummaryWords)%nat ->
  exists s', updateContinuity llm cfg chapter s = (Ok tt, s') /\
             rollingSummary s' = summary /\ calls s' = S (calls s).
Proof.
  intros Hm Hllm Hle. unfold updateContinuity. rewrite Hm. cbn [negb].
  unfold tryCatch, bind at 1, generateText. cbn [callsOf stateCalls]. rewrite Hllm.
  apply Nat.ltb_ge in Hle. rewrite Hle.
  eexists. split; [reflexivity|]. split; reflexivity.
Qed.

(** A summary over the cap is replaced by the reply to the one
    condensation call, which is not counted. *)
Lemma updateContinuity_condensed (llm : nat -> Reply) (cfg : Config) (chapter : ChapterContent)
    (s : State) (summary condensed : jstr) :
  hasContinuityModel cfg = true ->
  llm (calls s) = TextReply summary ->
  (maxSummaryWords < countWords summary)%nat ->
  llm (S (calls s)) = TextReply condensed ->
  exists s', updateContinuity llm cfg chapter s = (Ok tt, s') /\
             rollingSummary s' = condensed /\ calls s' = S (S (calls s)).
Proof.
  intros Hm Hllm Hlt Hc. unfold updateContinuity. rewrite Hm. cbn [negb].
  unfold tryCatch at 1, bind at 1, generateText at 1. cbn [callsOf stateCalls]. rewrite Hllm.
  apply Nat.ltb_lt in Hlt. rewrite Hlt.
  unfold bind at 1, tryCatch, bind at 1, generateText. cbn [callsOf stateCalls tick calls setCalls].
  rewrite Hc.
  eexists. split; [reflexivity|]. split; reflexivity.
Qed.

(** When the condensation call fails the session stores the summary as
    it was produced. *)
Lemma updateContinuity_condensation_fails (llm : nat -> Reply) (cfg : Config)
    (chapter : ChapterContent) (s : State) (summary : jstr) (message : jstr) :
  hasContinuityModel cfg = true ->
  llm (calls s) = TextReply summary ->
  (maxSummaryWords < countWords summary)%nat ->
  llm (S (calls s)) = Failure message ->
  exists s', updateContinuity llm cfg chapter s = (Ok tt, s') /\
             rollingSummary s' = summary /\ calls s' = S (S (calls s)).
Proof.
  intros Hm Hllm Hlt Hc. unfold updateContinuity. rewrite Hm. cbn [negb].
  unfold tryCatch at 1, bind at 1, generateText at 1. cbn [callsOf stateCalls]. rewrite Hllm.
  apply Nat.ltb_lt in Hlt. rewrite Hlt.
  unfold bind at 1, tryCatch, bind at 1, generateText. cbn [callsOf stateCalls tick calls setCalls].
  rewrite Hc.
  eexists. split; [reflexivity|]. split; reflexivity.
Qed.

(** The fallback of the node appends whole sentences: what it gives is
    the sentences it took, joined by single spaces. *)
Lemma truncateBySentences_whole (truncated : jstr) (sentences : list jstr) :
  exists taken rest,
    sentences = taken ++ rest /\
    Graph.truncateBySentences truncated sentences =
    fold_left (fun acc sentence => acc ++ (if isEmpty acc then [] else [32]) ++ sentence)
      taken truncated.
Proof.
  revert truncated. induction sentences as [|sentence rest IH]; intros truncated.
  - exists [], []. auto.
  - cbn [Graph.truncateBySentences].
    destruct (_ <? _)%nat.
    + exists [], (sentence :: rest). auto.
    + destruct (IH (truncated ++ (if isEmpty truncated then [] else [32]) ++ sentence))
        as (taken & rest' & -> & E).
      exists (sentence :: taken), rest'. split; [reflexivity|]. exact E.
Qed.

(** C1, where the code departs from the claim: the summary produced has
    2001 words and the condensation call fails; the session stores the
    2001 words, with no truncation. *)
Theorem updateContinuity_stores_over_the_cap :
  let llm := script [TextReply (wordsText 2001); Failure (js "overloaded")] in
  let chapter := mkChapter 1 (js "Title") (wordsText 9) 9 (js "summary") 0 true in
  let '(r, s') := updateContinuity llm sampleConfig chapter (approvedSession 1) in
  r = Ok tt /\
  calls s' = 2%nat /\
  rollingSummary s' = wordsText 2001 /\
  countWords (rollingSummary s') = 2001%nat /\
  (maxSummaryWords < countWords (rollingSummary s'))%nat.
Proof. vm_compute. repeat split. lia. Qed.

(** The fallback of the node counts [truncated + sentence] before the
    space that joins them is there: the last word of the text and the
    first of the sentence count as one, and the text that comes out has
    2001 words. *)
Example continuityNode_truncation_over_the_cap :
  let llm := script [TextReply twoSentences; Failure (js "overloaded")] in
  let '(r, c) := Graph.enforceSummaryLength llm twoSentences 1%nat in
  countWords twoSentences = 2001%nat /\
  List.length (splitSentences twoSentences) = 2%nat /\
  r = Ok twoSentences /\
  c = 2%nat.
Proof. vm_compute. repeat split. Qed.

(** The node stores the reply to the condensation call as it comes. *)
Example continuityNode_condensed_over_the_cap :
  let llm := script [TextReply (wordsText 2001); TextReply (wordsText 2001)] in
  let '(r, c) := Graph.enforceSummaryLength llm (wordsText 2001) 1%nat in
  r = Ok (wordsText 2001) /\ c = 2%nat.
Proof. vm_compute. auto. Qed.

End RollingSummary.

(** * Three rejections *)

Section ThreeRejections.
Import Text Aux Refusal Data Effects Triples Session SessionRel Samples EditShape.

(** The scenario of the specification in the session: with three edit
    cycles the editor rejects three times, and the chapter is stored as
    approved, with three cycles in its history. *)
Example session_three_rejections :
  let llm := script [PlanReply (mkDetailed 1 (js "Title") 10); TextReply (wordsText 9);
                     rejection; TextReply (wordsText 9);
                     rejection; TextReply (wordsText 9);
                     rejection; TextReply (wordsText 9);
                     TextReply (js "summary"); TextReply (js "story so far")] in
  let '(r, s') := generateChapter llm sampleConfig (Some 1%Z) (approvedSession 1) in
  match r with
  | Ok res =>
      chApproved (chapter res) = true /\
      chEditCount (chapter res) = 3%nat /\
      map cycleApproved (editHistory res) = [false; false; false]
  | Thrown _ => False
  end /\
  calls s' = 10%nat /\
  chapterStatuses s' !! 1%Z = Some approved.
Proof. vm_compute. repeat split. Qed.

(** The same in the graph: the editor sends the draft back to the writer
    twice, the third rejection goes on to continuity, and the chapter is
    stored as approved. *)
Example graph_three_rejections :
  let run steps :=
    fst (Graph.runGraph (script GraphSamples.threeRejections) (minAcceptable sampleConfig)
           GraphSamples.allModels GraphSamples.noReviewer steps Graph.toWriter
           GraphSamples.freshBook 0%nat) in
  match run 2%nat, run 4%nat, run 6%nat, run 7%nat with
  | Ok (r2, s2), Ok (r4, s4), Ok (r6, s6), Ok (r7, s7) =>
      r2 = Graph.toWriter /\ Graph.editCount s2 = 1%nat /\
      r4 = Graph.toWriter /\ Graph.editCount s4 = 2%nat /\
      r6 = Graph.toContinuity /\ Graph.editCount s6 = 3%nat /\
      r7 = Graph.toEnd /\
      map chApproved (Graph.chapters s7) = [true] /\
      map chEditCount (Graph.chapters s7) = [3%nat]
  | _, _, _, _ => False
  end.
Proof. vm_compute. repeat split. Qed.

End ThreeRejections.

(** * Counting words *)

Section WordFacts.
Import Text Words.

Lemma splitWsGo_cons (skip : bool) (s : jstr) :
  exists p ps, splitWsGo skip s = p :: ps.
Proof.
  revert skip. induction s as [|c s IH]; intros skip; cbn [splitWsGo]; [eauto|].
  destruct (isSpace c).
  - destruct skip; [apply IH|eauto].
  - destruct (IH false) as (p & ps & ->). cbn. eauto.
Qed.

Lemma nonEmptyCount_consFirst (c : N) (l : list jstr) :
  l <> [] -> nonEmptyCount (consFirst c l) = S (nonEmptyCount (tl l)).
Proof. destruct l as [|p ps]; [congruence|]. intros _. reflexivity. Qed.

Lemma splitWsGo_words (s : jstr) :
  (forall skip, nonEmptyCount (splitWsGo skip s) = wordsGo false s) /\
  nonEmptyCount (tl (splitWsGo false s)) = wordsGo true s.
Proof.
  induction s as [|c s [IH1 IH2]]; [split; [intros []|]; reflexivity|].
  cbn [splitWsGo wordsGo]. destruct (isSpace c).
  - split; [intros []; apply (IH1 true)|]. cbn [tl]. apply IH1.
  - assert (splitWsGo false s <> []) as N
        by (destruct (splitWsGo_cons false s) as (p & ps & ->); discriminate).
    split; [intros _; rewrite nonEmptyCount_consFirst, IH2 by exact N; reflexivity|].
    destruct (splitWsGo false s) as [|p ps]; [congruence|]. exact IH2.
Qed.

(** [countWords] counts the maximal runs of code units that are not
    white space. *)
Lemma countWords_words (s : jstr) : countWords s = wordsGo false s.
Proof. apply (proj1 (splitWsGo_words s) false). Qed.

Lemma wordsGo_true_le (s : jstr) :
  (wordsGo true s <= wordsGo false s <= S (wordsGo true s))%nat.
Proof. destruct s as [|c s]; cbn [wordsGo]; [lia|]. destruct (isSpace c); lia. Qed.

Lemma wordsGo_true (s : jstr) :
  wordsGo false s = ((if startsInWord s then 1 else 0) + wordsGo true s)%nat.
Proof. destruct s as [|c s]; cbn [wordsGo startsInWord]; [lia|]. destruct (isSpace c); cbn; lia. Qed.

Lemma endsInWord_cons (c : N) (s : jstr) :
  endsInWord (c :: s) = match s with [] => negb (isSpace c) | _ => endsInWord s end.
Proof.
  unfold endsInWord. cbn [rev]. destruct s as [|d s]; [reflexivity|].
  cbn [rev]. destruct (rev s) as [|e r]; reflexivity.
Qed.

Lemma wordsGo_app (inWord : bool) (a b : jstr) :
  wordsGo inWord (a ++ b) =
  (wordsGo inWord a +
   wordsGo (match a with [] => inWord | _ => endsInWord a end) b)%nat.
Proof.
  revert inWord. induction a as [|c a IH]; intros inWord; [reflexivity|].
  cbn [app wordsGo]. rewrite endsInWord_cons.
  destruct (isSpace c) eqn:E; rewrite IH; destruct a; cbn [negb]; lia.
Qed.

Lemma endsInWord_app_space (a : jstr) (c : N) :
  isSpace c = true -> endsInWord (a ++ [c]) = false.
Proof. intros E. unfold endsInWord. rewrite rev_app_distr. cbn. rewrite E. reflexivity. Qed.

(** Two texts put end to end have the words of both, one less when a
    word runs across the joint. *)
Lemma countWords_app (a b : jstr) :
  countWords (a ++ b) =
  (countWords a + countWords b - (if endsInWord a && startsInWord b then 1 else 0))%nat.
Proof.
  rewrite !countWords_words, wordsGo_app.
  destruct a as [|c a]; [cbn; lia|].
  destruct (endsInWord (c :: a)); cbn [andb]; [|lia].
  rewrite (wordsGo_true b). destruct (startsInWord b); lia.
Qed.

Lemma countWords_space (a b : jstr) (c : N) :
  isSpace c = true -> countWords (a ++ c :: b) = (countWords a + countWords b)%nat.
Proof.
  intros E. change (a ++ c :: b) with (a ++ [c] ++ b). rewrite app_assoc.
  rewrite (countWords_app (a ++ [c]) b), endsInWord_app_space by exact E.
  rewrite countWords_app. cbn [andb startsInWord]. rewrite E. cbn [negb].
  rewrite andb_false_r. rewrite (countWords_words [c]). cbn [wordsGo]. rewrite E. lia.
Qed.

Lemma countWords_app_bounds (a b : jstr) :
  (countWords (a ++ b) <= countWords a + countWords b <= S (countWords (a ++ b)))%nat.
Proof.
  rewrite countWords_app.
  destruct (endsInWord a && startsInWord b) eqn:E; [|lia].
  apply andb_prop in E as [Ea Eb].
  assert (1 <= countWords b)%nat.
  { rewrite countWords_words, wordsGo_true, Eb. lia. }
  lia.
Qed.

(** X1. [countWords] is additive over white space: a text made of two
    texts with one white space character between them has the words of
    both; without the white space it has the words of both, or one
    less, when a word runs across the joint.  A text of white space
    only has no word. *)
Theorem countWords_is_additive :
  (forall a b c, isSpace c = true ->
     countWords (a ++ c :: b) = (countWords a + countWords b)%nat) /\
  (forall a b,
     (countWords (a ++ b) <= countWords a + countWords b <= S (countWords (a ++ b)))%nat) /\
  (forall a b, endsInWord a && startsInWord b = false ->
     countWords (a ++ b) = (countWords a + countWords b)%nat) /\
  (forall s, forallb isSpace s = true -> countWords s = 0%nat).
Proof.
  split; [exact countWords_space|]. split; [exact countWords_app_bounds|]. split.
  - intros a b E. rewrite countWords_app, E. lia.
  - intros s. rewrite countWords_words.
    induction s as [|c s IH]; [reflexivity|]. cbn [forallb wordsGo].
    intros H. apply andb_prop in H as [-> H]. apply IH, H.
Qed.

End WordFacts.

(** * The refusal classifier: more of its behaviour *)

Section RefusalMore.
Import Text Aux Regex Refusal.

Lemma normalizeChar_idem (c : N) : normalizeChar (normalizeChar c) = normalizeChar c.
Proof.
  unfold normalizeChar at 2 3.
  destruct ((c =? 8216) || (c =? 8217) || (c =? 8218) || (c =? 8249) || (c =? 8250)) eqn:E1;
    [reflexivity|].
  destruct ((c =? 8220) || (c =? 8221) || (c =? 8222) || (c =? 171) || (c =? 187)) eqn:E2;
    [reflexivity|].
  unfold normalizeChar. rewrite E1, E2. reflexivity.
Qed.

Lemma normalizeChar_ascii (c : N) : c < 128 -> normalizeChar c = c.
Proof.
  intros H. unfold normalizeChar.
  repeat match goal with
         | |- context [(c =? ?k)] => destruct (N.eqb_spec c k); [lia|]; cbn [orb]
         end.
  reflexivity.
Qed.

Lemma normalizeChar_space (c : N) : isSpace (normalizeChar c) = isSpace c.
Proof.
  unfold normalizeChar.
  repeat match goal with
         | |- context [(c =? ?k)] => destruct (N.eqb_spec c k); [subst; reflexivity|]; cbn [orb]
         end.
  reflexivity.
Qed.

Lemma normalizeQuotes_ltrim (t : jstr) :
  normalizeQuotes (ltrim t) = ltrim (normalizeQuotes t).
Proof.
  induction t as [|c t IH]; [reflexivity|].
  cbn [ltrim normalizeQuotes map]. rewrite normalizeChar_space.
  destruct (isSpace c); [exact IH|reflexivity].
Qed.

Lemma normalizeQuotes_rev (t : jstr) : normalizeQuotes (rev t) = rev (normalizeQuotes t).
Proof. apply map_rev. Qed.

(** X2. [normalizeQuotes] replaces code units one for one: the length is
    kept, white space stays where it is, so that it commutes with
    [trim]; a second pass changes nothing, and a text of ASCII
    characters is left as it is. *)
Theorem normalizeQuotes_one_for_one :
  (forall t, List.length (normalizeQuotes t) = List.length t) /\
  (forall t, normalizeQuotes (normalizeQuotes t) = normalizeQuotes t) /\
  (forall t, normalizeQuotes (trim t) = trim (normalizeQuotes t)) /\
  (forall t, Forall (fun c => c < 128) t -> normalizeQuotes t = t).
Proof.
  repeat split.
  - intros t. apply length_map.
  - intros t. unfold normalizeQuotes. rewrite map_map. apply map_ext, normalizeChar_idem.
  - intros t. unfold trim, rtrim.
    rewrite normalizeQuotes_rev, normalizeQuotes_ltrim, normalizeQuotes_rev,
      normalizeQuotes_ltrim. reflexivity.
  - intros t H. induction H as [|c t Hc Ht IH]; [reflexivity|].
    cbn [normalizeQuotes map]. rewrite normalizeChar_ascii by exact Hc.
    f_equal. exact IH.
Qed.

Lemma stripRefusalPreamble_trimmed (t : jstr) :
  trim (stripRefusalPreamble (trim t)) = stripRefusalPreamble (trim t).
Proof.
  unfold stripRefusalPreamble.
  destruct (findStoryStart 0 (splitPara (trim t))) as [[|i]|]; apply trim_idem.
Qed.

Lemma detectRefusal_trim (t : jstr) : detectRefusal (trim t) = detectRefusal t.
Proof. unfold detectRefusal. rewrite trim_idem. reflexivity. Qed.

Lemma cleanedText_trimmed (t : jstr) :
  trim (cleanedText (detectRefusal t)) = cleanedText (detectRefusal t).
Proof.
  unfold detectRefusal.
  destruct (isEmpty (trim t)); cbn [cleanedText]; [apply trim_idem|].
  destruct (_ <? _)%nat; cbn [cleanedText]; [apply trim_idem|].
  apply stripRefusalPreamble_trimmed.
Qed.

(** X3. [detectRefusal] reads its text trimmed: white space around the
    text changes nothing, the cleaned text it gives has no white space
    around it, and classifying the cleaned text of a text that is not a
    refusal gives the same result again.  A blank text is no refusal. *)
Theorem detectRefusal_reads_trimmed :
  (forall t, detectRefusal (trim t) = detectRefusal t) /\
  (forall t, trim (cleanedText (detectRefusal t)) = cleanedText (detectRefusal t)) /\
  (forall t, isRefusal (detectRefusal t) = false ->
     detectRefusal (cleanedText (detectRefusal t)) = detectRefusal t) /\
  (forall t, isEmpty (trim t) = true -> detectRefusal t = mkRefusalResult false []).
Proof.
  split; [exact detectRefusal_trim|]. split; [exact cleanedText_trimmed|]. split.
  - intros t H. rewrite <- (detectRefusal_trim t) at 2. f_equal.
    unfold detectRefusal in *.
    destruct (isEmpty (trim t)); [reflexivity|].
    destruct (_ <? _)%nat; [reflexivity|discriminate].
  - intros t H. unfold detectRefusal. rewrite H.
    destruct (trim t); [reflexivity|discriminate].
Qed.

(** ** What is left after the scrub *)

Lemma splitParaGo_sub (b : bool) (s p : jstr) (c : N) :
  In p (splitParaGo b s) -> In c p -> In c s.
Proof.
  revert b p. induction s as [|d s IH]; intros b p; cbn [splitParaGo].
  - intros [<-|[]] [].
  - assert (forall L, (forall q, In q L -> In c q -> In c s) ->
                      In p (consFirst d L) -> In c p -> In c (d :: s)) as K.
    { intros [|q L] HL; cbn [consFirst].
      - intros [<-|[]] [<-|[]]. left. reflexivity.
      - intros [<-|Hp] Hc.
        + destruct Hc as [<-|Hc]; [left; reflexivity|].
          right. apply (HL q); [left; reflexivity|exact Hc].
        + right. apply (HL p); [right; exact Hp|exact Hc]. }
    destruct (isNL d).
    + destruct b; [intros Hp Hc; right; eapply IH; eauto|].
      destruct (startsNL s).
      * intros [<-|Hp] Hc; [destruct Hc|]. right. eapply IH; eauto.
      * apply K. intros q. apply IH.
    + apply K. intros q. apply IH.
Qed.

Lemma allSpace_trim (p : jstr) : allSpace p = true -> trim p = [].
Proof.
  intros H. unfold trim. apply ltrim_nil_iff in H. rewrite H. reflexivity.
Qed.

Lemma keepParagraph_blank (p : jstr) : allSpace p = true -> keepParagraph p = true.
Proof. intros H. unfold keepParagraph. rewrite (allSpace_trim p H). reflexivity. Qed.

Lemma trim_nil_allSpace (x : jstr) : isEmpty (trim x) = true -> allSpace x = true.
Proof.
  intros H. apply isEmpty_true in H. unfold trim in H.
  apply rtrim_nil_iff in H. apply ltrim_nil_iff.
  destruct (ltrim_head x) as [E0|(c & t & E0 & C)]; [exact E0|].
  rewrite E0 in H. unfold allSpace in H. cbn [forallb] in H. rewrite C in H. discriminate.
Qed.

(** X4. After [stripRefusalContent] every paragraph of the text is one
    that the scan keeps: it is blank, or it matches fewer than two of the
    refusal patterns and is no list of options. *)
Theorem stripRefusalContent_leaves_clean_paragraphs (x : jstr) :
  Forall (fun p => keepParagraph p = true) (splitPara (stripRefusalContent x)).
Proof.
  unfold stripRefusalContent.
  destruct (isEmpty (trim x)) eqn:E.
  - apply trim_nil_allSpace in E. apply List.Forall_forall. intros p Hp.
    apply keepParagraph_blank. unfold allSpace. apply forallb_forall. intros c Hc.
    unfold allSpace in E. rewrite forallb_forall in E. apply E.
    eapply splitParaGo_sub; eauto.
  - set (F := List.filter keepParagraph (splitPara x)).
    assert (Forall (fun p => keepParagraph p = true) F) as HF by apply filter_kept.
    assert (trim (join PARA_SEP F) = join PARA_SEP (rtrimP (ltrimP F))) as ET.
    { unfold trim. rewrite ltrim_join, rtrim_join. reflexivity. }
    rewrite ET.
    destruct (rtrimP (ltrimP F)) as [|q l] eqn:ER.
    + cbn. constructor; [reflexivity|constructor].
    + assert (ltrimP F <> []) as N1 by (intros E0; rewrite E0 in ER; discriminate).
      assert (F <> []) as N0 by (intros E0; rewrite E0 in N1; apply N1; reflexivity).
      rewrite <- ER.
      rewrite splitPara_join.
      * apply keep_rtrimP, keep_ltrimP, HF.
      * apply wfParas_rtrimP; [|rewrite ER; discriminate].
        apply wfParas_ltrimP; [|exact N1].
        apply wfParas_filter; [apply splitPara_wf|exact N0].
Qed.

(** ** Nothing is added *)

Lemma length_join_cons (sep p : jstr) (L : list jstr) :
  List.length (join sep (p :: L)) =
  (List.length p + match L with [] => 0 | _ => List.length sep + List.length (join sep L) end)%nat.
Proof. destruct L as [|q L]; cbn [join]; rewrite ?length_app; lia. Qed.

Lemma length_join_filter (sep : jstr) (f : jstr -> bool) (L : list jstr) :
  (List.length (join sep (List.filter f L)) <= List.length (join sep L))%nat.
Proof.
  induction L as [|p L IH]; [reflexivity|].
  cbn [List.filter]. rewrite (length_join_cons sep p L).
  destruct (f p).
  - rewrite length_join_cons. destruct (List.filter f L) eqn:EF; [lia|].
    destruct L; [discriminate|]. lia.
  - destruct L; [cbn; lia|]. lia.
Qed.

Lemma length_join_skipn (sep : jstr) (n : nat) (L : list jstr) :
  (List.length (join sep (skipn n L)) <= List.length (join sep L))%nat.
Proof.
  revert L. induction n as [|n IH]; intros L; [reflexivity|].
  destruct L as [|p L]; [reflexivity|]. cbn [skipn].
  rewrite (length_join_cons sep p L). specialize (IH L). destruct L; [cbn in *; lia|]. lia.
Qed.

Lemma length_join_consFirst (sep : jstr) (c : N) (L : list jstr) :
  L <> [] -> List.length (join sep (consFirst c L)) = S (List.length (join sep L)).
Proof. destruct L as [|p L]; [congruence|]. intros _. cbn [consFirst]. rewrite !length_join_cons. reflexivity. Qed.

Lemma length_join_splitParaGo (s : jstr) :
  (List.length (join PARA_SEP (splitParaGo false s)) <= List.length s)%nat /\
  (List.length (join PARA_SEP (splitParaGo true s)) <= List.length s)%nat /\
  (startsNL s = true ->
   (S (List.length (join PARA_SEP (splitParaGo true s))) <= List.length s)%nat).
Proof.
  induction s as [|c s (A & B & B')]; [cbn; repeat split; try lia; discriminate|].
  assert (splitParaGo false s <> []) as N
      by (destruct (splitParaGo_cons false s) as (p & ps & ->); discriminate).
  assert (splitParaGo true s <> []) as N'
      by (destruct (splitParaGo_cons true s) as (p & ps & ->); discriminate).
  cbn [splitParaGo startsNL List.length]. destruct (isNL c).
  - repeat split; try lia.
    destruct (startsNL s) eqn:E.
    + rewrite length_join_cons. destruct (splitParaGo true s); [congruence|].
      specialize (B' eq_refl). cbn [List.length PARA_SEP] in *. lia.
    + rewrite length_join_consFirst by exact N. lia.
  - rewrite length_join_consFirst by exact N. repeat split; try lia; discriminate.
Qed.

Lemma length_ltrim (s : jstr) : (List.length (ltrim s) <= List.length s)%nat.
Proof. destruct (ltrim_suffix s) as [a E]. rewrite E at 2. rewrite length_app. lia. Qed.

Lemma length_trim (s : jstr) : (List.length (trim s) <= List.length s)%nat.
Proof.
  unfold trim, rtrim. rewrite length_rev.
  etransitivity; [apply length_ltrim|]. rewrite length_rev. apply length_ltrim.
Qed.

(** X5. The classifier and the scrub add nothing: the cleaned text of
    [detectRefusal] and the text that [stripRefusalContent] gives are
    never longer than the text given. *)
Theorem refusal_cleaning_never_lengthens (t : jstr) :
  (List.length (cleanedText (detectRefusal t)) <= List.length t)%nat /\
  (List.length (stripRefusalContent t) <= List.length t)%nat.
Proof.
  split.
  - unfold detectRefusal.
    destruct (isEmpty (trim t)); cbn [cleanedText]; [apply length_trim|].
    destruct (_ <? _)%nat; cbn [cleanedText]; [apply length_trim|].
    unfold stripRefusalPreamble.
    destruct (findStoryStart 0 (splitPara (trim t))) as [[|i]|]; try apply length_trim.
    etransitivity; [apply length_trim|].
    etransitivity; [apply length_join_skipn|].
    etransitivity; [apply (length_join_splitParaGo (trim t))|apply length_trim].
  - unfold stripRefusalContent. destruct (isEmpty (trim t)); [reflexivity|].
    etransitivity; [apply length_trim|].
    etransitivity; [apply length_join_filter|].
    apply (length_join_splitParaGo t).
Qed.

End RefusalMore.

(** * The token budget assembler: totals and order *)

Section BudgetMore.
Import Text Aux Budget BudgetSplit WriterContext.

Lemma estimateTokens_nonneg (t : jstr) : (0 <= estimateTokens t)%Z.
Proof. unfold estimateTokens. lia. Qed.

Lemma tokensOf_nonneg (l : list ContextItem) : (0 <= tokensOf l)%Z.
Proof.
  induction l as [|x l IH]; cbn [tokensOf fold_right]; [lia|].
  pose proof (estimateTokens_nonneg (content x)).
  change (fold_right _ 0%Z l) with (tokensOf l). lia.
Qed.

Lemma tokensOf_cons (x : ContextItem) (l : list ContextItem) :
  tokensOf (x :: l) = (estimateTokens (content x) + tokensOf l)%Z.
Proof. reflexivity. Qed.

Lemma tokensOf_app (a b : list ContextItem) : tokensOf (a ++ b) = (tokensOf a + tokensOf b)%Z.
Proof.
  induction a as [|x a IH]; [reflexivity|].
  cbn [app]. rewrite !tokensOf_cons, IH. lia.
Qed.

Lemma tokensOf_perm (a b : list ContextItem) : Permutation a b -> tokensOf a = tokensOf b.
Proof.
  induction 1 as [|x a b P IH|x y a|a b c P1 IH1 P2 IH2];
    rewrite ?tokensOf_cons; lia.
Qed.

Lemma filter_perm {A : Type} (f : A -> bool) (a b : list A) :
  Permutation a b -> Permutation (List.filter f a) (List.filter f b).
Proof.
  induction 1 as [|x a b P IH|x y a|a b c P1 IH1 P2 IH2]; cbn [List.filter].
  - constructor.
  - destruct (f x); [constructor|]; exact IH.
  - destruct (f x), (f y); try reflexivity. apply perm_swap.
  - etransitivity; eauto.
Qed.

Lemma passRequired_total (l : list ContextItem) (acc : Acc) :
  total (fold_left passRequired l acc) = (total acc + tokensOf (List.filter required l))%Z.
Proof.
  revert acc. induction l as [|x l IH]; intros acc; cbn [fold_left List.filter].
  - cbn. lia.
  - rewrite IH. unfold passRequired. destruct (required x); cbn [total].
    + rewrite tokensOf_cons. lia.
    + reflexivity.
Qed.

Lemma passOptional_total (budget : Z) (l : list ContextItem) (acc : Acc) :
  total (fold_left (passOptional budget) l acc) =
  (total acc + tokensOf (fitting budget (total acc) l))%Z.
Proof.
  revert acc. induction l as [|x l IH]; intros acc; cbn [fold_left fitting].
  - cbn. lia.
  - rewrite IH. unfold passOptional. destruct (required x); [reflexivity|].
    destruct (_ <=? _)%Z; cbn [total]; [|reflexivity].
    rewrite tokensOf_cons. lia.
Qed.

(** The optional items that are taken stay within the budget. *)
Lemma fitting_within (budget used : Z) (l : list ContextItem) :
  fitting budget used l <> [] -> (used + tokensOf (fitting budget used l) <= budget)%Z.
Proof.
  revert used. induction l as [|x l IH]; intros used; cbn [fitting]; [congruence|].
  destruct (required x); [apply IH|].
  destruct (Z.leb_spec (used + estimateTokens (content x)) budget) as [Hle|Hgt]; [|apply IH].
  intros _. rewrite tokensOf_cons.
  destruct (fitting budget (used + estimateTokens (content x)) l) eqn:E.
  - cbn. lia.
  - rewrite <- E in *. specialize (IH (used + estimateTokens (content x))%Z).
    rewrite E in IH at 1. specialize (IH ltac:(discriminate)). lia.
Qed.

(** An optional item that is dropped did not fit, and the items taken
    after it only make the total larger. *)
Lemma overflowing_over (budget used : Z) (l : list ContextItem) (x : ContextItem) :
  In x (overflowing budget used l) ->
  In x l /\ required x = false /\
  (budget < used + tokensOf (fitting budget used l) + estimateTokens (content x))%Z.
Proof.
  revert used. induction l as [|y l IH]; intros used; cbn [overflowing fitting]; [intros []|].
  destruct (required y) eqn:R.
  - intros H. destruct (IH _ H) as (H1 & H2 & H3). auto with datatypes.
  - destruct (Z.leb_spec (used + estimateTokens (content y)) budget) as [Hle|Hgt].
    + intros H. destruct (IH _ H) as (H1 & H2 & H3).
      rewrite tokensOf_cons. split; [right; exact H1|]. split; [exact H2|lia].
    + intros [<-|H].
      * pose proof (tokensOf_nonneg (fitting budget used l)).
        split; [left; reflexivity|]. split; [exact R|lia].
      * destruct (IH _ H) as (H1 & H2 & H3). auto with datatypes.
Qed.

Lemma taken_tokens (items : list ContextItem) (budget : Z) :
  totalTokens (buildContext items budget) = tokensOf (taken items budget).
Proof.
  unfold buildContext, taken. cbn [totalTokens].
  rewrite passOptional_total, passRequired_total, tokensOf_app. cbn [total]. lia.
Qed.

Lemma required_tokens (items : list ContextItem) :
  tokensOf (List.filter required (sortByPriority items)) = tokensOf (List.filter required items).
Proof. apply tokensOf_perm, filter_perm, sortByPriority_perm. Qed.

(** X6. The total of [buildContext] is the estimate of the items it
    includes, each item of the input being included or dropped once;
    the optional items never take the total over the budget: it is at
    least the tokens of the required items, and at most the larger of
    these and the budget; when the required items fit, the context
    fits. *)
Theorem buildContext_total (items : list ContextItem) (budget : Z) :
  let r := buildContext items budget in
  let requiredTokens := tokensOf (List.filter required items) in
  (exists chosen leftover,
     Permutation (chosen ++ leftover) items /\
     includedItems r = map key chosen /\ droppedItems r = map key leftover /\
     totalTokens r = tokensOf chosen) /\
  (requiredTokens <= totalTokens r)%Z /\
  (totalTokens r <= Z.max budget requiredTokens)%Z /\
  ((requiredTokens <= budget)%Z -> (totalTokens r <= budget)%Z).
Proof.
  cbv zeta.
  assert (totalTokens (buildContext items budget) <=
          Z.max budget (tokensOf (List.filter required items)))%Z as B.
  { unfold buildContext. cbn [totalTokens].
    rewrite passOptional_total, passRequired_total. cbn [total].
    rewrite required_tokens. set (used := (0 + _)%Z).
    destruct (fitting budget used (sortByPriority items)) eqn:E.
    - cbn. lia.
    - rewrite <- E. pose proof (fitting_within budget used (sortByPriority items)) as W.
      rewrite E in W at 1. specialize (W ltac:(discriminate)). lia. }
  split; [|split; [|split]].
  - exists (taken items budget), (leftOut items budget).
    destruct (buildContext_taken items budget) as (E1 & _ & E3).
    split; [apply taken_left_perm|]. split; [exact E1|]. split; [exact E3|apply taken_tokens].
  - rewrite taken_tokens. unfold taken. rewrite tokensOf_app, required_tokens.
    pose proof (tokensOf_nonneg
      (fitting budget (total (fold_left passRequired (sortByPriority items) (mkAcc [] [] [] 0%Z)))
         (sortByPriority items))). lia.
  - exact B.
  - lia.
Qed.

(** X7. An item that [buildContext] drops is optional and does not fit
    in what the budget leaves: with it the total would be over the
    budget. *)
Theorem buildContext_dropped_do_not_fit (items : list ContextItem) (budget : Z) (k : string) :
  let r := buildContext items budget in
  In k (droppedItems r) ->
  exists item, In item items /\ key item = k /\ required item = false /\
               (budget < totalTokens r + estimateTokens (content item))%Z.
Proof.
  cbv zeta. intros H.
  destruct (buildContext_taken items budget) as (_ & _ & E3). rewrite E3 in H.
  apply in_map_iff in H as (item & <- & H). unfold leftOut in H.
  apply overflowing_over in H as (H1 & H2 & H3).
  exists item. split; [|split; [reflexivity|split; [exact H2|]]].
  - apply (Permutation_in _ (sortByPriority_perm items)), H1.
  - unfold buildContext. cbn [totalTokens]. rewrite passOptional_total. lia.
Qed.

Lemma buildContext_dropped_do_not_fit_witness :
  let items := [mkItem "required" (repeat 97 200) 100 true;
                mkItem "optional" (repeat 98 200) 50 false] in
  exists item, In item items /\ key item = "optional"%string /\ required item = false /\
               (10 < totalTokens (buildContext items 10) + estimateTokens (content item))%Z.
Proof.
  apply (buildContext_dropped_do_not_fit
           [mkItem "required" (repeat 97 200) 100 true;
            mkItem "optional" (repeat 98 200) 50 false] 10 "optional").
  vm_compute. left. reflexivity.
Defined.

(** ** The order of the context *)

Lemma descending_insert (x : ContextItem) (l : list ContextItem) :
  descending l -> descending (insertByPriority x l).
Proof.
  induction l as [|y l IH]; cbn [insertByPriority descending]; [auto|].
  intros [Hy Hl]. destruct (Z.ltb_spec (priority x) (priority y)) as [Hlt|Hge].
  - cbn [descending]. split; [|apply IH, Hl].
    rewrite (insertByPriority_perm x l). constructor; [lia|exact Hy].
  - cbn [descending]. split; [|split; assumption].
    constructor; [lia|]. eapply List.Forall_impl; [|exact Hy]. cbn. intros z Hz. lia.
Qed.

Lemma descending_sort (items : list ContextItem) : descending (sortByPriority items).
Proof.
  induction items as [|x l IH]; [exact I|]. apply descending_insert, IH.
Qed.

Lemma descending_filter (f : ContextItem -> bool) (l : list ContextItem) :
  descending l -> descending (List.filter f l).
Proof.
  induction l as [|x l IH]; [auto|]. intros [Hx Hl]. cbn [List.filter].
  destruct (f x); [|apply IH, Hl]. split; [|apply IH, Hl].
  rewrite List.Forall_forall in *. intros y Hy. apply Hx. apply filter_In in Hy. tauto.
Qed.

Lemma descending_fitting (budget used : Z) (l : list ContextItem) :
  descending l -> descending (fitting budget used l).
Proof.
  revert used. induction l as [|x l IH]; intros used; [auto|]. intros [Hx Hl].
  cbn [fitting]. destruct (required x); [apply IH, Hl|].
  destruct (_ <=? _)%Z; [|apply IH, Hl]. split; [|apply IH, Hl].
  rewrite List.Forall_forall in *. intros y Hy. eapply Hx, fitting_whole, Hy.
Qed.

Lemma overflowing_whole (budget used : Z) (l : list ContextItem) (x : ContextItem) :
  In x (overflowing budget used l) -> In x l.
Proof. intros H. apply overflowing_over in H. tauto. Qed.

Lemma descending_overflowing (budget used : Z) (l : list ContextItem) :
  descending l -> descending (overflowing budget used l).
Proof.
  revert used. induction l as [|x l IH]; intros used; [auto|]. intros [Hx Hl].
  cbn [overflowing]. destruct (required x); [apply IH, Hl|].
  destruct (_ <=? _)%Z; [apply IH, Hl|]. split; [|apply IH, Hl].
  rewrite List.Forall_forall in *. intros y Hy. eapply Hx, overflowing_whole, Hy.
Qed.

Lemma fitting_optional (budget used : Z) (l : list ContextItem) :
  Forall (fun x => required x = false) (fitting budget used l).
Proof.
  revert used. induction l as [|x l IH]; intros used; cbn [fitting]; [constructor|].
  destruct (required x) eqn:R; [apply IH|].
  destruct (_ <=? _)%Z; [constructor; [exact R|apply IH]|apply IH].
Qed.

(** X8. The items of the input fall into three groups, the required
    ones, the optional ones that fit and the optional ones that do not:
    the context lists the required items first and the optional items
    that fit after them, each group from the highest priority down, and
    the text follows the same order; the dropped items are the third
    group, listed from the highest priority down too. *)
Theorem buildContext_order (items : list ContextItem) (budget : Z) :
  let r := buildContext items budget in
  exists requiredOnes optionalOnes droppedOnes,
    Permutation (requiredOnes ++ optionalOnes ++ droppedOnes) items /\
    includedItems r = map key (requiredOnes ++ optionalOnes) /\
    text r = join [LF; LF] (map content (requiredOnes ++ optionalOnes)) /\
    droppedItems r = map key droppedOnes /\
    Forall (fun x => required x = true) requiredOnes /\
    Forall (fun x => required x = false) optionalOnes /\
    Forall (fun x => required x = false) droppedOnes /\
    descending requiredOnes /\ descending optionalOnes /\ descending droppedOnes.
Proof.
  cbv zeta. destruct (buildContext_taken items budget) as (E1 & E2 & E3).
  set (used := total (fold_left passRequired (sortByPriority items) (mkAcc [] [] [] 0%Z))).
  exists (List.filter required (sortByPriority items)),
         (fitting budget used (sortByPriority items)),
         (overflowing budget used (sortByPriority items)).
  split; [rewrite three_way; apply sortByPriority_perm|].
  split; [exact E1|]. split; [exact E2|]. split; [exact E3|].
  split; [apply filter_kept|]. split; [apply fitting_optional|].
  split; [apply List.Forall_forall; intros x Hx; apply overflowing_over in Hx; tauto|].
  pose proof (descending_sort items) as D.
  split; [apply descending_filter, D|].
  split; [apply descending_fitting, D|apply descending_overflowing, D].
Qed.

(** ** The writer context *)

Lemma whenPresent_keys (s : jstr) (item : ContextItem) (x : ContextItem) :
  In x (whenPresent s item) -> x = item /\ isEmpty s = false.
Proof. unfold whenPresent. destruct (isEmpty s); [intros []|]. intros [<-|[]]. auto. Qed.

(** X9. The writer context always holds the chapter plan, whatever the
    budget; the ending of the previous chapter, the story so far and the
    memory context are each included whole or dropped, never both, and a
    string that is empty is in neither list. *)
Theorem assembleWriterContext_keys (maxInputTokens : Z) (planText : jstr)
    (rollingSummary previousChapterEnding memoryContext : jstr) (systemPromptTokens : Z) :
  let r := assembleWriterContext maxInputTokens planText rollingSummary
             previousChapterEnding memoryContext systemPromptTokens in
  let present (k : string) := In k (includedItems r) \/ In k (droppedItems r) in
  In "chapter_plan"%string (includedItems r) /\
  ~ In "chapter_plan"%string (droppedItems r) /\
  (forall k, ~ (In k (includedItems r) /\ In k (droppedItems r))) /\
  (present "previous_chapter_ending"%string <-> isEmpty previousChapterEnding = false) /\
  (present "rolling_summary"%string <-> isEmpty rollingSummary = false) /\
  (present "memory_context"%string <-> isEmpty memoryContext = false).
Proof.
  cbv zeta. unfold assembleWriterContext.
  set (budget := (maxInputTokens - systemPromptTokens)%Z).
  match goal with |- context [buildContext ?l budget] => set (items := l) end.
  destruct (buildContext_taken items budget) as (E1 & _ & E3). rewrite E1, E3.
  assert (Permutation (map key (taken items budget) ++ map key (leftOut items budget))
                      (map key items)) as P.
  { rewrite <- map_app. apply Permutation_map, taken_left_perm. }
  assert (List.NoDup (map key items)) as ND.
  { subst items. unfold whenPresent.
    destruct (isEmpty previousChapterEnding), (isEmpty rollingSummary), (isEmpty memoryContext);
      cbn; repeat constructor; cbn; intuition discriminate. }
  assert (List.NoDup (map key (taken items budget) ++ map key (leftOut items budget))) as ND'
      by (eapply Permutation_NoDup; [apply Permutation_sym, P|exact ND]).
  assert (forall k, ~ (In k (map key (taken items budget)) /\
                       In k (map key (leftOut items budget)))) as Disj.
  { intros k [H1 H2]. apply in_split in H1 as (l1 & l2 & E). rewrite E in ND'.
    rewrite <- app_assoc in ND'. cbn [app] in ND'.
    apply NoDup_remove_2 in ND'. apply ND'. rewrite !in_app_iff. auto. }
  assert (In "chapter_plan"%string (map key (taken items budget))) as Hplan.
  { apply in_map_iff. exists (mkItem "chapter_plan" planText 100 true). split; [reflexivity|].
    unfold taken. apply in_or_app. left. apply filter_In. split; [|reflexivity].
    apply (Permutation_in _ (Permutation_sym (sortByPriority_perm items))).
    left. reflexivity. }
  assert (forall k, In k (map key (taken items budget)) \/ In k (map key (leftOut items budget))
                    <-> In k (map key items)) as Mem.
  { intros k. rewrite <- in_app_iff. split; apply Permutation_in; [|apply Permutation_sym]; exact P. }
  split; [exact Hplan|]. split; [intros H; apply (Disj _ (conj Hplan H))|]. split; [exact Disj|].
  subst items. unfold whenPresent in *.
  repeat split; intros H;
    try (apply Mem in H; revert H);
    try apply Mem;
    destruct (isEmpty previousChapterEnding), (isEmpty rollingSummary), (isEmpty memoryContext);
    cbn; try (intuition discriminate); try discriminate; auto 6.
Qed.

End BudgetMore.

(** * Outline edits: the numbering in general *)

Section OutlineMore.
Import Text Outline OutlineShape Data Session OutlineSession.

Lemma sound_fresh (plans : list ChapterPlan) :
  sound plans (seq 0 (List.length plans)).
Proof.
  split; [apply List.seq_NoDup|].
  apply List.Forall_forall. intros r Hr. apply in_seq in Hr. lia.
Qed.

Lemma sound_length (h h' : store) (chapters : list ref) :
  List.length h' = List.length h -> sound h chapters -> sound h' chapters.
Proof. intros E [ND V]. split; [exact ND|]. unfold validRefs in *. rewrite E. exact V. Qed.

Lemma sound_filter (f : ref -> bool) (h : store) (chapters : list ref) :
  sound h chapters -> sound h (List.filter f chapters).
Proof.
  intros [ND V]. split; [apply List.NoDup_filter, ND|].
  unfold validRefs in *. rewrite List.Forall_forall in *.
  intros r Hr. apply V. apply filter_In in Hr. tauto.
Qed.

Lemma applyUpdate_length (chapters : list ref) (h : store) (u : ChapterUpdate) :
  List.length (applyUpdate chapters h u) = List.length h.
Proof. unfold applyUpdate. destruct (findChapter _ _ _); [apply length_alter|reflexivity]. Qed.

Lemma applyUpdates_length (chapters : list ref) (us : list ChapterUpdate) (h : store) :
  List.length (fold_left (applyUpdate chapters) us h) = List.length h.
Proof.
  revert h. induction us as [|u us IH]; intros h; [reflexivity|].
  cbn [fold_left]. rewrite IH. apply applyUpdate_length.
Qed.

Lemma sound_applyAdd (defaultWords : Z) (h : store) (chapters : list ref) (a : ChapterAdd) :
  sound h chapters ->
  sound (fst (applyAdd defaultWords (h, chapters) a)) (snd (applyAdd defaultWords (h, chapters) a)).
Proof.
  intros [ND V]. unfold applyAdd.
  assert (~ In (List.length h) chapters) as Hnew.
  { intros H. unfold validRefs in V. rewrite List.Forall_forall in V. apply V in H. lia. }
  assert (forall l, Permutation l (List.length h :: chapters) ->
            sound (h ++ [mkPlan 0 (addTitle a) (addSummary a)
                           (match addTargetWords a with Some w => w | None => defaultWords end)
                           [] []]) l) as K.
  { intros l P. split.
    - eapply Permutation_NoDup; [apply Permutation_sym, P|]. constructor; assumption.
    - unfold validRefs in *. rewrite List.Forall_forall in *. intros r Hr.
      rewrite length_app. cbn [List.length].
      apply (Permutation_in _ P) in Hr. destruct Hr as [<-|Hr]; [lia|].
      apply V in Hr. lia. }
  destruct (findIndex h chapters (afterChapter a)) as [i|]; cbn [fst snd]; apply K.
  - unfold spliceIn. rewrite <- Permutation_middle. constructor.
    rewrite firstn_skipn. reflexivity.
  - rewrite Permutation_app_comm. reflexivity.
Qed.

Lemma sound_applyAdds (defaultWords : Z) (adds : list ChapterAdd) (st : store * list ref) :
  sound (fst st) (snd st) ->
  sound (fst (fold_left (applyAdd defaultWords) adds st))
        (snd (fold_left (applyAdd defaultWords) adds st)).
Proof.
  revert st. induction adds as [|a adds IH]; intros [h chapters] H; [exact H|].
  cbn [fold_left]. apply IH. apply (sound_applyAdd defaultWords h chapters a H).
Qed.

Lemma sound_applyMerge (h : store) (chapters : list ref) (m : ChapterMerge) :
  sound h chapters ->
  sound (fst (applyMerge (h, chapters) m)) (snd (applyMerge (h, chapters) m)).
Proof.
  intros H. unfold applyMerge.
  destruct (findChapter h chapters (mergeFirst m)) as [r1|]; [|exact H].
  destruct (findChapter h chapters (mergeSecond m)) as [r2|]; [|exact H].
  cbn [fst snd]. apply sound_filter.
  eapply sound_length; [|exact H]. rewrite !length_alter. reflexivity.
Qed.

Lemma sound_applyMerges (ms : list ChapterMerge) (st : store * list ref) :
  sound (fst st) (snd st) ->
  sound (fst (fold_left applyMerge ms st)) (snd (fold_left applyMerge ms st)).
Proof.
  revert st. induction ms as [|m ms IH]; intros [h chapters] H; [exact H|].
  cbn [fold_left]. apply IH. apply (sound_applyMerge h chapters m H).
Qed.

Lemma findChapter_found (h : store) (chapters : list ref) (n : Z) (r : ref) :
  findChapter h chapters n = Some r -> In r chapters /\ hasNumber h n r = true.
Proof. unfold findChapter. intros H. apply find_some in H. exact H. Qed.

Lemma hasNumber_one (h : store) (n n' : Z) (r : ref) :
  hasNumber h n r = true -> hasNumber h n' r = true -> n = n'.
Proof.
  unfold hasNumber. destruct (h !! r) as [c|]; [|discriminate].
  intros H1 H2. apply Z.eqb_eq in H1, H2. congruence.
Qed.

Lemma applyReorder_found (h : store) (chapters : list ref) (nums : list Z) (r : ref) :
  In r (applyReorder h chapters nums) ->
  In r chapters /\ exists n, In n nums /\ hasNumber h n r = true.
Proof.
  induction nums as [|n nums IH]; cbn [applyReorder]; [intros []|].
  destruct (findChapter h chapters n) as [r'|] eqn:E.
  - intros [<-|H].
    + apply findChapter_found in E as [H1 H2]. split; [exact H1|]. exists n. auto with datatypes.
    + destruct (IH H) as (H1 & n' & H2 & H3). split; [exact H1|]. exists n'. auto with datatypes.
  - intros H. destruct (IH H) as (H1 & n' & H2 & H3). split; [exact H1|]. exists n'.
    auto with datatypes.
Qed.

(** A reorder that names no number twice puts no object twice. *)
Lemma sound_applyReorder (h : store) (chapters : list ref) (nums : list Z) :
  List.NoDup nums -> sound h chapters -> sound h (applyReorder h chapters nums).
Proof.
  intros NDn [ND V]. split.
  - induction NDn as [|n nums Hn NDn IH]; cbn [applyReorder]; [constructor|].
    destruct (findChapter h chapters n) as [r|] eqn:E; [|exact IH].
    constructor; [|exact IH]. intros H.
    apply applyReorder_found in H as (_ & n' & H2 & H3).
    apply findChapter_found in E as [_ E].
    rewrite (hasNumber_one h n n' r E H3) in Hn. contradiction.
  - unfold validRefs in *. rewrite List.Forall_forall in *. intros r Hr.
    apply V. apply applyReorder_found in Hr. tauto.
Qed.

Lemma updateOutline_sound (defaultWords : Z) (changes : OutlineChanges)
    (h : store) (chapters : list ref) :
  sound h chapters ->
  (forall nums, reorderChapters changes = Some nums -> List.NoDup nums) ->
  sound (fst (Outline.updateOutline defaultWords changes h chapters))
        (snd (Outline.updateOutline defaultWords changes h chapters)).
Proof.
  intros H0 Hre. unfold Outline.updateOutline.
  set (chapters1 := match removeChapters changes with
                    | Some nums => applyRemove h chapters nums | None => chapters end).
  assert (sound h chapters1) as H1
      by (subst chapters1; destruct (removeChapters changes); [apply sound_filter|]; exact H0).
  set (h2 := match updateChapter changes with
             | Some us => fold_left (applyUpdate chapters1) us h | None => h end).
  assert (sound h2 chapters1) as H2.
  { subst h2. destruct (updateChapter changes); [|exact H1].
    eapply sound_length; [apply applyUpdates_length|exact H1]. }
  set (st3 := match addChapter changes with
              | Some adds => fold_left (applyAdd defaultWords) adds (h2, chapters1)
              | None => (h2, chapters1) end).
  assert (sound (fst st3) (snd st3)) as H3.
  { subst st3. destruct (addChapter changes); [|exact H2].
    apply (sound_applyAdds defaultWords l (h2, chapters1) H2). }
  destruct st3 as [h3 chapters3]. cbn [fst snd] in H3.
  set (st4 := match mergeChapters changes with
              | Some ms => fold_left applyMerge ms (h3, chapters3)
              | None => (h3, chapters3) end).
  assert (sound (fst st4) (snd st4)) as H4.
  { subst st4. destruct (mergeChapters changes); [|exact H3].
    apply (sound_applyMerges l (h3, chapters3) H3). }
  destruct st4 as [h4 chapters4]. cbn [fst snd] in *.
  set (chapters5 := match reorderChapters changes with
                    | Some nums => applyReorder h4 chapters4 nums | None => chapters4 end).
  assert (sound h4 chapters5) as H5.
  { subst chapters5. destruct (reorderChapters changes) as [nums|]; [|exact H4].
    apply sound_applyReorder; [apply Hre; reflexivity|exact H4]. }
  eapply sound_length; [|exact H5]. apply renumberFrom_length.
Qed.

Lemma view_length (h : store) (chapters : list ref) :
  validRefs h chapters -> List.length (view h chapters) = List.length chapters.
Proof.
  unfold view, validRefs. induction 1 as [|r l Hr Hl IH]; [reflexivity|].
  cbn [omap list_omap]. destruct (lookup_lt_is_Some_2 h r Hr) as [c ->].
  cbn [List.length]. f_equal. exact IH.
Qed.

(** X10. When the array of chapters holds no object twice and the
    reorder, if any, names no number twice, the chapters that
    [updateOutline] leaves are numbered 1, 2, ..., N in the order of the
    list, whatever the edits. *)
Theorem updateOutline_numbers (defaultWords : Z) (changes : OutlineChanges)
    (h : store) (chapters : list ref) :
  List.NoDup chapters ->
  validRefs h chapters ->
  (forall nums, reorderChapters changes = Some nums -> List.NoDup nums) ->
  let r := Outline.updateOutline defaultWords changes h chapters in
  chapterNumbers (fst r) (snd r) = numbersFrom 0 (List.length (view (fst r) (snd r))).
Proof.
  intros ND V Hre r.
  pose proof (updateOutline_sound defaultWords changes h chapters (conj ND V) Hre) as [ND' V'].
  fold r in ND', V'. rewrite (view_length _ _ V').
  unfold r, Outline.updateOutline in *.
  repeat match goal with
         | |- context [let '(a, b) := ?e in _] => destruct e
         | H : context [let '(a, b) := ?e in _] |- _ => destruct e
         end.
  cbn [fst snd] in *. unfold renumber in *.
  apply renumberFrom_numbers; [exact ND'|].
  unfold validRefs in *. rewrite renumberFrom_length in V'. exact V'.
Qed.

Lemma updateOutline_numbers_witness :
  let plans := [mkPlan 1 (js "a") [] 10 [] []; mkPlan 2 (js "b") [] 10 [] [];
                mkPlan 3 (js "c") [] 10 [] []] in
  let changes := mkChanges (Some [2%Z]) None (Some [mkAdd 1 (js "new") [] None]) None
                   (Some [3%Z; 0%Z; 1%Z]) in
  let r := Outline.updateOutline 10 changes plans [0; 1; 2]%nat in
  chapterNumbers (fst r) (snd r) = numbersFrom 0 (List.length (view (fst r) (snd r))).
Proof.
  apply (updateOutline_numbers 10
           (mkChanges (Some [2%Z]) None (Some [mkAdd 1 (js "new") [] None]) None
              (Some [3%Z; 0%Z; 1%Z]))
           [mkPlan 1 (js "a") [] 10 [] []; mkPlan 2 (js "b") [] 10 [] [];
            mkPlan 3 (js "c") [] 10 [] []] [0; 1; 2]%nat).
  - repeat constructor; cbn; lia.
  - repeat constructor; cbn; lia.
  - intros nums E. injection E as <-. repeat constructor; cbn; intuition lia.
Defined.

(** ** What a removal leaves *)

Lemma view_alter_other (f : ChapterPlan -> ChapterPlan) (r : ref) (h : store)
    (chapters : list ref) :
  ~ In r chapters -> view (alter f r h) chapters = view h chapters.
Proof.
  unfold view. induction chapters as [|r' rest IH]; intros Hr; [reflexivity|].
  cbn [omap list_omap]. rewrite list_lookup_alter_ne by (intros ->; apply Hr; left; reflexivity).
  rewrite IH by (intros H; apply Hr; right; exact H). reflexivity.
Qed.

(** The renumbering writes the numbers and nothing else. *)
Lemma view_renumberFrom (i : nat) (chapters : list ref) (h : store) :
  sound h chapters ->
  view (renumberFrom i chapters h) chapters = numbered i (view h chapters).
Proof.
  revert i h. induction chapters as [|r rest IH]; intros i h [ND V]; [reflexivity|].
  inversion ND as [|? ? Hr ND']; subst. inversion V as [|? ? Hlt V']; subst.
  cbn [renumberFrom].
  assert (sound (alter (setNumber (Z.of_nat i + 1)) r h) rest) as S'.
  { split; [exact ND'|]. unfold validRefs. rewrite length_alter. exact V'. }
  destruct (lookup_lt_is_Some_2 h r Hlt) as [c Hc].
  assert (forall g d, g !! r = Some d -> view g (r :: rest) = d :: view g rest) as K
      by (intros g d Hg; unfold view; cbn [omap list_omap]; rewrite Hg; reflexivity).
  rewrite (K h c Hc). cbn [numbered].
  rewrite <- (view_alter_other (setNumber (Z.of_nat i + 1)) r h rest Hr).
  rewrite <- (IH (S i) _ S').
  apply K. rewrite renumberFrom_other by exact Hr.
  rewrite list_lookup_alter_eq, Hc. reflexivity.
Qed.

Lemma existsb_same {A : Type} (f g : A -> bool) (l : list A) :
  (forall x, f x = g x) -> existsb f l = existsb g l.
Proof. intros E. induction l as [|x l IH]; cbn [existsb]; [reflexivity|]. rewrite E, IH. reflexivity. Qed.

Lemma view_remove (before plans : list ChapterPlan) (nums : list Z) :
  view (before ++ plans)
    (applyRemove (before ++ plans) (seq (List.length before) (List.length plans)) nums)
  = List.filter (stays nums) plans.
Proof.
  revert before. induction plans as [|c plans IH]; intros before; [reflexivity|].
  cbn [List.length seq]. unfold applyRemove. cbn [List.filter].
  assert ((before ++ c :: plans) !! List.length before = Some c) as Hc
      by (apply list_lookup_middle; reflexivity).
  assert (existsb (fun n => hasNumber (before ++ c :: plans) n (List.length before)) nums
          = existsb (fun n => (number c =? n)%Z) nums) as E.
  { apply existsb_same. intros n. unfold hasNumber. rewrite Hc. reflexivity. }
  rewrite E. unfold stays at 1.
  specialize (IH (before ++ [c])). rewrite <- app_assoc, length_app in IH.
  cbn [app List.length] in IH. rewrite Nat.add_1_r in IH. unfold applyRemove in IH.
  destruct (existsb (fun n => (number c =? n)%Z) nums); cbn [negb].
  - exact IH.
  - unfold view. cbn [omap list_omap]. rewrite Hc. f_equal. exact IH.
Qed.

(** X11. An edit that only removes chapters leaves the other chapters
    as they are and in their order; only their numbers change, to
    1, 2, ..., N. *)
Theorem updateOutline_removal (defaultWords : Z) (plans : list ChapterPlan) (nums : list Z) :
  let '(h0, chapters0) := freshOutline plans in
  let r := Outline.updateOutline defaultWords
             (mkChanges (Some nums) None None None None) h0 chapters0 in
  view (fst r) (snd r) = numbered 0 (List.filter (stays nums) plans).
Proof.
  cbn [freshOutline]. unfold Outline.updateOutline.
  cbn [removeChapters updateChapter addChapter mergeChapters reorderChapters fst snd].
  unfold renumber. rewrite view_renumberFrom.
  - f_equal. apply (view_remove [] plans nums).
  - apply sound_filter, sound_fresh.
Qed.

(** ** The statuses after an edit *)

Lemma statuses_fold (stored : gmap Z ChapterContent) (chs : list ChapterPlan)
    (m : gmap Z ChapterStatus) (k : Z) :
  fold_left
    (fun m ch => <[number ch := match stored !! number ch with
                                | Some _ => approved
                                | None => pending
                                end]> m) chs m !! k =
  if existsb (fun ch => (number ch =? k)%Z) chs
  then Some (match stored !! k with Some _ => approved | None => pending end)
  else m !! k.
Proof.
  revert m. induction chs as [|ch chs IH]; intros m; [reflexivity|].
  cbn [fold_left existsb]. rewrite IH.
  destruct (existsb (fun ch0 => (number ch0 =? k)%Z) chs); [rewrite orb_true_r; reflexivity|].
  rewrite orb_false_r. destruct (Z.eqb_spec (number ch) k) as [->|Hne].
  - apply lookup_insert_eq.
  - apply lookup_insert_ne, Hne.
Qed.

(** What [updateOutline] of the session does on any array, whether it
    holds an object twice or not: it keeps the approval of the outline,
    the stored chapters and the continuity texts, and sets the statuses
    anew from the chapters that a reader of the new array sees. *)
Lemma updateOutlineAt_run (defaultWords : Z) (changes : OutlineChanges)
    (h0 : store) (chapters0 : list ref) (s : State) :
  let r := updateOutlineAt defaultWords changes h0 chapters0 s in
  let s' := snd r in
  let chs := view (fst (fst r)) (snd (fst r)) in
  outlineApproved s' = outlineApproved s /\
  chapters s' = chapters s /\
  rollingSummary s' = rollingSummary s /\
  previousChapterEnding s' = previousChapterEnding s /\
  phase s' = phase s /\ events s' = events s /\ calls s' = calls s /\
  outline s' = Some chs /\
  forall k,
    (In k (map number chs) ->
     chapterStatuses s' !! k =
     Some (match chapters s !! k with Some _ => approved | None => pending end)) /\
    (~ In k (map number chs) -> chapterStatuses s' !! k = None).
Proof.
  cbv zeta. unfold updateOutlineAt.
  destruct (Outline.updateOutline _ _ _ _) as [h chapters]. cbn [fst snd].
  repeat (split; [reflexivity|]).
  intros k. cbn [chapterStatuses setStatuses]. unfold statusesFor. rewrite statuses_fold.
  cbn [Session.chapters setOutline].
  destruct (existsb (fun ch => (number ch =? k)%Z) (view h chapters)) eqn:Ex.
  - split; [reflexivity|]. intros Hn. exfalso. apply Hn.
    apply existsb_exists in Ex as (ch & Hch & Ek). apply Z.eqb_eq in Ek. subst k.
    apply in_map, Hch.
  - split; [|intros _; apply lookup_empty].
    intros Hin. apply in_map_iff in Hin as (ch & <- & Hch).
    assert (existsb (fun ch0 => (number ch0 =? number ch)%Z) (view h chapters) = true) as C.
    { apply existsb_exists. exists ch. split; [exact Hch|apply Z.eqb_refl]. }
    rewrite C in Ex. discriminate.
Qed.

(** X12. [updateOutline] of the session throws when there is no outline
    and changes nothing then; otherwise it keeps the approval of the
    outline, the stored chapters and the continuity texts, makes no call,
    and sets the statuses anew: a chapter of the new outline is approved
    when a chapter is stored under its number and pending when none is,
    and no other number has a status. *)
Theorem session_updateOutline :
  (forall defaultWords changes s,
     outline s = None <-> OutlineSession.updateOutline defaultWords changes s = None) /\
  (forall defaultWords changes s s',
     OutlineSession.updateOutline defaultWords changes s = Some s' ->
     outlineApproved s' = outlineApproved s /\
     chapters s' = chapters s /\
     rollingSummary s' = rollingSummary s /\
     previousChapterEnding s' = previousChapterEnding s /\
     phase s' = phase s /\ events s' = events s /\ calls s' = calls s /\
     exists chs,
       outline s' = Some chs /\
       forall k,
         (In k (map number chs) ->
          chapterStatuses s' !! k =
          Some (match chapters s !! k with Some _ => approved | None => pending end)) /\
         (~ In k (map number chs) -> chapterStatuses s' !! k = None)).
Proof.
  split.
  - intros defaultWords changes s. unfold OutlineSession.updateOutline.
    destruct (outline s) as [plans|]; [|tauto].
    cbn [freshOutline]. split; discriminate.
  - intros defaultWords changes s s'. unfold OutlineSession.updateOutline.
    destruct (outline s) as [plans|]; [|discriminate].
    cbn [freshOutline]. intros E. injection E as <-.
    destruct (updateOutlineAt_run defaultWords changes plans (seq 0 (List.length plans)) s)
      as (K1 & K2 & K3 & K4 & K5 & K6 & K7 & K8 & K9).
    repeat (split; [assumption|]). eexists. split; [exact K8|exact K9].
Qed.

End OutlineMore.

(** * The session controller: errors and the outline *)

Section SessionErrors.
Import Text Aux Refusal Data Effects Triples Session SessionRel Samples SessionShape.

(** X13. While the outline is not approved, [generateChapter],
    [rewriteChapter] and [generateAllRemaining] throw their errors at
    once: no call is made, no event is emitted, and the state is as it
    was. *)
Theorem chapter_operations_need_approval (llm : nat -> Reply) (cfg : Config) (s : State) :
  outlineApproved s = false ->
  (forall n, generateChapter llm cfg n s = (Thrown OutlineNotApproved, s)) /\
  (forall n feedback, rewriteChapter llm cfg n feedback s = (Thrown OutlineNotApprovedFirst, s)) /\
  generateAllRemaining llm cfg s = (Thrown OutlineNotApprovedFirst, s).
Proof.
  intros H. split; [|split].
  - intros n. apply generateChapter_gate, H.
  - intros n feedback. apply rewriteChapter_gate, H.
  - apply generateAllRemaining_gate, H.
Qed.

Lemma chapter_operations_need_approval_witness :
  (forall n, generateChapter (script []) sampleConfig n initialState
             = (Thrown OutlineNotApproved, initialState)) /\
  (forall n feedback, rewriteChapter (script []) sampleConfig n feedback initialState
                      = (Thrown OutlineNotApprovedFirst, initialState)) /\
  generateAllRemaining (script []) sampleConfig initialState
  = (Thrown OutlineNotApprovedFirst, initialState).
Proof. apply (chapter_operations_need_approval (script []) sampleConfig initialState). reflexivity. Defined.

(** X14. A chapter that is not in the outline cannot be generated or
    rewritten, and a chapter that was not generated cannot be expanded:
    the operation throws the error that names the chapter, makes no call
    and leaves the state as it was. *)
Theorem chapter_must_exist (llm : nat -> Reply) (cfg : Config) (s : State) (n : Z) :
  (forall chs, outlineApproved s = true -> outline s = Some chs -> findPlan chs n = None ->
     generateChapter llm cfg (Some n) s = (Thrown (ChapterNotFound n), s) /\
     forall feedback, rewriteChapter llm cfg n feedback s = (Thrown (ChapterNotFound n), s)) /\
  (chapters s !! n = None ->
     forall target, expandChapter llm cfg n target s = (Thrown (ChapterNotGenerated n), s)).
Proof.
  split.
  - intros chs Ha Ho Hf. split; [|intros feedback].
    + unfold generateChapter. rewrite bind_gets, Ha. cbn [negb].
      rewrite bind_gets. cbn iota. rewrite bind_gets, Ho, Hf. reflexivity.
    + unfold rewriteChapter. rewrite bind_gets, Ha. cbn [negb].
      rewrite bind_gets, Ho, Hf. reflexivity.
  - intros H target. apply expandChapter_nothing_generated, H.
Qed.

Lemma find_first {A : Type} (f : A -> bool) (l : list A) (x : A) :
  List.find f l = Some x ->
  exists before after, l = before ++ x :: after /\ f x = true /\
                       Forall (fun y => f y = false) before.
Proof.
  induction l as [|y l IH]; cbn [List.find]; [discriminate|].
  destruct (f y) eqn:E.
  - intros H. injection H as <-. exists [], l. auto.
  - intros H. destruct (IH H) as (before & after & -> & Hx & Hb).
    exists (y :: before), after. auto.
Qed.

Lemma find_none {A : Type} (f : A -> bool) (l : list A) :
  List.find f l = None <-> Forall (fun y => f y = false) l.
Proof.
  induction l as [|y l IH]; cbn [List.find]; [split; [constructor|reflexivity]|].
  destruct (f y) eqn:E.
  - split; [discriminate|]. intros H. inversion H; congruence.
  - rewrite IH. split; [constructor; assumption|]. intros H. inversion H; assumption.
Qed.

(** X15. [generateChapter] with no number takes the first chapter of
    the outline, in its order, whose status is 'pending' or 'failed': a
    failed chapter is tried again.  When no chapter is, it throws 'No
    pending chapters to generate.' and leaves the state as it was. *)
Theorem generateChapter_takes_the_first_awaiting (llm : nat -> Reply) (cfg : Config) :
  (forall s n, getNextPendingChapter s = Some n ->
     exists before ch after,
       outline s = Some (before ++ ch :: after) /\ number ch = n /\
       awaiting s ch = true /\ Forall (fun c => awaiting s c = false) before) /\
  (forall s, getNextPendingChapter s = None <->
     match outline s with
     | Some chs => Forall (fun c => awaiting s c = false) chs
     | None => True
     end) /\
  (forall s, outlineApproved s = true ->
     generateChapter llm cfg None s =
     match getNextPendingChapter s with
     | Some n => generateChapter llm cfg (Some n) s
     | None => (Thrown NoPendingChapters, s)
     end).
Proof.
  split; [|split].
  - intros s n. unfold getNextPendingChapter.
    destruct (outline s) as [chs|]; [|discriminate].
    destruct (List.find _ chs) as [ch|] eqn:E; [|discriminate].
    intros H. injection H as <-.
    apply find_first in E as (before & after & -> & Hc & Hb). eauto 8.
  - intros s. unfold getNextPendingChapter.
    destruct (outline s) as [chs|]; [|tauto].
    rewrite <- (find_none (awaiting s) chs). unfold awaiting.
    destruct (List.find _ chs); cbn; split; congruence.
  - intros s Ha. destruct (getNextPendingChapter s) as [n|] eqn:E;
      unfold generateChapter; rewrite !bind_gets, Ha; cbn [negb];
      rewrite !bind_gets, ?E; reflexivity.
Qed.

(** ** The outline *)

Lemma initStatuses_lookup (chs : list ChapterPlan) (m : gmap Z ChapterStatus) (k : Z) :
  initStatuses chs m !! k =
  if existsb (fun ch => (number ch =? k)%Z) chs then Some pending else m !! k.
Proof.
  unfold initStatuses. revert m. induction chs as [|ch chs IH]; intros m; [reflexivity|].
  cbn [fold_left existsb]. rewrite IH.
  destruct (existsb (fun ch0 => (number ch0 =? k)%Z) chs); [rewrite orb_true_r; reflexivity|].
  rewrite orb_false_r. destruct (Z.eqb_spec (number ch) k) as [->|Hne].
  - apply lookup_insert_eq.
  - apply lookup_insert_ne, Hne.
Qed.

Lemma generateOutlineObject_run (llm : nat -> Reply) (s : State) :
  (exists o, llm (calls s) = OutlineReply o /\
             generateOutlineObject llm s = (Ok o, setCalls (S (calls s)) s)) \/
  (exists e, isCallError e /\
             generateOutlineObject llm s = (Thrown e, setCalls (S (calls s)) s)).
Proof.
  unfold generateOutlineObject. cbn [callsOf tick stateCalls].
  destruct (llm (calls s)); eauto; right; eexists; split; try reflexivity; exact I.
Qed.


End SessionErrors.

(** * The session controller: drafts, summaries and continuity *)

Section Drafts.
Import Text Aux Refusal Data Effects Triples Session SessionRel Samples DraftShape SessionShape.

Lemma empty_is_no_refusal : isRefusal (detectRefusal []) = false.
Proof. reflexivity. Qed.

Lemma writerAttempts_draft (llm : nat -> Reply) (remaining attempt : nat)
    (best : jstr) (count : nat) (costs : list string) (c : nat)
    (final kept : jstr) (costs' : list string) (c' : nat) :
  best = [] \/ salvaged llm best ->
  Graph.writerAttempts llm remaining attempt best count costs c
    = (Ok (final, kept, costs'), c') ->
  (final = [] \/ replied llm final) /\ (kept = [] \/ salvaged llm kept).
Proof.
  revert attempt best count costs c.
  induction remaining as [|remaining IH]; intros attempt best count costs c C H;
    cbn [Graph.writerAttempts] in H.
  - injection H as <- <- _ _. auto.
  - apply bind_run in H as [(e & _ & E)|(raw & c1 & Hraw & H)]; [discriminate|].
    apply generateText_run in Hraw. cbn [callsOf Graph.natCalls] in Hraw.
    destruct (isRefusal (detectRefusal raw)) eqn:R; cbn [negb] in H.
    + destruct (isRefusal (detectRefusal (cleanedText (detectRefusal raw)))) eqn:R';
        cbn [negb andb] in H.
      * eapply IH; [exact C|exact H].
      * destruct (_ <? _)%nat; [|eapply IH; [exact C|exact H]].
        eapply IH; [|exact H]. right. exists c, raw. auto.
    + injection H as <- <- _ _. split; [right; exists c; auto|exact C].
Qed.

(** X18. The draft of the writing step is never a refusal.  In the
    session it is a reply that is not classified as one, or what is left
    of a refusal when that is clean and has a hundred words, or the
    empty text; in the writer node the same, but for the hundred
    words. *)
Theorem draft_is_no_refusal (llm : nat -> Reply) :
  (forall plan s text s',
     writeChapter llm plan s = (Ok text, s') ->
     isRefusal (detectRefusal text) = false /\
     (replied llm text \/ text = [] \/
      ((100 <= countWords text)%nat /\ salvaged llm text))) /\
  (forall c text costs c',
     Graph.writerDraft llm c = (Ok (text, costs), c') ->
     isRefusal (detectRefusal text) = false /\
     (replied llm text \/ text = [] \/ salvaged llm text)).
Proof.
  split.
  - intros plan s text s' H.
    apply (writeChapter_draft llm Samples.sampleConfig) in H.
    split; [|exact H].
    destruct H as [(i & _ & H)|[->|(_ & i & raw & _ & _ & _ & H)]];
      [exact H|reflexivity|exact H].
  - intros c text costs c' H. unfold Graph.writerDraft in H.
    apply bind_run in H as [(e & _ & E)|([[final kept] costs0] & c1 & H1 & H)]; [discriminate|].
    injection H as <- _ _.
    apply writerAttempts_draft in H1 as [Hf Hk]; [|left; reflexivity].
    assert (forall t, t = [] \/ replied llm t \/ salvaged llm t ->
              isRefusal (detectRefusal t) = false /\
              (replied llm t \/ t = [] \/ salvaged llm t)) as K.
    { intros t [->|[Ht|Ht]].
      - split; [reflexivity|auto].
      - split; [destruct Ht as (i & _ & Ht); exact Ht|auto].
      - split; [destruct Ht as (i & raw & _ & _ & _ & Ht); exact Ht|auto]. }
    apply K. destruct final as [|x final]; cbn [isEmpty].
    + destruct Hk as [->|Hk]; auto.
    + destruct Hf as [Hf|Hf]; [discriminate|auto].
Qed.

(** X19. [rewriteFromFeedback] with a draft at hand never gives a text
    of fewer than half the words of the draft: the text is the draft, or
    the reply, or what is left of the reply when it is a refusal.  It makes one
    call, and throws when that call fails, only then. *)
Theorem rewriteFromFeedback_keeps_half (llm : nat -> Reply) (plan : DetailedChapterPlan)
    (feedback draft : jstr) (s : State) :
  match rewriteFromFeedback llm plan feedback (Some draft) s with
  | (Ok text, s') =>
      (countWords draft <= 2 * countWords text)%nat /\
      calls s' = S (calls s) /\
      exists raw, llm (calls s) = TextReply raw /\
        (text = draft \/
         text = if isRefusal (detectRefusal raw) then cleanedText (detectRefusal raw) else raw)
  | (Thrown e, s') => isCallError e /\ ~ (exists raw, llm (calls s) = TextReply raw)
  end.
Proof.
  unfold rewriteFromFeedback, bind at 1, generateText. cbn [callsOf stateCalls tick].
  destruct (llm (calls s)) as [raw| | | |];
    try (split; [exact I|intros [raw' E]; discriminate]).
  unfold bind at 1, addCostEntry, modify.
  set (final := if isRefusal (detectRefusal raw) then cleanedText (detectRefusal raw) else raw).
  destruct (negb (isEmpty draft) && (2 * countWords final <? countWords draft)%nat) eqn:E;
    cbv [ret]; cbn [calls setCosts setCalls].
  - split; [lia|]. split; [reflexivity|]. exists raw. auto.
  - split; [|split; [reflexivity|exists raw; auto]].
    apply andb_false_iff in E as [E|E].
    + destruct draft; [cbn; lia|discriminate].
    + apply Nat.ltb_ge in E. exact E.
Qed.



Lemma updateContinuity_run (llm : nat -> Reply) (cfg : Config)
    (chapter : ChapterContent) (s : State) :
  match updateContinuity llm cfg chapter s with
  | (r, s') =>
      r = Ok tt /\ sameBook s s' /\ phase s' = phase s /\ events s' = events s /\
      if hasContinuityModel cfg then
        previousChapterEnding s' = sliceLast 2000 (chContent chapter) /\
        (S (calls s) <= calls s' <= 2 + calls s)%nat /\
        (rollingSummary s' = rollingSummary s \/
         exists i, (calls s <= i < calls s')%nat /\ llm i = TextReply (rollingSummary s'))
      else s' = s
  end.
Proof.
  unfold updateContinuity. destruct (hasContinuityModel cfg); cbn [negb];
    [|cbv [ret sameBook]; auto 10].
  unfold tryCatch at 1, bind at 1, generateText at 1. cbn [callsOf stateCalls tick].
  destruct (llm (calls s)) as [summary| | | |] eqn:E1;
    try (cbv [modify sameBook]; cbn; repeat split; try lia; left; reflexivity).
  destruct (maxSummaryWords <? countWords summary)%nat.
  - unfold bind at 1, tryCatch, bind at 1, generateText. cbn [callsOf stateCalls tick calls setCalls].
    destruct (llm (S (calls s))) as [condensed| | | |] eqn:E2;
      cbv [bind modify addCostEntry sameBook]; cbn; repeat split; try lia; right.
    + exists (S (calls s)). split; [lia|exact E2].
    + exists (calls s). split; [lia|exact E1].
    + exists (calls s). split; [lia|exact E1].
    + exists (calls s). split; [lia|exact E1].
    + exists (calls s). split; [lia|exact E1].
  - cbv [bind modify addCostEntry sameBook]; cbn; repeat split; try lia; right.
    exists (calls s). split; [lia|exact E1].
Qed.


End Drafts.

(** * The session controller: a failure is contained *)

Section FailureContained.
Import Text Aux Refusal Data Effects Triples Session SessionRel Samples SessionShape.

Variable llm : nat -> Reply.
Variable cfg : Config.









End FailureContained.

Section FailureSamples.
Import Text Aux Refusal Data Effects Triples Session SessionRel Samples SessionShape.



End FailureSamples.

(** * The session controller: what an operation leaves behind *)

Section Outcomes.
Import Text Aux Refusal Data Effects Triples Session SessionRel Samples SessionShape.

Variable llm : nat -> Reply.
Variable cfg : Config.

Lemma sameBook_refl (s : State) : sameBook s s.
Proof. repeat split. Qed.

Lemma sameBook_trans (s1 s2 s3 : State) : sameBook s1 s2 -> sameBook s2 s3 -> sameBook s1 s3.
Proof. unfold sameBook. intuition congruence. Qed.

Lemma sameBook_events (s : State) (e : list Event) : sameBook s (setEvents e s).
Proof. repeat split. Qed.

Lemma sameBook_costs (s : State) (c : list string) : sameBook s (setCosts c s).
Proof. repeat split. Qed.

Lemma sameBook_calls (s : State) (n : nat) : sameBook s (setCalls n s).
Proof. repeat split. Qed.

Lemma updateContinuity_sameBook (chapter : ChapterContent) :
  preserves sameBook (updateContinuity llm cfg chapter).
Proof.
  intros s r s' H. pose proof (updateContinuity_run llm cfg chapter s) as K.
  rewrite H in K. tauto.
Qed.

Lemma generateChapterSummary_sameBook (content : jstr) :
  preserves sameBook (generateChapterSummary llm content).
Proof.
  apply (preserves_generateChapterSummary llm sameBook sameBook_refl sameBook_trans sameBook_costs sameBook_calls).
Qed.

Lemma expandIfNeeded_sameBook (n : Z) (content : jstr) (target : Z) (maxAttempts : nat)
    (hasPlan : bool) :
  preserves sameBook (expandIfNeeded llm cfg n content target maxAttempts hasPlan).
Proof.
  apply (preserves_expandIfNeeded llm cfg sameBook sameBook_refl sameBook_trans sameBook_events sameBook_costs sameBook_calls).
Qed.

Lemma generateDetailedPlan_sameBook (n : Z) : preserves sameBook (generateDetailedPlan llm n).
Proof.
  apply (preserves_generateDetailedPlan llm sameBook sameBook_refl sameBook_trans sameBook_costs sameBook_calls).
Qed.

Lemma rewriteFromFeedback_sameBook (plan : DetailedChapterPlan) (feedback : jstr)
    (existing : option jstr) :
  preserves sameBook (rewriteFromFeedback llm plan feedback existing).
Proof.
  apply (preserves_rewriteFromFeedback llm sameBook sameBook_refl sameBook_trans sameBook_costs sameBook_calls).
Qed.

Lemma editChapter_sameBook (draft : jstr) : preserves sameBook (editChapter llm draft).
Proof.
  apply (preserves_editChapter llm sameBook sameBook_refl sameBook_trans sameBook_costs sameBook_calls).
Qed.

Lemma generateChapterDraft_sameBook (n : Z) (chapterPlan : ChapterPlan) :
  preserves sameBook (generateChapterDraft llm cfg n chapterPlan).
Proof.
  apply (preserves_generateChapterDraft llm cfg sameBook sameBook_refl sameBook_trans sameBook_events sameBook_costs sameBook_calls).
Qed.

Lemma throwsOnly_generateDetailedPlan (n : Z) :
  throwsOnly isCallError (generateDetailedPlan llm n).
Proof.
  unfold generateDetailedPlan. apply throwsOnly_bind; [apply throwsOnly_generatePlan|].
  intros p. apply throwsOnly_never.
  apply neverThrows_bind; [apply neverThrows_addCostEntry|intros; apply neverThrows_ret].
Qed.

Lemma throwsOnly_editChapter (draft : jstr) : throwsOnly isCallError (editChapter llm draft).
Proof.
  unfold editChapter. apply throwsOnly_bind; [apply throwsOnly_generateEdit|].
  intros p. apply throwsOnly_never.
  apply neverThrows_bind; [apply neverThrows_addCostEntry|intros; apply neverThrows_ret].
Qed.

(** ** [rewriteChapter] *)

(** ** The stored chapters *)

Lemma wellStored_sameBook (s s' : State) : sameBook s s' -> wellStored s -> wellStored s'.
Proof. intros (E1 & E2 & _ & _) [W1 W2]. unfold wellStored. rewrite E1, E2. auto. Qed.

Lemma wellStored_status (n : Z) (st : ChapterStatus) (s : State) :
  st <> approved -> wellStored s ->
  wellStored (setStatuses (<[n := st]> (chapterStatuses s)) s).
Proof.
  intros Hst [W1 W2]. split; [exact W1|]. cbn [chapterStatuses chapters setStatuses].
  intros k Hk. destruct (decide (k = n)) as [->|Hne].
  - rewrite lookup_insert_eq in Hk. congruence.
  - rewrite lookup_insert_ne in Hk by congruence. apply W2, Hk.
Qed.

Lemma wellStored_stored (n : Z) (c : ChapterContent) (s : State) :
  chNumber c = n -> chApproved c = true -> chWordCount c = countWords (chContent c) ->
  wellStored s -> wellStored (stored n c s).
Proof.
  intros H1 H2 H3 [W1 W2]. unfold stored. split; cbn [chapterStatuses chapters setStatuses setChapters].
  - intros k d Hk. destruct (decide (k = n)) as [->|Hne].
    + rewrite lookup_insert_eq in Hk. injection Hk as <-. auto.
    + rewrite lookup_insert_ne in Hk by congruence. apply W1, Hk.
  - intros k Hk. destruct (decide (k = n)) as [->|Hne].
    + rewrite lookup_insert_eq. eauto.
    + rewrite lookup_insert_ne in Hk by congruence. rewrite lookup_insert_ne by congruence.
      apply W2, Hk.
Qed.

Lemma sameOthers_refl (n : Z) (s : State) : sameOthers n s s.
Proof. intros k _. auto. Qed.

Lemma sameOthers_trans (n : Z) (s1 s2 s3 : State) :
  sameOthers n s1 s2 -> sameOthers n s2 s3 -> sameOthers n s1 s3.
Proof.
  intros H1 H2 k Hk. destruct (H1 k Hk) as [A1 B1]. destruct (H2 k Hk) as [A2 B2].
  split; congruence.
Qed.

Lemma sameOthers_sameBook (n : Z) (s s' : State) : sameBook s s' -> sameOthers n s s'.
Proof. intros (E1 & E2 & _ & _) k _. rewrite E1, E2. auto. Qed.

Lemma sameOthers_status (n : Z) (st : ChapterStatus) (s : State) :
  sameOthers n s (setStatuses (<[n := st]> (chapterStatuses s)) s).
Proof.
  intros k Hk. cbn [chapters chapterStatuses setStatuses].
  rewrite lookup_insert_ne by congruence. auto.
Qed.

Lemma sameOthers_stored (n : Z) (c : ChapterContent) (s : State) : sameOthers n s (stored n c s).
Proof.
  intros k Hk. unfold stored. cbn [chapters chapterStatuses setStatuses setChapters].
  rewrite !lookup_insert_ne by congruence. auto.
Qed.

(** ** [rewriteChapter] *)

Lemma rewriteChapter_gated (n : Z) (feedback : jstr) (s : State) (chs : list ChapterPlan)
    (chapterPlan : ChapterPlan) :
  outlineApproved s = true -> outline s = Some chs -> findPlan chs n = Some chapterPlan ->
  rewriteChapter llm cfg n feedback s =
  tryCatch (rewriteBody llm cfg n feedback chapterPlan)
    (fun error => do setStatus n failed then throw error)
    (setStatuses (<[n := generating]> (chapterStatuses s)) s).
Proof.
  intros Ha Ho Hf. unfold rewriteChapter. rewrite bind_gets, Ha. cbn [negb].
  rewrite bind_gets, Ho, Hf. unfold setStatus at 1. rewrite bind_modify. reflexivity.
Qed.

Lemma rewriteBody_throws (n : Z) (feedback : jstr) (chapterPlan : ChapterPlan)
    (s : State) (e : Error) (s' : State) :
  rewriteBody llm cfg n feedback chapterPlan s = (Thrown e, s') ->
  isCallError e /\ sameBook s s'.
Proof.
  intros H. split.
  - revert H. apply throwsOnly_bind; [apply throwsOnly_generateDetailedPlan|]. intros dp.
    apply throwsOnly_bind; [apply throwsOnly_rewriteFromFeedback|]. intros d.
    apply throwsOnly_bind; [apply throwsOnly_expandLoop|]. intros d'.
    apply throwsOnly_bind; [apply throwsOnly_editChapter|]. intros er.
    apply throwsOnly_never.
    apply neverThrows_bind; [apply neverThrows_generateChapterSummary|]. intros sm.
    apply neverThrows_bind; [apply neverThrows_updateContinuity|]. intros u.
    apply neverThrows_bind; [apply neverThrows_modify|]. intros u'.
    apply neverThrows_bind; [apply neverThrows_setStatus|]. intros u''. apply neverThrows_ret.
  - revert H. apply (throwsKeep_bind sameBook sameBook_trans);
      [apply generateDetailedPlan_sameBook|]. intros dp.
    apply (throwsKeep_bind sameBook sameBook_trans); [apply rewriteFromFeedback_sameBook|].
    intros d.
    apply (throwsKeep_bind sameBook sameBook_trans); [apply expandIfNeeded_sameBook|]. intros d'.
    apply (throwsKeep_bind sameBook sameBook_trans); [apply editChapter_sameBook|]. intros er.
    apply throwsKeep_never.
    apply neverThrows_bind; [apply neverThrows_generateChapterSummary|]. intros sm.
    apply neverThrows_bind; [apply neverThrows_updateContinuity|]. intros u.
    apply neverThrows_bind; [apply neverThrows_modify|]. intros u'.
    apply neverThrows_bind; [apply neverThrows_setStatus|]. intros u''. apply neverThrows_ret.
Qed.

Lemma rewriteBody_ok (n : Z) (feedback : jstr) (chapterPlan : ChapterPlan)
    (s : State) (res : ChapterResult) (s' : State) :
  rewriteBody llm cfg n feedback chapterPlan s = (Ok res, s') ->
  (exists s1, sameBook s s1 /\ s' = stored n (chapter res) s1) /\
  chNumber (chapter res) = n /\ chTitle (chapter res) = title chapterPlan /\
  chApproved (chapter res) = true /\ chEditCount (chapter res) = 1%nat /\
  chWordCount (chapter res) = countWords (chContent (chapter res)) /\
  List.length (editHistory res) = 1%nat.
Proof.
  unfold rewriteBody. intros H.
  apply bind_run in H as [(e & _ & E)|(dp & s1 & H1 & H)]; [discriminate|].
  apply bind_run in H as [(e & _ & E)|(d & s2 & H2 & H)]; [discriminate|].
  apply bind_run in H as [(e & _ & E)|(d' & s3 & H3 & H)]; [discriminate|].
  apply bind_run in H as [(e & _ & E)|(er & s4 & H4 & H)]; [discriminate|].
  apply bind_run in H as [(e & _ & E)|(sm & s5 & H5 & H)]; [discriminate|].
  apply bind_run in H as [(e & _ & E)|(u & s6 & H6 & H)]; [discriminate|].
  cbv [bind modify setStatus ret] in H. injection H as <- <-.
  cbn [chapter editHistory chNumber chTitle chApproved chEditCount chWordCount chContent
       List.length].
  repeat split. exists s6. split; [|reflexivity].
  apply generateDetailedPlan_sameBook in H1. apply rewriteFromFeedback_sameBook in H2.
  apply expandIfNeeded_sameBook in H3. apply editChapter_sameBook in H4.
  apply generateChapterSummary_sameBook in H5. apply updateContinuity_sameBook in H6.
  eauto 10 using sameBook_trans.
Qed.

Lemma rewriteChapter_run (n : Z) (feedback : jstr) (s : State) (chs : list ChapterPlan)
    (chapterPlan : ChapterPlan) :
  outlineApproved s = true -> outline s = Some chs -> findPlan chs n = Some chapterPlan ->
  match rewriteChapter llm cfg n feedback s with
  | (r, s') =>
      sameOthers n s s' /\ outline s' = outline s /\ outlineApproved s' = true /\
      (wellStored s -> wellStored s') /\
      match r with
      | Ok res =>
          chapterStatuses s' !! n = Some approved /\
          chapters s' !! n = Some (chapter res) /\
          chNumber (chapter res) = n /\ chTitle (chapter res) = title chapterPlan /\
          chApproved (chapter res) = true /\ chEditCount (chapter res) = 1%nat /\
          chWordCount (chapter res) = countWords (chContent (chapter res)) /\
          List.length (editHistory res) = 1%nat
      | Thrown e =>
          isCallError e /\ chapterStatuses s' !! n = Some failed /\
          chapters s' = chapters s
      end
  end.
Proof.
  intros Ha Ho Hf. rewrite (rewriteChapter_gated n feedback s chs chapterPlan Ha Ho Hf).
  set (s0 := setStatuses (<[n := generating]> (chapterStatuses s)) s).
  unfold tryCatch.
  destruct (rewriteBody llm cfg n feedback chapterPlan s0) as [[res|e] s1] eqn:E.
  - apply rewriteBody_ok in E as ((s2 & B & ->) & F1 & F2 & F3 & F4 & F5 & F6).
    pose proof B as (B1 & B2 & B3 & B4).
    split; [|split; [|split; [|split]]].
    + eapply sameOthers_trans; [apply sameOthers_status|]. fold s0.
      eapply sameOthers_trans; [apply sameOthers_sameBook, B|apply sameOthers_stored].
    + unfold stored. cbn. rewrite B3. reflexivity.
    + unfold stored. cbn. rewrite B4. exact Ha.
    + intros W. apply wellStored_stored; trivial.
      apply (wellStored_sameBook s0 s2 B). apply wellStored_status; [discriminate|exact W].
    + unfold stored. cbn [chapterStatuses chapters setStatuses setChapters].
      rewrite !lookup_insert_eq. auto 10.
  - apply rewriteBody_throws in E as [He B]. pose proof B as (B1 & B2 & B3 & B4).
    cbv [bind setStatus modify throw]. cbn [chapterStatuses chapters setStatuses outline
                                            outlineApproved].
    split; [|split; [|split; [|split]]].
    + eapply sameOthers_trans; [apply sameOthers_status|]. fold s0.
      eapply sameOthers_trans; [apply sameOthers_sameBook, B|apply sameOthers_status].
    + rewrite B3. reflexivity.
    + rewrite B4. exact Ha.
    + intros W. apply wellStored_status; [discriminate|].
      apply (wellStored_sameBook s0 s1 B). apply wellStored_status; [discriminate|exact W].
    + split; [exact He|]. split; [apply lookup_insert_eq|]. rewrite B1. reflexivity.
Qed.


(** ** [expandChapter] *)

Lemma expandChapter_run (n : Z) (target : option Z) (s : State) (existing : ChapterContent)
    (chs : list ChapterPlan) :
  chapters s !! n = Some existing -> outline s = Some chs ->
  match expandChapter llm cfg n target s with
  | (r, s') =>
      sameOthers n s s' /\ outline s' = outline s /\ outlineApproved s' = outlineApproved s /\
      (wellStored s -> wellStored s') /\
      match r with
      | Ok res =>
          chapterStatuses s' !! n = Some approved /\
          chapters s' !! n = Some (chapter res) /\
          chNumber (chapter res) = chNumber existing /\
          chTitle (chapter res) = chTitle existing /\
          chEditCount (chapter res) = chEditCount existing /\
          chApproved (chapter res) = chApproved existing /\
          chWordCount (chapter res) = countWords (chContent (chapter res)) /\
          (chContent (chapter res) = chContent existing \/
           (countWords (chContent existing) < countWords (chContent (chapter res)))%nat)
      | Thrown e =>
          isCallError e /\ chapterStatuses s' !! n = Some generating /\
          chapters s' = chapters s
      end
  end.
Proof.
  intros He Ho. unfold expandChapter. rewrite bind_gets, He, bind_gets, Ho.
  unfold setStatus at 1. rewrite bind_modify.
  set (s0 := setStatuses (<[n := generating]> (chapterStatuses s)) s).
  set (t := match target, findPlan chs n with
            | Some t, _ => t
            | None, Some chapterPlan => targetWords chapterPlan
            | None, None => 2000%Z
            end).
  unfold bind at 1.
  destruct (expandIfNeeded llm cfg n (chContent existing) t 3 false s0) as [[expanded|e] s1] eqn:E.
  - pose proof (expandIfNeeded_sameBook _ _ _ _ _ _ _ _ E) as B.
    apply expandLoop_grows in E.
    unfold bind at 1.
    destruct (generateChapterSummary llm expanded s1) as [[sm|e] s2] eqn:E2;
      [|destruct (neverThrows_generateChapterSummary _ _ _ _ _ E2)].
    apply generateChapterSummary_sameBook in E2.
    pose proof (sameBook_trans _ _ _ B E2) as B'. pose proof B' as (B1 & B2 & B3 & B4).
    cbv [bind modify setStatus ret].
    set (c := mkChapter (chNumber existing) (chTitle existing) expanded (countWords expanded)
                sm (chEditCount existing) (chApproved existing)).
    change (setStatuses
              (<[n := approved]> (chapterStatuses (setChapters (<[n := c]> (chapters s2)) s2)))
              (setChapters (<[n := c]> (chapters s2)) s2)) with (stored n c s2).
    cbn [chapter].
    split; [|split; [|split; [|split]]].
    + eapply sameOthers_trans; [apply sameOthers_status|]. fold s0.
      eapply sameOthers_trans; [apply sameOthers_sameBook, B'|apply sameOthers_stored].
    + unfold stored. cbn. rewrite B3. exact Ho.
    + unfold stored. cbn. exact B4.
    + intros W. destruct (proj1 W n existing He) as (W1 & W2 & W3).
      apply wellStored_stored; trivial.
      apply (wellStored_sameBook s0 s2 B'). apply wellStored_status; [discriminate|exact W].
    + unfold stored. cbn [chapterStatuses chapters setStatuses setChapters chNumber chTitle
                          chEditCount chApproved chWordCount chContent].
      rewrite !lookup_insert_eq. auto 10.
  - pose proof (expandIfNeeded_sameBook _ _ _ _ _ _ _ _ E) as B.
    pose proof B as (B1 & B2 & B3 & B4).
    apply throwsOnly_expandLoop in E.
    split; [|split; [|split; [|split]]].
    + eapply sameOthers_trans; [apply sameOthers_status|]. apply sameOthers_sameBook, B.
    + rewrite B3. exact Ho.
    + exact B4.
    + intros W. apply (wellStored_sameBook s0 s1 B).
      apply wellStored_status; [discriminate|exact W].
    + split; [exact E|]. split; [rewrite B2; apply lookup_insert_eq|exact B1].
Qed.


End Outcomes.

Section OutcomeInstances.
Import Text Aux Refusal Outline Data Effects Triples Session SessionRel Samples SessionShape.
Import SessionSamples.



End OutcomeInstances.

(** * The session controller: what every operation keeps *)

Section StoredChapters.
Import Text Aux Refusal Outline Data Effects Triples Session SessionRel Samples SessionShape.

Variable llm : nat -> Reply.
Variable cfg : Config.

Lemma establishes_bind {A B : Type} (P Q R : State -> Prop) (m : M State A)
    (k : A -> M State B) :
  establishes P m Q -> (forall x, establishes Q (k x) R) -> (forall s, Q s -> R s) ->
  establishes P (bind m k) R.
Proof.
  intros Hm Hk HQ s r s' HP H. apply bind_run in H as [(e & H & _)|(x & s1 & H1 & H2)].
  - eapply HQ, Hm; eauto.
  - eapply Hk; [|exact H2]. eapply Hm; eauto.
Qed.

Lemma establishes_tryCatch {A : Type} (P Q R : State -> Prop) (m : M State A)
    (h : Error -> M State A) :
  establishes P m Q -> (forall e, establishes Q (h e) R) -> (forall s, Q s -> R s) ->
  establishes P (tryCatch m h) R.
Proof.
  intros Hm Hh HQ s r s' HP H. apply tryCatch_run in H as [(x & H & _)|(e & s1 & H1 & H2)].
  - eapply HQ, Hm; eauto.
  - eapply Hh; [|exact H2]. eapply Hm; eauto.
Qed.

Lemma establishes_ret {A : Type} (P : State -> Prop) (x : A) : establishes P (ret x) P.
Proof. intros s r s' HP H. injection H as _ <-. exact HP. Qed.

Lemma establishes_throw {A : Type} (P : State -> Prop) (e : Error) :
  establishes P (@throw State A e) P.
Proof. intros s r s' HP H. injection H as _ <-. exact HP. Qed.

Lemma establishes_gets {A : Type} (P : State -> Prop) (f : State -> A) :
  establishes P (gets f) P.
Proof. intros s r s' HP H. injection H as _ <-. exact HP. Qed.

Lemma establishes_modify (P Q : State -> Prop) (f : State -> State) :
  (forall s, P s -> Q (f s)) -> establishes P (modify f) Q.
Proof. intros Hf s r s' HP H. injection H as _ <-. apply Hf, HP. Qed.

Lemma establishes_sameBook {A : Type} (m : M State A) :
  preserves sameBook m -> establishes wellStored m wellStored.
Proof. intros Hm s r s' W H. eapply wellStored_sameBook; [eapply Hm, H|exact W]. Qed.

Lemma keeps_emit (e : Event) : establishes wellStored (emit e) wellStored.
Proof. apply establishes_modify. intros s W. exact W. Qed.

Lemma keeps_setStatus (n : Z) (st : ChapterStatus) :
  st <> approved -> establishes wellStored (setStatus n st) wellStored.
Proof. intros Hst. apply establishes_modify. intros s. apply wellStored_status, Hst. Qed.

Lemma keeps_store (n : Z) (c : ChapterContent) {A : Type} (k : M State A) :
  chNumber c = n -> chApproved c = true -> chWordCount c = countWords (chContent c) ->
  establishes wellStored k wellStored ->
  establishes wellStored
    (do modify (fun s => setChapters (<[n := c]> (chapters s)) s) then
     do setStatus n approved then k) wellStored.
Proof.
  intros H1 H2 H3 Hk s r s' W. unfold setStatus. rewrite !bind_modify.
  apply Hk. apply (wellStored_stored n c s H1 H2 H3 W).
Qed.

Lemma keeps_storeChapter (n : Z) (chapterPlan : ChapterPlan) (chs : list ChapterPlan)
    (draft : jstr) (history : list EditCycleRecord) (isApproved : bool) :
  establishes wellStored (storeChapter llm cfg n chapterPlan chs draft history isApproved)
    wellStored.
Proof.
  unfold storeChapter.
  apply (establishes_bind _ wellStored);
    [apply establishes_sameBook, generateChapterSummary_sameBook| |auto]. intros sm.
  apply (establishes_bind _ wellStored);
    [apply establishes_sameBook, updateContinuity_sameBook| |auto]. intros u.
  apply keeps_store; [reflexivity|destruct isApproved; reflexivity|reflexivity|].
  apply (establishes_bind _ wellStored); [|intros u'|auto].
  { destruct (negb _); [apply keeps_emit|apply establishes_ret]. }
  apply (establishes_bind _ wellStored); [apply keeps_emit|intros u''|auto].
  apply (establishes_bind _ wellStored); [apply establishes_gets|intros done|auto].
  apply (establishes_bind _ wellStored); [|intros u3; apply establishes_ret|auto].
  destruct done; [|apply establishes_ret].
  apply establishes_modify. intros s W. exact W.
Qed.

Lemma keeps_generateChapter (n : option Z) :
  establishes wellStored (generateChapter llm cfg n) wellStored.
Proof.
  unfold generateChapter.
  apply (establishes_bind _ wellStored); [apply establishes_gets|intros a|auto].
  destruct (negb a); [apply establishes_throw|].
  apply (establishes_bind _ wellStored); [apply establishes_gets|intros next|auto].
  destruct (match n with Some n0 => Some n0 | None => next end) as [target|];
    [|apply establishes_throw].
  apply (establishes_bind _ wellStored); [apply establishes_gets|intros o|auto].
  destruct o as [chs|]; [|apply establishes_throw].
  destruct (findPlan chs target) as [chapterPlan|]; [|apply establishes_throw].
  apply (establishes_bind _ wellStored); [apply keeps_setStatus; discriminate|intros u|auto].
  apply (establishes_tryCatch _ wellStored); [| |auto].
  - unfold generateChapterBody.
    apply (establishes_bind _ wellStored);
      [apply establishes_sameBook, generateChapterDraft_sameBook| |auto].
    intros [[draft history] isApproved]. apply keeps_storeChapter.
  - intros e.
    apply (establishes_bind _ wellStored); [apply keeps_setStatus; discriminate|intros u'|auto].
    apply (establishes_bind _ wellStored);
      [apply keeps_emit|intros u''; apply establishes_throw|auto].
Qed.

Lemma keeps_generateEach (chs : list ChapterPlan) :
  establishes wellStored (generateEach llm cfg chs) wellStored.
Proof.
  induction chs as [|ch chs IH]; [apply establishes_ret|].
  cbn [generateEach].
  apply (establishes_bind _ wellStored); [apply establishes_gets|intros status|auto].
  destruct (isStatus status approved); [exact IH|].
  destruct (isStatus status failed); [exact IH|].
  apply (establishes_bind _ wellStored); [| |auto].
  - apply (establishes_tryCatch _ wellStored); [| |auto].
    + apply (establishes_bind _ wellStored);
        [apply keeps_generateChapter|intros res; apply establishes_ret|auto].
    + intros e.
      apply (establishes_bind _ wellStored); [apply keeps_setStatus; discriminate|intros u|auto].
      apply (establishes_bind _ wellStored);
        [apply keeps_emit|intros u'; apply establishes_ret|auto].
  - intros yielded.
    apply (establishes_bind _ wellStored); [exact IH|intros more; apply establishes_ret|auto].
Qed.

Lemma keeps_generateAllRemaining :
  establishes wellStored (generateAllRemaining llm cfg) wellStored.
Proof.
  unfold generateAllRemaining.
  apply (establishes_bind _ wellStored); [apply establishes_gets|intros a|auto].
  destruct (negb a); [apply establishes_throw|].
  apply (establishes_bind _ wellStored); [apply establishes_gets|intros o|auto].
  destruct o as [chs|]; [|apply establishes_throw].
  apply (establishes_bind _ wellStored); [apply keeps_generateEach|intros results|auto].
  apply (establishes_bind _ wellStored); [apply establishes_gets|intros allDone|auto].
  apply (establishes_bind _ wellStored); [|intros u; apply establishes_ret|auto].
  destruct allDone; [|apply establishes_ret].
  apply establishes_modify. intros s W. exact W.
Qed.

Lemma keeps_rewriteChapter (n : Z) (feedback : jstr) :
  establishes wellStored (rewriteChapter llm cfg n feedback) wellStored.
Proof.
  intros s r s' W H.
  destruct (outlineApproved s) eqn:Ha;
    [|rewrite (rewriteChapter_gate llm cfg n feedback s Ha) in H; injection H as _ <-; exact W].
  destruct (outline s) as [chs|] eqn:Ho.
  - destruct (findPlan chs n) as [chapterPlan|] eqn:Hf.
    + pose proof (rewriteChapter_run llm cfg n feedback s chs chapterPlan Ha Ho Hf) as K.
      rewrite H in K. tauto.
    + unfold rewriteChapter in H. rewrite bind_gets, Ha in H. cbn [negb] in H.
      rewrite bind_gets, Ho, Hf in H. injection H as _ <-. exact W.
  - unfold rewriteChapter in H. rewrite bind_gets, Ha in H. cbn [negb] in H.
    rewrite bind_gets, Ho in H. injection H as _ <-. exact W.
Qed.

Lemma keeps_expandChapter (n : Z) (target : option Z) :
  establishes wellStored (expandChapter llm cfg n target) wellStored.
Proof.
  intros s r s' W H.
  destruct (chapters s !! n) as [existing|] eqn:He;
    [|rewrite (expandChapter_nothing_generated llm cfg n target s He) in H;
      injection H as _ <-; exact W].
  destruct (outline s) as [chs|] eqn:Ho.
  - pose proof (expandChapter_run llm cfg n target s existing chs He Ho) as K.
    rewrite H in K. tauto.
  - unfold expandChapter in H. rewrite bind_gets, He, bind_gets, Ho in H.
    injection H as _ <-. exact W.
Qed.

Lemma wellStored_pending (chs : list ChapterPlan) (s : State) (m : gmap Z ChapterStatus) :
  (forall n, m !! n = Some approved -> is_Some (chapters s !! n)) ->
  wellStored s -> wellStored (setStatuses (initStatuses chs m) s).
Proof.
  intros Hm [W1 W2]. split; [exact W1|]. cbn [chapterStatuses chapters setStatuses].
  intros n. rewrite initStatuses_lookup. destruct (existsb _ chs); [discriminate|apply Hm].
Qed.

Lemma keeps_generateOutline : establishes wellStored (generateOutline llm cfg) wellStored.
Proof.
  intros s r s' W. unfold generateOutline. rewrite bind_modify. unfold bind at 1.
  destruct (generateOutlineObject_run llm (setPhase outlinePhase s))
    as [(o & _ & ->)|(e & He & ->)].
  - cbv [bind modify addCostEntry emit ret]. intros H. injection H as _ <-.
    apply (wellStored_pending (applyWordConfig cfg o)); [apply W|exact W].
  - intros H. injection H as _ <-. exact W.
Qed.

Lemma keeps_regenerateOutline : establishes wellStored (regenerateOutline llm cfg) wellStored.
Proof.
  intros s r s' W. unfold regenerateOutline. rewrite bind_modify. unfold bind at 1.
  destruct (generateOutlineObject_run llm (setOutlineApproved false s))
    as [(o & _ & ->)|(e & He & ->)].
  - cbv [bind modify addCostEntry emit ret]. intros H. injection H as _ <-.
    apply (wellStored_pending (applyWordConfig cfg o)); [|exact W].
    intros n Hn. rewrite lookup_empty in Hn. discriminate.
  - intros H. injection H as _ <-. exact W.
Qed.

Lemma keeps_approveOutline : establishes wellStored approveOutline wellStored.
Proof.
  intros s r s' W. unfold approveOutline. rewrite bind_gets.
  destruct (outline s); intros H; injection H as _ <-; exact W.
Qed.

Lemma keeps_updateOutline (defaultWords : Z) (changes : OutlineChanges) (s s' : State) :
  wellStored s -> OutlineSession.updateOutline defaultWords changes s = Some s' ->
  wellStored s'.
Proof.
  intros [W1 W2]. unfold OutlineSession.updateOutline.
  destruct (outline s) as [plans|]; [|discriminate].
  cbn [freshOutline]. unfold OutlineSession.updateOutlineAt.
  destruct (Outline.updateOutline _ _ _ _) as [h chapters0]. cbn [snd].
  intros E. injection E as <-. split; [exact W1|].
  cbn [chapterStatuses chapters setStatuses setOutline]. intros n.
  unfold OutlineSession.statusesFor. rewrite statuses_fold.
  destruct (existsb _ _); [|rewrite lookup_empty; discriminate].
  destruct (chapters s !! n); [eauto|discriminate].
Qed.

(** X24. What the session keeps, from its first state on and through
    every operation, whether the operation returns or throws: every
    stored chapter is stored under its own number, is approved, and
    carries the word count of its content, and every chapter whose
    status is 'approved' is stored. *)
Theorem stored_chapters_stay_sound :
  wellStored initialState /\
  establishes wellStored (generateOutline llm cfg) wellStored /\
  establishes wellStored (regenerateOutline llm cfg) wellStored /\
  establishes wellStored approveOutline wellStored /\
  (forall defaultWords changes s s',
     wellStored s -> OutlineSession.updateOutline defaultWords changes s = Some s' ->
     wellStored s') /\
  (forall n, establishes wellStored (generateChapter llm cfg n) wellStored) /\
  (forall n feedback, establishes wellStored (rewriteChapter llm cfg n feedback) wellStored) /\
  (forall n target, establishes wellStored (expandChapter llm cfg n target) wellStored) /\
  establishes wellStored (generateAllRemaining llm cfg) wellStored.
Proof.
  split.
  { split; intros n; [intros c|]; unfold initialState; cbn [chapters chapterStatuses];
      rewrite lookup_empty; discriminate. }
  split; [exact keeps_generateOutline|]. split; [exact keeps_regenerateOutline|].
  split; [exact keeps_approveOutline|]. split; [exact keeps_updateOutline|].
  split; [exact keeps_generateChapter|]. split; [exact keeps_rewriteChapter|].
  split; [exact keeps_expandChapter|exact keeps_generateAllRemaining].
Qed.

End StoredChapters.

(** * The preamble of an expansion *)

Section PreambleFacts.
Import Text Aux Words Regex Session Preamble.

Lemma splitLines_cons (s : jstr) : exists l ls, splitLines s = l :: ls.
Proof.
  induction s as [|c s (l & ls & E)]; cbn [splitLines]; [eauto|].
  destruct (isNL c); [eauto|]. rewrite E. cbn. eauto.
Qed.

(** Joining the lines of a text gives the text back. *)
Lemma join_splitLines (s : jstr) : join [LF] (splitLines s) = s.
Proof.
  induction s as [|c s IH]; [reflexivity|]. cbn [splitLines].
  destruct (splitLines_cons s) as (l & ls & E). rewrite E in *.
  destruct (isNL c) eqn:Ec.
  - apply N.eqb_eq in Ec. subst c.
    change (join [LF] ([] :: l :: ls)) with ([] ++ [LF] ++ join [LF] (l :: ls)).
    rewrite IH. reflexivity.
  - cbn [consFirst]. destruct ls as [|l' ls].
    + cbn [join] in *. rewrite IH. reflexivity.
    + change (join [LF] ((c :: l) :: l' :: ls)) with (c :: (l ++ [LF] ++ join [LF] (l' :: ls))).
      change (join [LF] (l :: l' :: ls)) with (l ++ [LF] ++ join [LF] (l' :: ls)) in IH.
      rewrite IH. reflexivity.
Qed.

Lemma join_skipn_suffix (sep : jstr) (k : nat) (L : list jstr) :
  exists a, join sep L = a ++ join sep (skipn k L).
Proof.
  revert L. induction k as [|k IH]; intros L; [exists []; reflexivity|].
  destruct L as [|p L]; [exists []; reflexivity|]. cbn [skipn].
  destruct (IH L) as [a E]. destruct L as [|q L].
  - exists p. rewrite skipn_nil. cbn. rewrite app_nil_r. reflexivity.
  - exists (p ++ sep ++ a).
    change (join sep (p :: q :: L)) with (p ++ sep ++ join sep (q :: L)).
    rewrite E, <- !app_assoc. reflexivity.
Qed.

Lemma wordsGo_allSpace (inWord : bool) (a : jstr) : allSpace a = true -> wordsGo inWord a = 0%nat.
Proof.
  revert inWord. induction a as [|c a IH]; intros inWord; [reflexivity|].
  unfold allSpace. cbn [forallb wordsGo]. intros H. apply andb_prop in H as [-> H].
  apply IH, H.
Qed.

Lemma countWords_ltrim (s : jstr) : countWords (ltrim s) = countWords s.
Proof.
  rewrite !countWords_words. induction s as [|c s IH]; [reflexivity|].
  cbn [ltrim wordsGo]. destruct (isSpace c) eqn:E; [exact IH|].
  cbn [wordsGo]. rewrite E. reflexivity.
Qed.

Lemma countWords_rtrim (s : jstr) : countWords (rtrim s) = countWords s.
Proof.
  destruct (ltrim_split (rev s)) as (a & E & A).
  assert (s = rtrim s ++ rev a) as Es.
  { unfold rtrim. rewrite <- rev_app_distr, <- E, rev_involutive. reflexivity. }
  rewrite Es at 2. rewrite !countWords_words, wordsGo_app.
  rewrite (wordsGo_allSpace _ (rev a)) by (rewrite allSpace_rev; exact A). lia.
Qed.

Lemma countWords_trim (s : jstr) : countWords (trim s) = countWords s.
Proof. unfold trim. rewrite countWords_rtrim. apply countWords_ltrim. Qed.

Lemma wordsGo_some (s : jstr) :
  existsb (fun c => negb (isSpace c)) s = true -> (1 <= wordsGo false s)%nat.
Proof.
  induction s as [|c s IH]; cbn [existsb wordsGo]; [discriminate|].
  destruct (isSpace c); cbn [negb orb]; [exact IH|lia].
Qed.

Lemma endsInWord_some (a : jstr) :
  endsInWord a = true -> existsb (fun c => negb (isSpace c)) a = true.
Proof.
  unfold endsInWord. intros H. apply existsb_exists.
  destruct (rev a) as [|c r] eqn:E; [discriminate|].
  exists c. split; [|exact H]. apply in_rev. rewrite E. left. reflexivity.
Qed.

Lemma countWords_suffix (a b : jstr) : (countWords b <= countWords (a ++ b))%nat.
Proof.
  rewrite countWords_app. destruct (endsInWord a && startsInWord b) eqn:E; [|lia].
  apply andb_prop in E as [Ea _].
  pose proof (wordsGo_some a (endsInWord_some a Ea)). rewrite (countWords_words a). lia.
Qed.

Lemma length_suffix (a b : jstr) : (List.length b <= List.length (a ++ b))%nat.
Proof. rewrite length_app. lia. Qed.

Lemma preambleLines_leading (budget i : nat) (lines : list jstr) :
  preambleLines budget i i lines = (i + leadingPreamble budget lines)%nat.
Proof.
  revert i lines. induction budget as [|budget IH]; intros i lines;
    cbn [preambleLines leadingPreamble]; [lia|].
  destruct lines as [|l rest]; [lia|]. unfold isPreambleLine.
  destruct (isEmpty (trim l)); cbn [orb]; [rewrite IH; lia|].
  destruct (Regex.test true preambleRe (trim l)); cbn [orb]; [rewrite IH; lia|].
  destruct (Regex.test false dashesRe (trim l)); [rewrite IH|]; lia.
Qed.

(** The lines counted are lines of preamble, and the count stops at the
    first line that is not, at the end of the text or at the budget. *)
Lemma leadingPreamble_spec (budget : nat) (lines : list jstr) :
  let k := leadingPreamble budget lines in
  (k <= budget)%nat /\ (k <= List.length lines)%nat /\
  Forall (fun l => isPreambleLine l = true) (firstn k lines) /\
  (k = budget \/ k = List.length lines \/
   exists l, nth_error lines k = Some l /\ isPreambleLine l = false).
Proof.
  revert lines. induction budget as [|budget IH]; intros lines; cbn [leadingPreamble].
  - cbn. repeat split; auto; lia.
  - destruct lines as [|l rest]; [cbn; repeat split; auto; lia|].
    destruct (isPreambleLine l) eqn:E.
    + destruct (IH rest) as (H1 & H2 & H3 & H4). cbn [List.length firstn nth_error].
      split; [lia|]. split; [lia|]. split; [constructor; assumption|].
      destruct H4 as [H4|[H4|H4]]; [left|right; left|right; right]; auto; lia.
    + cbn [firstn nth_error]. split; [lia|]. split; [lia|]. split; [constructor|].
      right. right. eauto.
Qed.

Lemma stripExpandPreamble_leading (t : jstr) :
  stripExpandPreamble t =
  match leadingPreamble 5 (splitLines t) with
  | O => t
  | k => trim (join [LF] (skipn k (splitLines t)))
  end.
Proof.
  unfold stripExpandPreamble. rewrite (preambleLines_leading 5 0). reflexivity.
Qed.

(** X25. [stripExpandPreamble] strips the lines of preamble that open a
    text, five at most, and nothing else.  A text whose first line is
    not a line of preamble is given back as it is.  A text whose first
    line is one loses it, and the lines of preamble that follow it, up
    to the first line that is none, to the fifth line or to the end of
    the text; what is left is trimmed.  So what it gives is never longer
    than the text and never has more words.  (The lines of a text, joined
    by line feeds, are the text.) *)
Theorem stripExpandPreamble_only_strips :
  (forall t, join [LF] (splitLines t) = t) /\
  (forall t l rest, splitLines t = l :: rest -> isPreambleLine l = false ->
     stripExpandPreamble t = t) /\
  (forall t l rest, splitLines t = l :: rest -> isPreambleLine l = true ->
     exists k, (0 < k <= 5)%nat /\
       stripExpandPreamble t = trim (join [LF] (skipn k (splitLines t))) /\
       Forall (fun l => isPreambleLine l = true) (firstn k (splitLines t)) /\
       (k = 5%nat \/ k = List.length (splitLines t) \/
        exists l', nth_error (splitLines t) k = Some l' /\ isPreambleLine l' = false)) /\
  (forall t, (List.length (stripExpandPreamble t) <= List.length t)%nat /\
             (countWords (stripExpandPreamble t) <= countWords t)%nat).
Proof.
  split; [exact join_splitLines|]. split; [|split].
  - intros t l rest E Hl. rewrite stripExpandPreamble_leading, E.
    cbn [leadingPreamble]. rewrite Hl. reflexivity.
  - intros t l rest E Hl. rewrite stripExpandPreamble_leading.
    destruct (leadingPreamble_spec 5 (splitLines t)) as (H1 & H2 & H3 & H4).
    destruct (leadingPreamble 5 (splitLines t)) as [|k] eqn:Ek.
    + exfalso. rewrite E in Ek. cbn [leadingPreamble] in Ek. rewrite Hl in Ek. discriminate.
    + exists (S k). split; [lia|]. auto.
  - intros t. rewrite stripExpandPreamble_leading.
    destruct (leadingPreamble 5 (splitLines t)) as [|k]; [split; reflexivity|].
    destruct (join_skipn_suffix [LF] (S k) (splitLines t)) as [a E].
    rewrite join_splitLines in E. split.
    + etransitivity; [apply length_trim|]. rewrite E at 2. apply length_suffix.
    + rewrite countWords_trim. rewrite E at 2. apply countWords_suffix.
Qed.

End PreambleFacts.

(** * The graph: the book it builds *)

Section GraphFacts.
Import Text Aux Words Refusal Data Effects Triples Graph GraphShape.

Variable llm : nat -> Reply.
Variable minAcceptable : Z -> nat.
Variable registry : ModelRole -> ModelEntry.
Variable interrupt : nat -> Review.


Lemma stepGraph_sound (m : nat) (node : Route) (state : BookState) (c : nat)
    (node' : Route) (state' : BookState) (c' : nat) :
  nodeSound m node state ->
  stepGraph llm minAcceptable registry interrupt node state c = (Ok (node', state'), c') ->
  nodeSound m node' state'.
Proof.
  intros [B N] H. destruct node; cbn [stepGraph] in H.
  - apply bind_run in H as [(e & _ & E')|(s1 & c1 & H1 & H)]; [discriminate|].
    injection H as <- <- _.
    apply plannerNode_frame in H1 as (E1 & _ & E2 & E3 & E4 & E5 & _).
    split; [apply (bookSound_frame m state s1); assumption|]. cbn. lia.
  - apply bind_run in H as [(e & _ & E')|(s1 & c1 & H1 & H)]; [discriminate|].
    injection H as <- <- _.
    apply writerNode_frame in H1 as (E1 & _ & E2 & E3 & E4 & E5 & _).
    split; [apply (bookSound_frame m state s1); assumption|]. cbn. lia.
  - apply bind_run in H as [(e & _ & E')|(s1 & c1 & H1 & H)]; [discriminate|].
    injection H as <- <- _.
    apply editorNode_run in H1 as (_ & E1 & _ & E2 & E3 & E4 & _ & E5 & _).
    assert (bookSound m s1) as B1 by (apply (bookSound_frame m state s1); assumption).
    split; [exact B1|]. destruct B as (Em & _). cbn in N.
    unfold editorRouter. rewrite E1, E5, Em.
    destruct (currentEditResult s1) as [er|]; [destruct (editApproved er)|];
      try destruct (Nat.leb_spec m (S (editCount state))); cbn; lia.
  - apply bind_run in H as [(e & _ & E')|(s1 & c1 & H1 & H)]; [discriminate|].
    apply bind_run in H as [(e & _ & E')|(next & c2 & Hnext & H)]; [discriminate|].
    injection H as <- <- _.
    assert (bookSound m s1) as B1.
    { apply continuityNode_run in H1
        as (plan & chs & g & sm & _ & _ & _ & _ & _ & _ & E3 & _ & _ & _ & _ & _ & _ &
            [(_ & _ & _ & E5 & E6 & E7 & _)|(_ & _ & E5 & E6 & E7 & _)]).
      - apply (bookSound_frame m state s1); assumption.
      - destruct B as (Em & Hc & Hn & Ht & Hf). cbn in N.
        unfold bookSound. rewrite E3, E5, E6, E7. split; [exact Em|]. split; [lia|].
        unfold completedChapter.
        rewrite !map_app, list_sum_app, Hn, <- Ht. cbn [map chNumber chWordCount].
        unfold list_sum at 1. cbn [fold_right].
        split; [|split; [lia|]].
        + replace (S (currentChapter state) - 1)%nat with (S (currentChapter state - 1)) by lia.
          rewrite seq_S, map_app. cbn [map]. repeat f_equal. lia.
        + apply Forall_app. split; [exact Hf|]. constructor; [|constructor]. cbn. auto. }
    split; [exact B1|]. revert Hnext. unfold fromResult, chapterRouter.
    destruct (currentPhase s1); destruct (outline s1); try destruct (_ <=? _)%nat;
      intros Hnext; inversion Hnext; exact I.
  - injection H as <- <- _. split; [exact B|exact I].
Qed.

(** X27. What the graph keeps from node to node, however long it runs,
    whatever the model replies and whatever a reviewer decides: the
    chapters of the book are numbered 1, 2, ... in order up to the
    chapter before the current one, each of them is approved, carries the
    word count of its content and went through at least one edit cycle
    and at most [max(1, maxEditCycles)], and the total of words written
    is the sum of their word counts. *)
Theorem graph_keeps_the_book_sound (m steps : nat) (node : Route) (state : BookState)
    (c : nat) :
  nodeSound m node state ->
  match runGraph llm minAcceptable registry interrupt steps node state c with
  | (Ok (node', state'), c') => nodeSound m node' state'
  | (Thrown e, c') => True
  end.
Proof.
  revert node state c. induction steps as [|steps IH]; intros node state c N;
    cbn [runGraph].
  - exact N.
  - unfold bind.
    destruct (stepGraph llm minAcceptable registry interrupt node state c)
      as [[[next s1]|e] c1] eqn:H1; [|exact I].
    apply IH. eapply stepGraph_sound; eauto.
Qed.

(** ** The cap of the rolling summary *)

Lemma truncateBySentences_bound (truncated : jstr) (sentences : list jstr) :
  (countWords truncated <= S maxSummaryWords)%nat ->
  (countWords (truncateBySentences truncated sentences) <= S maxSummaryWords)%nat.
Proof.
  revert truncated. induction sentences as [|sentence rest IH]; intros truncated Ht;
    cbn [truncateBySentences]; [exact Ht|].
  destruct (Nat.ltb_spec maxSummaryWords (countWords (truncated ++ sentence))) as [Hgt|Hle];
    [exact Ht|].
  apply IH. destruct truncated as [|x t]; cbn [isEmpty]; [exact (Nat.le_trans _ _ _ Hle (Nat.le_succ_diag_r _))|].
  change ((x :: t) ++ [32] ++ sentence) with ((x :: t) ++ 32 :: sentence).
  rewrite (countWords_space (x :: t) sentence 32 eq_refl).
  pose proof (countWords_app_bounds (x :: t) sentence). lia.
Qed.

(** X28. The cap of the rolling summary in the continuity node.  A
    summary of at most 2000 words is kept as it is, with no further call.
    A longer one is replaced by the reply to one condensation call, as it
    comes; when that call fails, by whole sentences of the summary,
    joined by single spaces, as many from the start as the test of the
    node lets through, and that text has at most 2001 words. *)
Theorem enforceSummaryLength_cases (summary : jstr) (c : nat) :
  match enforceSummaryLength llm summary c with
  | (r, c') =>
      if (countWords summary <=? maxSummaryWords)%nat then r = Ok summary /\ c' = c
      else
        c' = S c /\
        match llm c with
        | TextReply condensed => r = Ok condensed
        | _ =>
            exists text taken rest,
              r = Ok text /\
              splitSentences summary = taken ++ rest /\
              text = fold_left (fun acc sentence =>
                                  acc ++ (if isEmpty acc then [] else [32]) ++ sentence)
                       taken [] /\
              (countWords text <= S maxSummaryWords)%nat
        end
  end.
Proof.
  unfold enforceSummaryLength.
  destruct (Nat.leb_spec (countWords summary) maxSummaryWords) as [Hle|Hgt].
  - apply Nat.ltb_ge in Hle. rewrite Hle. split; reflexivity.
  - apply Nat.ltb_lt in Hgt. rewrite Hgt.
    unfold tryCatch, generateText. cbn [callsOf tick natCalls].
    destruct (truncateBySentences_whole [] (splitSentences summary)) as (taken & rest & E1 & E2).
    pose proof (truncateBySentences_bound [] (splitSentences summary) (Nat.le_0_l _)) as B.
    destruct (llm c); cbv [ret]; split; try reflexivity; eauto 10.
Qed.

End GraphFacts.

Section GraphInstances.
Import Text Data Effects Graph Samples GraphShape GraphSamples.

Lemma graph_keeps_the_book_sound_witness :
  (exists state' c',
     runGraph (script threeRejections) writerTolerance allModels noReviewer 7%nat
       toWriter freshBook 0%nat = (Ok (toEnd, state'), c') /\
     List.length (chapters state') = 1%nat) /\
  match runGraph (script threeRejections) writerTolerance allModels noReviewer 7%nat
          toWriter freshBook 0%nat with
  | (Ok (node', state'), c') => nodeSound 3%nat node' state'
  | (Thrown e, c') => True
  end.
Proof.
  split; [vm_compute; eexists _, _; split; reflexivity|].
  apply (graph_keeps_the_book_sound (script threeRejections) writerTolerance allModels
           noReviewer 3%nat 7%nat toWriter freshBook 0%nat).
  split; [|cbn; lia].
  split; [reflexivity|]. split; [cbn; lia|]. split; [reflexivity|].
  split; [reflexivity|constructor].
Defined.

End GraphInstances.

(** * The session controller: chapters that are done *)

Section DoneChapters.
Import Text Aux Refusal Outline Data Effects Triples Session SessionRel Samples SessionShape.

Variable llm : nat -> Reply.
Variable cfg : Config.

Lemma others_modify (n : Z) (f : State -> State) :
  (forall s, sameOthers n s (f s)) -> preserves (sameOthers n) (modify f).
Proof. apply preserves_modify. Qed.

Lemma others_frame {A : Type} (n : Z) (m : M State A) :
  preserves sameBook m -> preserves (sameOthers n) m.
Proof. intros Hm s r s' H. apply sameOthers_sameBook. eapply Hm, H. Qed.

Lemma others_emit (n : Z) (e : Event) : preserves (sameOthers n) (emit e).
Proof. apply others_modify. intros s k _. auto. Qed.

Lemma others_setStatus (n : Z) (st : ChapterStatus) : preserves (sameOthers n) (setStatus n st).
Proof. apply others_modify. intros s. apply sameOthers_status. Qed.

Lemma others_storeChapter (n : Z) (chapterPlan : ChapterPlan) (chs : list ChapterPlan)
    (draft : jstr) (history : list EditCycleRecord) (isApproved : bool) :
  preserves (sameOthers n) (storeChapter llm cfg n chapterPlan chs draft history isApproved).
Proof.
  unfold storeChapter.
  apply (preserves_bind _ (sameOthers_trans n));
    [apply others_frame, generateChapterSummary_sameBook|intros sm].
  apply (preserves_bind _ (sameOthers_trans n));
    [apply others_frame, updateContinuity_sameBook|intros u].
  apply (preserves_bind _ (sameOthers_trans n)); [|intros u1].
  { apply others_modify. intros s k Hk. cbn [chapters chapterStatuses setChapters].
    rewrite lookup_insert_ne by congruence. auto. }
  apply (preserves_bind _ (sameOthers_trans n)); [apply others_setStatus|intros u2].
  apply (preserves_bind _ (sameOthers_trans n)); [|intros u3].
  { destruct (negb _); [apply others_emit|apply preserves_ret, sameOthers_refl]. }
  apply (preserves_bind _ (sameOthers_trans n)); [apply others_emit|intros u4].
  apply (preserves_bind _ (sameOthers_trans n));
    [apply preserves_gets, sameOthers_refl|intros done].
  apply (preserves_bind _ (sameOthers_trans n));
    [|intros u5; apply preserves_ret, sameOthers_refl].
  destruct done; [|apply preserves_ret, sameOthers_refl].
  apply others_modify. intros s k _. auto.
Qed.

(** [generateChapter] touches the chapter it generates and no other. *)
Lemma others_generateChapter (n : Z) :
  preserves (sameOthers n) (generateChapter llm cfg (Some n)).
Proof.
  unfold generateChapter.
  apply (preserves_bind _ (sameOthers_trans n));
    [apply preserves_gets, sameOthers_refl|intros a].
  destruct (negb a); [apply preserves_throw, sameOthers_refl|].
  apply (preserves_bind _ (sameOthers_trans n));
    [apply preserves_gets, sameOthers_refl|intros next].
  apply (preserves_bind _ (sameOthers_trans n));
    [apply preserves_gets, sameOthers_refl|intros o].
  destruct o as [chs|]; [|apply preserves_throw, sameOthers_refl].
  destruct (findPlan chs n) as [chapterPlan|]; [|apply preserves_throw, sameOthers_refl].
  apply (preserves_bind _ (sameOthers_trans n)); [apply others_setStatus|intros u].
  apply (preserves_tryCatch _ (sameOthers_trans n)).
  - unfold generateChapterBody.
    apply (preserves_bind _ (sameOthers_trans n));
      [apply others_frame, generateChapterDraft_sameBook|].
    intros [[draft history] isApproved]. apply others_storeChapter.
  - intros e.
    apply (preserves_bind _ (sameOthers_trans n)); [apply others_setStatus|intros u'].
    apply (preserves_bind _ (sameOthers_trans n));
      [apply others_emit|intros u''; apply preserves_throw, sameOthers_refl].
Qed.

Lemma settled_status (s : State) (k : Z) :
  settled s k ->
  isStatus (chapterStatuses s !! k) approved = true \/
  isStatus (chapterStatuses s !! k) failed = true.
Proof. intros [->| ->]; cbn; auto. Qed.

Lemma generateEach_leaves_settled (chs : list ChapterPlan) (k : Z) (s : State)
    (r : Result (list ChapterResult)) (s' : State) :
  settled s k -> generateEach llm cfg chs s = (r, s') ->
  chapterStatuses s' !! k = chapterStatuses s !! k /\ chapters s' !! k = chapters s !! k.
Proof.
  revert s r s'. induction chs as [|ch chs IH]; intros s r s' Hk H; cbn [generateEach] in H.
  - injection H as _ <-. auto.
  - rewrite bind_gets in H.
    destruct (isStatus (chapterStatuses s !! number ch) approved) eqn:Ea; [eapply IH; eauto|].
    destruct (isStatus (chapterStatuses s !! number ch) failed) eqn:Ef; [eapply IH; eauto|].
    assert (number ch <> k) as Hne.
    { intros E. rewrite E in Ea, Ef. destruct (settled_status s k Hk); congruence. }
    assert (preserves (sameOthers (number ch))
              (tryCatch
                 (let* result := generateChapter llm cfg (Some (number ch)) in ret [result])
                 (fun error =>
                    do setStatus (number ch) failed then
                    do emit (chapter_failed (number ch) error) then ret []))) as P.
    { apply (preserves_tryCatch _ (sameOthers_trans (number ch))).
      - apply (preserves_bind _ (sameOthers_trans (number ch)));
          [apply others_generateChapter|intros res; apply preserves_ret, sameOthers_refl].
      - intros e.
        apply (preserves_bind _ (sameOthers_trans (number ch)));
          [apply others_setStatus|intros u].
        apply (preserves_bind _ (sameOthers_trans (number ch)));
          [apply others_emit|intros u'; apply preserves_ret, sameOthers_refl]. }
    apply bind_run in H as [(e & H & _)|(yielded & s1 & H1 & H)].
    + apply P in H. destruct (H k (not_eq_sym Hne)). auto.
    + apply P in H1. destruct (H1 k (not_eq_sym Hne)) as [C1 C2].
      assert (settled s1 k) as Hk1 by (unfold settled in *; rewrite C2; exact Hk).
      apply bind_run in H as [(e & H & _)|(more & s2 & H2 & H)].
      * destruct (IH _ _ _ Hk1 H). split; congruence.
      * injection H as _ <-. destruct (IH _ _ _ Hk1 H2). split; congruence.
Qed.

(** X29. [generateAllRemaining] leaves alone what is done: a chapter
    whose status is 'approved' or 'failed' when it starts keeps its
    status and its stored chapter, whatever happens to the others. *)
Theorem generateAllRemaining_leaves_settled (s : State) (k : Z) :
  settled s k ->
  match generateAllRemaining llm cfg s with
  | (r, s') =>
      chapterStatuses s' !! k = chapterStatuses s !! k /\ chapters s' !! k = chapters s !! k
  end.
Proof.
  intros Hk. destruct (generateAllRemaining llm cfg s) as [r s'] eqn:H.
  unfold generateAllRemaining in H. rewrite bind_gets in H.
  destruct (negb (outlineApproved s)); [injection H as _ <-; auto|].
  rewrite bind_gets in H. destruct (outline s) as [chs|]; [|injection H as _ <-; auto].
  apply bind_run in H as [(e & H & _)|(results & s1 & H1 & H)].
  - eapply generateEach_leaves_settled; eauto.
  - apply (generateEach_leaves_settled chs k s _ s1 Hk) in H1.
    rewrite bind_gets in H.
    destruct (forallb _ chs); cbv [bind modify ret] in H; injection H as _ <-; exact H1.
Qed.

(** ** The book *)

Lemma export_sound (chs : list ChapterPlan) (s : State) :
  wellStored s ->
  Forall (fun c => chApproved c = true /\ chWordCount c = countWords (chContent c) /\
                   In (chNumber c) (map number chs) /\
                   chapters s !! chNumber c = Some c)
    (omap (fun ch => chapters s !! number ch) chs).
Proof.
  intros [W1 _]. induction chs as [|ch chs IH]; [constructor|].
  cbn [omap list_omap map]. destruct (chapters s !! number ch) as [c|] eqn:E.
  - constructor.
    + destruct (W1 _ _ E) as (E1 & E2 & E3). rewrite E1. auto with datatypes.
    + eapply List.Forall_impl; [|exact IH]. cbn. intros d (D1 & D2 & D3 & D4).
      auto with datatypes.
  - eapply List.Forall_impl; [|exact IH]. cbn. intros d (D1 & D2 & D3 & D4).
    auto with datatypes.
Qed.

(** X30. The book that [export] gives, in a session that keeps its
    chapters sound: it throws when there is no outline; otherwise it
    lists, in the order of the outline, the chapters stored under the
    numbers of the outline, each of them approved and stored under its
    own number, and the total of words is the sum of the words of their
    contents. *)
Theorem export_lists_the_stored_chapters (s : State) :
  wellStored s ->
  match exportChapters s with
  | None => outline s = None
  | Some (exported, totalWords) =>
      exists chs, outline s = Some chs /\
        exported = omap (fun ch => chapters s !! number ch) chs /\
        Forall (fun c => chApproved c = true /\ In (chNumber c) (map number chs) /\
                         chapters s !! chNumber c = Some c) exported /\
        totalWords = list_sum (map (fun c => countWords (chContent c)) exported)
  end.
Proof.
  intros W. unfold exportChapters. destruct (outline s) as [chs|]; [|reflexivity].
  exists chs. split; [reflexivity|]. split; [reflexivity|].
  pose proof (export_sound chs s W) as F. split.
  - eapply List.Forall_impl; [|exact F]. cbn. tauto.
  - f_equal. induction F as [|c l (_ & Hc & _) F IH]; [reflexivity|].
    cbn [map]. rewrite Hc, IH. reflexivity.
Qed.

End DoneChapters.

Section DoneInstances.
Import Text Aux Refusal Outline Data Effects Triples Session SessionRel Samples SessionShape.
Import SessionSamples.

Lemma generateAllRemaining_leaves_settled_witness :
  match generateAllRemaining (script []) sampleConfig (failedSession 2) with
  | (r, s') =>
      chapterStatuses s' !! 1%Z = chapterStatuses (failedSession 2) !! 1%Z /\
      chapters s' !! 1%Z = chapters (failedSession 2) !! 1%Z
  end.
Proof.
  apply (generateAllRemaining_leaves_settled (script []) sampleConfig (failedSession 2) 1).
  right. apply lookup_insert_eq.
Defined.

Lemma export_lists_the_stored_chapters_witness :
  match exportChapters (storedSession 2) with
  | None => outline (storedSession 2) = None
  | Some (exported, totalWords) =>
      exists chs, outline (storedSession 2) = Some chs /\
        exported = omap (fun ch => chapters (storedSession 2) !! number ch) chs /\
        Forall (fun c => chApproved c = true /\ In (chNumber c) (map number chs) /\
                         chapters (storedSession 2) !! chNumber c = Some c) exported /\
        totalWords = list_sum (map (fun c => countWords (chContent c)) exported)
  end.
Proof.
  apply (export_lists_the_stored_chapters (storedSession 2)). split.
  - intros n d. unfold storedSession, stored, approvedSession.
    cbn [chapters setStatuses setChapters].
    destruct (decide (n = 1%Z)) as [->|Hn].
    + rewrite lookup_insert_eq. intros [= <-]. repeat split; vm_compute; reflexivity.
    + rewrite lookup_insert_ne by congruence. rewrite lookup_empty. discriminate.
  - intros n. unfold storedSession, stored, approvedSession.
    cbn [chapters chapterStatuses setStatuses setChapters].
    destruct (decide (n = 1%Z)) as [->|Hn].
    + rewrite !lookup_insert_eq. eauto.
    + rewrite lookup_insert_ne by congruence. rewrite lookup_empty. discriminate.
Defined.

End DoneInstances.
